(** * Cats-vs-dogs pipeline: a shallow embedding of the Python sources

    The development follows the layout of the repository:

    - [Py]      the pieces of the Python runtime the code leans on
                (strings, [sorted], slicing, binary64 floats, [random.shuffle]);
    - [PathLib] [pathlib.Path] on a POSIX host and a small filesystem;
    - [Data]    [src/cats_dogs/data.py]: label inference, discovery, the
                stratified split and the manifest writer;
    - [Model]   [src/cats_dogs/model.py]: the colour-histogram features;
    - [Features] the feature-matrix builders of [train.py] and [evaluate.py];
    - [Predict] [src/cats_dogs/predict.py].

    Exceptions are values of [exn]; a computation that may raise returns
    [result A]; code that writes to disk threads the filesystem explicitly. *)

From Stdlib Require Import ZArith QArith Qround Qabs Qpower Lqa Uint63 Ascii String.
From Stdlib Require Import Floats.PrimFloat Floats.FloatOps Floats.SpecFloat.
From stdpp Require Import base tactics option list sorting strings pretty gmap.

Set Default Proof Using "Type".
#[local] Set Warnings "-inexact-float".

#[local] Open Scope string_scope.
#[local] Open Scope list_scope.
#[local] Open Scope nat_scope.

(** ** Exceptions *)

(** The exception classes the modelled code raises or lets through.  The
    argument of [ValueError] tells the raising sites apart (the source
    distinguishes them by message only). *)
Inductive exn : Type :=
  | ValueError (site : string)
  | KeyError (key : string)
  | IndexError
  | OverflowError
  | FileNotFoundError (site : string)
  | FileExistsError
  | NotADirectoryError
  | IsADirectoryError
  | BadZipFile
  | UnidentifiedImageError
  | OSError
  | TypeError
  | AttributeError.

Inductive result (A : Type) : Type :=
  | Ok (a : A)
  | Raise (e : exn).
Arguments Ok {A} a.
Arguments Raise {A} e.

#[global] Instance result_ret : MRet result := λ A a, Ok a.
#[global] Instance result_bind : MBind result := λ A B k r,
  match r with
  | Ok a => k a
  | Raise e => Raise e
  end.

Definition is_ok {A} (r : result A) : bool :=
  match r with Ok _ => true | Raise _ => false end.

(** Code with effects on a store [S] (the disk, the lists a loop appends
    to): the store goes in and comes out, also when an exception is raised. *)
Definition stx (S A : Type) : Type := S → result A * S.

#[global] Instance stx_ret {S} : MRet (stx S) := λ A a s, (Ok a, s).
#[global] Instance stx_bind {S} : MBind (stx S) := λ A B k m s,
  match m s with
  | (Ok a, s') => k a s'
  | (Raise e, s') => (Raise e, s')
  end.

(** A step that only reads the store. *)
Definition pure {S A} (r : S → result A) : stx S A := λ s, (r s, s).

(** A step that updates the store; when it fails the store is as it was. *)
Definition effect {S} (w : S → result S) : stx S unit := λ s,
  match w s with
  | Ok s' => (Ok (), s')
  | Raise e => (Raise e, s)
  end.

(** ** The Python runtime *)

Module Py.

(** *** Strings *)

(** [str.lower] on the bytes of a UTF-8 string.  Only ASCII letters are
    folded; this agrees with Python wherever the result is compared with
    an all-ASCII word made of letters that no non-ASCII code point
    lowers to, which is how the sources use it. *)
Definition lower_ascii (c : ascii) : ascii :=
  let n := Ascii.nat_of_ascii c in
  if (65 <=? n)%nat && (n <=? 90)%nat then Ascii.ascii_of_nat (n + 32) else c.

Fixpoint lower (s : string) : string :=
  match s with
  | EmptyString => EmptyString
  | String c s' => String (lower_ascii c) (lower s')
  end.

(** [s.split(sep)] for a one-character separator. *)
Fixpoint split (sep : ascii) (s : string) : list string :=
  match s with
  | EmptyString => [EmptyString]
  | String c s' =>
      if Ascii.eqb c sep then EmptyString :: split sep s'
      else match split sep s' with
           | [] => [String c EmptyString]
           | w :: ws => String c w :: ws
           end
  end.

(** [sep.join(words)] *)
Definition join (sep : string) (words : list string) : string :=
  String.concat sep words.

(** [s.endswith(t)] *)
Definition endswith (s t : string) : bool :=
  let n := String.length s in
  let m := String.length t in
  (m <=? n)%nat && String.eqb (String.substring (n - m) m s) t.

(** [s.rfind(".")]: index of the last dot, if any. *)
Fixpoint rfind_dot (s : string) : option nat :=
  match s with
  | EmptyString => None
  | String c s' =>
      match rfind_dot s' with
      | Some i => Some (S i)
      | None => if Ascii.eqb c "."%char then Some 0 else None
      end
  end.

(** [x in words] *)
Definition mem (x : string) (words : list string) : bool :=
  existsb (String.eqb x) words.

(** *** [sorted(xs, key=...)] with string keys

    Python compares strings by code point, which on UTF-8 bytes is the
    bytewise order of [String.leb].  [sorted] is stable: an element is
    placed before the first element of the already sorted tail whose key
    is not smaller. *)
Section Sorted.
Context {A : Type} (key : A → string).

Fixpoint insort (x : A) (l : list A) : list A :=
  match l with
  | [] => [x]
  | y :: l' =>
      if String.leb (key x) (key y) then x :: y :: l' else y :: insort x l'
  end.

Definition sorted (l : list A) : list A := foldr insort [] l.
End Sorted.

(** *** Indexing and slicing *)

(** How a slice bound is clamped against a sequence of length [n]:
    a negative bound counts from the end. *)
Definition clamp (n : nat) (i : Z) : nat :=
  if (i <? 0)%Z then Z.to_nat (Z.max 0 (i + Z.of_nat n))
  else Nat.min (Z.to_nat i) n.

(** [l[start:stop]]; [None] is an omitted bound. *)
Definition slice {A} (l : list A) (start stop : option Z) : list A :=
  let n := length l in
  let a := from_option (clamp n) 0 start in
  let b := from_option (clamp n) n stop in
  take (b - a) (drop a l).

(** *** Dictionaries with string keys

    A [dict] keeps insertion order, which [sum(d.values())] observes. *)
Abbreviation dict V := (list (string * V)) (only parsing).

Fixpoint dict_find {V} (d : dict V) (k : string) : option V :=
  match d with
  | [] => None
  | (k', v) :: d' => if String.eqb k k' then Some v else dict_find d' k
  end.

(** [d[k]] *)
Definition dict_get {V} (d : dict V) (k : string) : result V :=
  match dict_find d k with
  | Some v => Ok v
  | None => Raise (KeyError k)
  end.

Definition dict_values {V} (d : dict V) : list V := d.*2.

(** *** binary64 floats

    [float] is the kernel's IEEE 754 binary64, the representation of a
    Python [float]. *)

(** [float(n)] for a length; exact below [2^53], and a list cannot be
    longer than [2^63]. *)
Definition float_of_nat (n : nat) : float :=
  PrimFloat.of_uint63 (Uint63.of_Z (Z.of_nat n)).

(** [int(x)]: truncation toward zero. *)
Definition int_of_float (x : float) : result Z :=
  match Prim2SF x with
  | S754_zero _ => Ok 0%Z
  | S754_finite s m e =>
      let a := match e with
               | Z0 => Zpos m
               | Zpos k => Z.shiftl (Zpos m) (Zpos k)
               | Zneg k => Z.shiftr (Zpos m) (Zpos k)
               end in
      Ok (if s then (- a)%Z else a)
  | S754_infinity _ => Raise OverflowError
  | S754_nan => Raise (ValueError "cannot convert float NaN to integer")
  end.

(** [sum(xs)] over floats: left to right from [0]. *)
Definition fsum (xs : list float) : float :=
  foldl PrimFloat.add 0%float xs.

(** *** [numpy] arrays and float32

    An array is its shape and its elements in row-major order.  Elements
    are the exact rational values of the floats they stand for, so NaN
    and the infinities are not represented. *)
Record ndarray : Type := {
  shape : list nat;
  data : list Q;
}.

Definition ndim (a : ndarray) : nat := length (shape a).

(** Rational value of a finite binary64 float. *)
Definition Q_of_float (x : float) : Q :=
  match Prim2SF x with
  | S754_finite s m e =>
      let a := match e with
               | Z0 => inject_Z (Zpos m)
               | Zpos k => inject_Z (Z.shiftl (Zpos m) (Zpos k))
               | Zneg k => Zpos m # Pos.shiftl 1 (Npos k)
               end in
      if s then Qopp a else a
  | _ => 0%Q
  end.

Definition pow2 (e : Z) : Q :=
  match e with
  | Z0 => 1%Q
  | Zpos k => inject_Z (Z.shiftl 1 (Zpos k))
  | Zneg k => 1 # Pos.shiftl 1 (Npos k)
  end.

(** [floor(log2 q)] for [q > 0] *)
Definition ilog2 (q : Q) : Z :=
  let e := (Z.log2 (Qnum q) - Z.log2 (Zpos (Qden q)))%Z in
  if Qle_bool (pow2 e) q then e else (e - 1)%Z.

Definition round_half_even (q : Q) : Z :=
  let f := Qfloor q in
  match Qcompare (q - inject_Z f) (1 # 2) with
  | Lt => f
  | Gt => (f + 1)%Z
  | Eq => if Z.even f then f else (f + 1)%Z
  end.

(** Rounding to the nearest float32 (24-bit significand, subnormals below
    [2^-126]); values beyond the float32 range are not modelled. *)
Definition round_f32 (q : Q) : Q :=
  if Qeq_bool q 0 then 0%Q
  else
    let a := Qabs q in
    let ulp := pow2 (Z.max (ilog2 a) (-126) - 23) in
    let r := Qred (inject_Z (round_half_even (a / ulp)) * ulp) in
    if Qle_bool 0 q then r else Qopp r.

(** [a.sum()] of a float32 array: every addition is rounded to float32.
    numpy adds pairwise, in blocks, where the model adds from left to
    right; the order has no effect when every partial sum is exact, as for
    integers that add up to at most [2^24]. *)
Definition sum_f32 (xs : list Q) : Q :=
  foldl (λ acc x, round_f32 (acc + x)) 0%Q xs.

(** *** [np.histogram(values, bins=bins, range=(0.0, 1.0))]

    numpy ignores the values outside [[0, 1]] and counts each of the
    others in one of [bins] bins of nominally equal width.  Which bin a
    value falls in is decided in floating point, against bin edges computed
    by [linspace], so that a value at (or within a rounding error of) an
    edge need not land in the bin exact arithmetic puts it in.  That
    choice is left abstract: a function to an index below [bins]. *)
Record Binning : Type := {
  bin_index : nat → Q → nat;
  bin_index_lt : ∀ (bins : nat) (v : Q),
    (0 < bins)%nat → Qle_bool 0 v && Qle_bool v 1 = true →
    (bin_index bins v < bins)%nat;
}.

Definition bin_of (N : Binning) (bins : nat) (v : Q) : option nat :=
  if Qle_bool 0 v && Qle_bool v 1 then Some (bin_index N bins v) else None.

(** The counts, [np.histogram(...)[0]]. *)
Definition np_histogram (N : Binning) (values : list Q) (bins : Z)
    : result (list nat) :=
  if (bins <? 1)%Z then Raise (ValueError "`bins` must be positive")
  else
    let n := Z.to_nat bins in
    Ok ((λ i, length (List.filter (λ v, bool_decide (bin_of N n v = Some i))
                                  values)) <$> seq 0 n).

(** [np.argmax(scores)] on a one-dimensional array: the scan keeps the
    first maximum, moving on only to a strictly larger element. *)
Fixpoint argmax_from (best : nat) (mp : Q) (i : nat) (rest : list Q) : nat :=
  match rest with
  | [] => best
  | x :: rest' =>
      if negb (Qle_bool x mp) then argmax_from i x (S i) rest'
      else argmax_from best mp (S i) rest'
  end.

Definition np_argmax (scores : list Q) : result nat :=
  match scores with
  | [] => Raise (ValueError "attempt to get argmax of an empty sequence")
  | x :: rest => Ok (argmax_from 0 x 1 rest)
  end.

(** [np.unique(xs)] *)
Definition np_unique (xs : list Z) : list Z :=
  merge_sort Z.le (remove_dups xs).

(** [d[k] = v] *)
Fixpoint dict_set {V} (d : dict V) (k : string) (v : V) : dict V :=
  match d with
  | [] => [(k, v)]
  | (k', v') :: d' =>
      if String.eqb k k' then (k', v) :: d' else (k', v') :: dict_set d' k v
  end.

(** *** [random.Random(seed_string).shuffle]

    The generator itself (Mersenne Twister seeded from the SHA-512 of the
    string) is left abstract: a state, the seeding from a string, and
    [_randbelow(n)], which draws a number below [n]. *)
Record Rng : Type := {
  rng_state : Type;
  rng_seed : string → rng_state;
  randbelow : rng_state → nat → nat * rng_state;
}.

(** [x[i], x[j] = x[j], x[i]].  [shuffle] draws [j] with
    [randbelow(i + 1)], so both indices are in range there; out of range
    the model leaves the list alone where Python would raise. *)
Definition swap {A} (i j : nat) (l : list A) : list A :=
  match l !! i, l !! j with
  | Some a, Some b => <[j:=a]> (<[i:=b]> l)
  | _, _ => l
  end.

Section Shuffle.
Context (R : Rng) {A : Type}.

(** [for i in reversed(range(1, len(x))): j = randbelow(i + 1); swap] *)
Fixpoint shuffle_from (i : nat) (g : rng_state R) (x : list A) : list A :=
  match i with
  | O => x
  | S i' =>
      let '(j, g') := randbelow R g (S (S i')) in
      shuffle_from i' g' (swap (S i') j x)
  end.

Definition shuffle (g : rng_state R) (x : list A) : list A :=
  shuffle_from (length x - 1) g x.
End Shuffle.

End Py.

(** ** [pathlib] on a POSIX host, and a filesystem *)

Module PathLib.

(** A [Path] is its normalised POSIX text ([as_posix]): no empty or [.]
    segment, no trailing slash.  Two paths are equal exactly when their
    texts are. *)
Definition Path : Type := string.

Definition as_posix (p : Path) : string := p.

Definition is_absolute (s : string) : bool := String.prefix "/" s.

Definition segments (s : string) : list string :=
  List.filter (λ w, negb (String.eqb w "") && negb (String.eqb w "."))
              (Py.split "/" s).

Definition of_segments (absolute : bool) (segs : list string) : Path :=
  if absolute then "/" +:+ Py.join "/" segs
  else match segs with [] => "." | _ => Py.join "/" segs end.

(** [Path(s)] *)
Definition of_string (s : string) : Path :=
  of_segments (is_absolute s) (segments s).

(** [p.parts]: the anchor, if any, then the segments. *)
Definition parts (p : Path) : list string :=
  if is_absolute p then "/" :: segments p else segments p.

(** [p.name] *)
Definition name (p : Path) : string := List.last (segments p) "".

(** [p.parent] *)
Definition parent (p : Path) : Path :=
  of_segments (is_absolute p) (removelast (segments p)).

(** [p.suffix] *)
Definition suffix (p : Path) : string :=
  let n := name p in
  match Py.rfind_dot n with
  | Some i =>
      if (0 <? i)%nat && (i <? String.length n - 1)%nat
      then String.substring i (String.length n - i) n
      else ""
  | None => ""
  end.

(** [p / s] *)
Definition joinpath (p : Path) (s : string) : Path :=
  if is_absolute s then of_string s else of_string (p +:+ "/" +:+ s).

Fixpoint strip_prefix (base l : list string) : option (list string) :=
  match base, l with
  | [], _ => Some l
  | b :: base', x :: l' => if String.eqb b x then strip_prefix base' l' else None
  | _ :: _, [] => None
  end.

(** [p.relative_to(base)] *)
Definition relative_to (p base : Path) : result Path :=
  match strip_prefix (parts base) (parts p) with
  | Some rest => Ok (of_segments false rest)
  | None => Raise (ValueError "relative_to")
  end.

(** [p.resolve()] where there are no symbolic links: [..] cancels the
    segment before it (and is dropped at the root). *)
Definition resolve (p : Path) : Path :=
  let step (acc : list string) (w : string) :=
    if String.eqb w ".." then removelast acc else acc ++ [w] in
  of_segments (is_absolute p) (foldl step [] (segments p)).

(** *** Filesystem

    Entries are kept in the order a directory scan reports them. *)
Inductive node : Type :=
  | Dir
  | File (text : string)
  | ZipFile (namelist : list string).

Definition fs : Type := list (Path * node).

Fixpoint stat (t : fs) (p : Path) : option node :=
  match t with
  | [] => None
  | (q, n) :: t' => if String.eqb p q then Some n else stat t' p
  end.

Definition exists_ (t : fs) (p : Path) : bool := bool_decide (is_Some (stat t p)).

Definition is_dir (t : fs) (p : Path) : bool :=
  match stat t p with Some Dir => true | _ => false end.

Definition is_file (t : fs) (p : Path) : bool :=
  match stat t p with Some (File _) | Some (ZipFile _) => true | _ => false end.

(** [p.iterdir()] *)
Definition iterdir (t : fs) (p : Path) : list Path :=
  List.filter (λ q, negb (String.eqb q p) && String.eqb (parent q) p) t.*1.

(** [p.rglob("*")]: everything strictly below [p]. *)
Definition rglob (t : fs) (p : Path) : list Path :=
  List.filter
    (λ q, match strip_prefix (parts p) (parts q) with
          | Some (_ :: _) => true
          | _ => false
          end) t.*1.

Fixpoint put (t : fs) (p : Path) (n : node) : fs :=
  match t with
  | [] => [(p, n)]
  | (q, m) :: t' => if String.eqb p q then (q, n) :: t' else (q, m) :: put t' p n
  end.

(** The ancestors of [p], outermost first, then [p] itself. *)
Definition lineage (p : Path) : list Path :=
  let segs := segments p in
  (λ k, of_segments (is_absolute p) (take k segs)) <$> seq 1 (length segs).

(** One step of [mkdir] along the lineage of a path: [os.mkdir] fails with
    [NotADirectoryError] at an ancestor that is not a directory and with
    [FileExistsError] at the path itself when it exists and is not a
    directory. *)
Definition mkdir_step (leaf : bool) (r : result fs) (q : Path) : result fs :=
  t' ← r;
  match stat t' q with
  | None => Ok (put t' q Dir)
  | Some Dir => Ok t'
  | Some _ => Raise (if leaf then FileExistsError else NotADirectoryError)
  end.

(** [p.mkdir(parents=True, exist_ok=True)] *)
Definition mkdir_p (t : fs) (p : Path) : result fs :=
  let chain := lineage p in
  mkdir_step true (foldl (mkdir_step false) (Ok t) (removelast chain))
             (List.last chain p).

(** [p.write_text(text)] *)
Definition write_text (t : fs) (p : Path) (text : string) : result fs :=
  match stat t p with
  | Some Dir => Raise IsADirectoryError
  | _ =>
      if is_dir t (parent p) then Ok (put t p (File text))
      else Raise (FileNotFoundError "write_text")
  end.

End PathLib.

(** ** The imaging library *)

(** What the sources use of PIL.  Opening identifies the format and may
    fail ([UnidentifiedImageError]); the pixel data are decoded later, by
    the first operation that needs them, which may then fail with
    [OSError]. *)
Module PIL.

Record World : Type := {
  Image : Type;
  (** the image a file holds, if it is identified as one *)
  identify_file : PathLib.Path → option Image;
  (** the image a byte string holds, if it is identified as one *)
  identify_bytes : list Byte.byte → option Image;
  (** [image.mode] *)
  mode : Image → string;
  (** [image.convert(mode)] *)
  convert : Image → string → option Image;
  (** [image.resize(size, resample=BILINEAR)] *)
  resize : Image → nat * nat → option Image;
  (** [np.asarray(image, dtype=np.float32)]: shape (H, W, bands), values
      in 0..255 *)
  asarray : Image → Py.ndarray;
}.

Section Ops.
Context (W : World).

(** [Image.open(path)] *)
Definition open (path : PathLib.Path) : result (Image W) :=
  match identify_file W path with
  | Some image => Ok image
  | None => Raise UnidentifiedImageError
  end.

(** [Image.open(io.BytesIO(payload))] *)
Definition open_bytes (payload : list Byte.byte) : result (Image W) :=
  match identify_bytes W payload with
  | Some image => Ok image
  | None => Raise UnidentifiedImageError
  end.

Definition decoded {A} (o : option A) : result A :=
  match o with
  | Some a => Ok a
  | None => Raise OSError
  end.
End Ops.

End PIL.

(** ** [src/cats_dogs/data.py] *)

Module Data.
Import PathLib.

Definition TAB : string := String (Ascii.ascii_of_nat 9) EmptyString.
Definition NL : string := String (Ascii.ascii_of_nat 10) EmptyString.

Definition DEFAULT_SEED : Z := 1337.
Definition DEFAULT_SPLIT_RATIOS : Py.dict float :=
  [("train", 0.8%float); ("val", 0.1%float); ("test", 0.1%float)].
Definition SUPPORTED_SUFFIXES : list string := [".jpg"; ".jpeg"; ".png"].
Definition CLASS_TO_INDEX : Py.dict Z := [("cat", 0%Z); ("dog", 1%Z)].

Definition DEFAULT_IMAGE_SIZE : nat * nat := (224, 224).

(** *** Preprocessing *)

Section Preprocess.
Context (W : PIL.World).

(** Convert to RGB, resize, and scale to [[0, 1]] float32. *)
Definition preprocess_image (image : PIL.Image W) (size : nat * nat)
    : result Py.ndarray :=
  image ← (if negb (String.eqb (PIL.mode W image) "RGB")
           then PIL.decoded (PIL.convert W image "RGB")
           else Ok image);
  image ← PIL.decoded (PIL.resize W image size);
  let array := PIL.asarray W image in
  Ok {| Py.shape := Py.shape array;
        Py.data := (λ v, Py.round_f32 (v / 255)) <$> Py.data array |}.

Definition preprocess_path (path : Path) (size : nat * nat)
    : result Py.ndarray :=
  image ← PIL.open W path;
  preprocess_image image size.
End Preprocess.

(** *** Label inference *)

(** The body of the [for] loop of [_infer_label_from_parts], over the
    segments in the order the loop visits them. *)
Fixpoint scan_label (visited : list string) : option string :=
  match visited with
  | [] => None
  | part :: rest =>
      let lower := Py.lower part in
      if Py.mem lower ["cat"; "cats"] then Some "cat"
      else if Py.mem lower ["dog"; "dogs"] then Some "dog"
      else scan_label rest
  end.

Definition _infer_label_from_parts (parts : list string) : option string :=
  scan_label (rev parts).

Definition _is_image_name (name : string) : bool :=
  Py.mem (Py.lower (suffix (of_string name))) SUPPORTED_SUFFIXES.

(** *** Discovery *)

Definition _has_class_dirs (t : fs) (candidate : Path) : bool :=
  if negb (is_dir t candidate) then false
  else
    let names := (λ child, Py.lower (name child)) <$>
                   List.filter (is_dir t) (iterdir t candidate) in
    existsb (λ n, Py.mem n ["cat"; "cats"]) names
    && existsb (λ n, Py.mem n ["dog"; "dogs"]) names.

Definition _find_dataset_root (t : fs) (raw_dir : Path) : result Path :=
  if negb (exists_ t raw_dir)
  then Raise (FileNotFoundError "Raw data directory does not exist")
  else if _has_class_dirs t raw_dir then Ok raw_dir
  else match List.find (_has_class_dirs t) (rglob t raw_dir) with
       | Some candidate => Ok candidate
       | None => Raise (FileNotFoundError "Could not find class directories")
       end.

(** [paths_by_label]: a dict from label to the list of its files. *)
Definition empty_paths_by_label : gmap string (list Path) :=
  <["cat" := []]> (<["dog" := []]> ∅).

(** [paths_by_label[label].append(path)] *)
Definition append_path (label : string) (path : Path)
    (paths_by_label : gmap string (list Path)) : gmap string (list Path) :=
  alter (λ l, l ++ [path]) label paths_by_label.

(** [any(paths_by_label.values())] *)
Definition any_paths (paths_by_label : gmap string (list Path)) : bool :=
  existsb (λ kv, negb (bool_decide (kv.2 = []))) (map_to_list paths_by_label).

Definition _collect_from_directory (t : fs) (raw_dir : Path)
    : result (gmap string (list Path) * Path) :=
  dataset_root ← _find_dataset_root t raw_dir;
  let paths_by_label :=
    foldl (λ acc path,
             if negb (is_file t path) then acc
             else if negb (_is_image_name (name path)) then acc
             else match _infer_label_from_parts (parts path) with
                  | None => acc
                  | Some label => append_path label path acc
                  end)
          empty_paths_by_label (rglob t dataset_root) in
  if negb (any_paths paths_by_label)
  then Raise (FileNotFoundError "No images found under")
  else Ok (paths_by_label, dataset_root).

(** [set.add] on a list without repetition. *)
Definition set_add (x : string) (s : list string) : list string :=
  if Py.mem x s then s else s ++ [x].

Definition _collect_from_zip (t : fs) (zip_path raw_dir : Path)
    : result (gmap string (list Path) * Path) :=
  match stat t zip_path with
  | None => Raise (FileNotFoundError "Zip file not found")
  | Some Dir => Raise IsADirectoryError
  | Some (File _) => Raise BadZipFile
  | Some (ZipFile namelist) =>
      let '(paths_by_label, root_candidates) :=
        foldl (λ '(acc, roots) entry,
                 if Py.endswith entry "/" then (acc, roots)
                 else if negb (_is_image_name entry) then (acc, roots)
                 else
                   let parts := Py.split "/" entry in
                   let roots := match parts with
                                | p0 :: _ => set_add p0 roots
                                | [] => roots
                                end in
                   match _infer_label_from_parts parts with
                   | None => (acc, roots)
                   | Some label =>
                       (append_path label (joinpath raw_dir entry) acc, roots)
                   end)
              (empty_paths_by_label, []) namelist in
      if negb (any_paths paths_by_label)
      then Raise (FileNotFoundError "No images found inside zip")
      else
        let dataset_root := match root_candidates with
                            | [root] => joinpath raw_dir root
                            | _ => raw_dir
                            end in
        Ok (paths_by_label, dataset_root)
  end.

Definition _resolve_path (path repo_root : Path) : Path :=
  if is_absolute path then resolve path
  else resolve (joinpath repo_root path).

(** *** The stratified split *)

Record splits : Type := {
  train : list (Path * string);
  val : list (Path * string);
  test : list (Path * string);
}.

Definition no_splits : splits := {| train := []; val := []; test := [] |}.

(** [(path, label) for path in paths] *)
Definition tagged (label : string) (paths : list Path) : list (Path * string) :=
  (λ path, (path, label)) <$> paths.

Section Split.
Context (R : Py.Rng).

(** The sorted, then shuffled file list of one class. *)
Definition class_order (seed : Z) (label : string) (paths : list Path)
    : list Path :=
  Py.shuffle R (Py.rng_seed R (pretty seed +:+ ":" +:+ label))
             (Py.sorted as_posix paths).

(** [train_count], [val_count] and [test_count] for a class of [total]
    files. *)
Definition split_counts (ratios : Py.dict float) (total : nat)
    : result (Z * Z * Z) :=
  r_train ← Py.dict_get ratios "train";
  train_count ← Py.int_of_float (Py.float_of_nat total * r_train)%float;
  r_val ← Py.dict_get ratios "val";
  val_count ← Py.int_of_float (Py.float_of_nat total * r_val)%float;
  mret (train_count, val_count, (Z.of_nat total - train_count - val_count)%Z).

(** One iteration of the loop over the labels. *)
Definition split_class (seed : Z) (ratios : Py.dict float)
    (label : string) (paths0 : list Path) (acc : splits) : result splits :=
  let paths := class_order seed label paths0 in
  '(train_count, val_count, _) ← split_counts ratios (length paths);
  mret {| train := train acc ++
            tagged label (Py.slice paths None (Some train_count));
          val := val acc ++
            tagged label (Py.slice paths (Some train_count)
                                   (Some (train_count + val_count)%Z));
          test := test acc ++
            tagged label (Py.slice paths (Some (train_count + val_count)%Z)
                                   None) |}.

Definition sorted_labels (paths_by_label : gmap string (list Path))
    : list string :=
  Py.sorted id (map_to_list paths_by_label).*1.

Definition by_path (l : list (Path * string)) : list (Path * string) :=
  Py.sorted (λ item, as_posix item.1) l.

Definition _stratified_split (paths_by_label : gmap string (list Path))
    (seed : Z) (ratios : Py.dict float) : result splits :=
  s ← foldl (λ (r : result splits) label,
               acc ← r;
               split_class seed ratios label
                 (default [] (paths_by_label !! label)) acc)
            (Ok no_splits) (sorted_labels paths_by_label);
  mret {| train := by_path (train s);
          val := by_path (val s);
          test := by_path (test s) |}.
End Split.

(** *** Writing the manifests *)

Abbreviation io := (stx fs).

(** The dict the function returns and dumps as [metadata.json]. *)
Record metadata : Type := {
  md_seed : Z;
  md_ratios : Py.dict float;
  md_counts : Py.dict nat;
  md_counts_by_class : Py.dict (Py.dict nat);
  md_class_to_index : Py.dict Z;
  md_label_inference : string;
  md_manifest_format : string;
  md_data_source : Py.dict string;
  md_raw_dir : string;
  md_dataset_root : string;
  md_supported_suffixes : list string;
}.

(** The lines of one manifest and its per-class counts: the inner loop
    of [write_split_manifests]. *)
Definition manifest_line (repo_root : Path)
    (acc : list string * Py.dict nat) (item : Path * string)
    : result (list string * Py.dict nat) :=
  let '(lines, class_counts) := acc in
  let '(path, label) := item in
  rel_path ← relative_to path repo_root;
  n ← Py.dict_get class_counts label;
  Ok (lines ++ [as_posix rel_path +:+ TAB +:+ label],
      (λ '(k, v), (k, if String.eqb k label then S n else v))
        <$> class_counts).

Definition manifest_lines (repo_root : Path) (items : list (Path * string))
    : result (list string * Py.dict nat) :=
  foldl (λ r item, acc ← r; manifest_line repo_root acc item)
        (Ok ([], [("cat", 0); ("dog", 0)])) items.

(** ["\n".join(lines) + ("\n" if lines else "")] *)
Definition manifest_text (lines : list string) : string :=
  Py.join NL lines +:+ (match lines with [] => "" | _ => NL end).

Section Writer.
Context (R : Py.Rng).
(** [_resolve_repo_root()] and [json.dumps(_, indent=2, sort_keys=True)] *)
Context (repo_root : Path) (json_dumps : metadata → string).

(** The [try] / [except FileNotFoundError] around discovery. *)
Definition discover (t : fs) (raw_dir_abs : Path) (zip_path : option Path)
    : result (gmap string (list Path) * Path * Py.dict string) :=
  let from_directory :=
    '(paths_by_label, dataset_root) ← _collect_from_directory t raw_dir_abs;
    rel ← relative_to dataset_root repo_root;
    mret (paths_by_label, dataset_root,
          [("type", "filesystem"); ("path", as_posix rel)]) in
  match from_directory with
  | Raise (FileNotFoundError site) =>
      match zip_path with
      | None => Raise (FileNotFoundError site)
      | Some zip_path =>
          let zip_path_abs := _resolve_path zip_path repo_root in
          '(paths_by_label, dataset_root) ←
             _collect_from_zip t zip_path_abs raw_dir_abs;
          rel ← relative_to zip_path_abs repo_root;
          mret (paths_by_label, dataset_root,
                [("type", "zip"); ("path", as_posix rel)])
      end
  | r => r
  end.

(** One iteration of the loop over [splits.items()]. *)
Definition write_manifest (splits_dir_abs : Path) (split_name : string)
    (items : list (Path * string)) : io (Py.dict nat) :=
  let output_path := joinpath splits_dir_abs (split_name +:+ ".txt") in
  '(lines, class_counts) ← pure (λ _, manifest_lines repo_root items);
  _ ← effect (λ t, write_text t output_path (manifest_text lines));
  mret class_counts.

Definition write_split_manifests (raw_dir splits_dir : Path) (seed : Z)
    (ratios : option (Py.dict float)) (zip_path : option Path)
    : io metadata :=
  let ratios := match ratios with
                | Some ((_ :: _) as given) => given
                | _ => DEFAULT_SPLIT_RATIOS
                end in
  if (1e-6 <? abs (Py.fsum (Py.dict_values ratios) - 1))%float
  then pure (λ _, Raise (ValueError "Split ratios must sum to 1.0"))
  else
    let raw_dir_abs := _resolve_path raw_dir repo_root in
    let splits_dir_abs := _resolve_path splits_dir repo_root in
    '(paths_by_label, dataset_root, source) ←
       pure (λ t, discover t raw_dir_abs zip_path);
    s ← pure (λ _, _stratified_split R paths_by_label seed ratios);
    _ ← effect (λ t, mkdir_p t splits_dir_abs);
    train_counts ← write_manifest splits_dir_abs "train" (train s);
    val_counts ← write_manifest splits_dir_abs "val" (val s);
    test_counts ← write_manifest splits_dir_abs "test" (test s);
    raw_rel ← pure (λ _, relative_to raw_dir_abs repo_root);
    root_rel ← pure (λ _, relative_to dataset_root repo_root);
    let md :=
      {| md_seed := seed;
         md_ratios := ratios;
         md_counts := [("train", length (train s)); ("val", length (val s));
                       ("test", length (test s))];
         md_counts_by_class := [("train", train_counts); ("val", val_counts);
                                ("test", test_counts)];
         md_class_to_index := CLASS_TO_INDEX;
         md_label_inference :=
           "Label inferred from any path segment named cat/cats or dog/dogs (case-insensitive).";
         md_manifest_format := "path\tlabel (repo-relative path)";
         md_data_source := source;
         md_raw_dir := as_posix raw_rel;
         md_dataset_root := as_posix root_rel;
         md_supported_suffixes := Py.sorted id SUPPORTED_SUFFIXES |} in
    _ ← effect (λ t, write_text t (joinpath splits_dir_abs "metadata.json")
                       (json_dumps md));
    mret md.
End Writer.

End Data.

(** ** [src/cats_dogs/model.py] *)

Module Model.

Definition DEFAULT_FEATURE_BINS : Z := 8.

Record FeatureConfig : Type := { bins : Z }.

Record PreprocessConfig : Type := {
  image_size : nat * nat;
  normalize : bool;
  dtype : string;
}.

(** What [predict.py] probes of the opaque [classifier]: the optional
    methods ([hasattr]) and the optional [classes_] attribute.  Class
    identifiers are the integers training fits on. *)
Record Classifier : Type := {
  predict_proba : option (Py.ndarray → result Py.ndarray);
  decision_function : option (Py.ndarray → result Py.ndarray);
  predict : option (Py.ndarray → result (list Z));
  classes_ : option (list Z);
}.

Record ModelBundle : Type := {
  classifier : Classifier;
  class_to_index : Py.dict Z;
  index_to_class : gmap Z string;
  feature_config : FeatureConfig;
  preprocess_config : PreprocessConfig;
  created_at : string;
  mlflow_run_id : option string;
  schema_version : Z;
}.

(** [image_array[:, :, channel]] of an (H, W, 3) array, flattened. *)
Definition channel_values (image_array : Py.ndarray) (channel : nat)
    : list Q :=
  match Py.shape image_array with
  | [h; w; _] =>
      omap (λ i, Py.data image_array !! (3 * i + channel)) (seq 0 (h * w))
  | _ => []
  end.

(** [hist = hist.astype(np.float32)], [total = hist.sum()] and
    [if total > 0: hist /= total]: the counts, their sum and each quotient
    are float32 values. *)
Definition normalised (hist : list nat) : list Q :=
  let hist := (λ count, Py.round_f32 (inject_Z (Z.of_nat count))) <$> hist in
  let total := Py.sum_f32 hist in
  if negb (Qle_bool total 0)
  then (λ x, Py.round_f32 (x / total)) <$> hist
  else hist.

Section Histogram.
Context (N : Py.Binning).

Definition channel_histogram (image_array : Py.ndarray) (bins : Z)
    (channel : nat) : result (list Q) :=
  hist ← Py.np_histogram N (channel_values image_array channel) bins;
  Ok (normalised hist).

(** Compute normalized per-channel color histograms as features. *)
Definition extract_color_histogram (image_array : Py.ndarray) (bins : Z)
    : result (list Q) :=
  match Py.shape image_array with
  | [_; _; 3] =>
      red ← channel_histogram image_array bins 0;
      green ← channel_histogram image_array bins 1;
      blue ← channel_histogram image_array bins 2;
      Ok (red ++ green ++ blue)
  | _ => Raise (ValueError "Expected image array shape (H, W, 3)")
  end.

Definition featurize_image (image_array : Py.ndarray) (config : FeatureConfig)
    : result (list Q) :=
  extract_color_histogram image_array (bins config).
End Histogram.

End Model.

(** ** The feature-matrix builders of [train.py] and [evaluate.py] *)

Module Features.
Import Model.

(** The lists a builder appends to: [features] and [labels]. *)
Definition rows : Type := list (list Q) * list Z.

Definition append_features (v : list Q) : stx rows unit :=
  effect (λ '(features, labels), Ok (features ++ [v], labels)).

Definition append_label (label : string) : stx rows unit :=
  effect (λ '(features, labels),
            index ← Py.dict_get Data.CLASS_TO_INDEX label;
            Ok (features, labels ++ [index])).

(** [try: body except Exception: skipped += 1] *)
Definition counted (body : stx rows unit) (st : rows * nat) : rows * nat :=
  let '(r, skipped) := st in
  match body r with
  | (Ok _, r') => (r', skipped)
  | (Raise _, r') => (r', S skipped)
  end.

Section Builders.
(** numpy's binning *)
Context (N : Py.Binning).
Context (W : PIL.World).
(** [_augment_image(image.copy(), random.Random(aug_seed))], by seed *)
Context (_augment_image : PIL.Image W → Z → result (PIL.Image W)).

(** The body of the [for aug_idx in range(augmentations_per_image)] loop *)
Definition augmentation (image : PIL.Image W) (feature_config : FeatureConfig)
    (label : string) (seed : Z) (idx : nat) (aug_idx : nat) : stx rows unit :=
  let aug_seed := (seed + Z.of_nat idx * 1000 + Z.of_nat aug_idx)%Z in
  aug_image ← pure (λ _, _augment_image image aug_seed);
  aug_array ← pure (λ _, Data.preprocess_image W aug_image
                            Data.DEFAULT_IMAGE_SIZE);
  v ← pure (λ _, featurize_image N aug_array feature_config);
  _ ← append_features v;
  append_label label.

(** The body of the [try] of [_build_features] for the sample at [idx] *)
Definition train_sample (feature_config : FeatureConfig) (augment : bool)
    (augmentations_per_image : Z) (seed : Z) (idx : nat)
    (item : PathLib.Path * string) : stx rows unit :=
  let '(path, label) := item in
  image ← pure (λ _, PIL.open W path);
  image ← pure (λ _, PIL.decoded (PIL.convert W image "RGB"));
  base_array ← pure (λ _, Data.preprocess_image W image
                             Data.DEFAULT_IMAGE_SIZE);
  v ← pure (λ _, featurize_image N base_array feature_config);
  _ ← append_features v;
  _ ← append_label label;
  if augment
  then foldl (λ (m : stx rows unit) aug_idx,
                _ ← m;
                augmentation image feature_config label seed idx aug_idx)
             (mret ()) (seq 0 (Z.to_nat augmentations_per_image))
  else mret ().

(** [train.py] *)
Definition _build_features (items : list (PathLib.Path * string))
    (feature_config : FeatureConfig) (augment : bool)
    (augmentations_per_image : Z) (seed : Z)
    : result (list (list Q) * list Z * nat) :=
  let '(features, labels, skipped) :=
    foldl (λ st '(idx, item),
             counted (train_sample feature_config augment
                        augmentations_per_image seed idx item) st)
          (([], []), 0) (imap (λ idx item, (idx, item)) items) in
  match features with
  | [] => Raise (ValueError "No valid samples available after preprocessing.")
  | _ => Ok (features, labels, skipped)
  end.

(** One iteration of the loop of [_load_features_from_manifest]: only
    [preprocess_path] is inside the [try]. *)
Definition eval_sample (feature_config : FeatureConfig)
    (item : PathLib.Path * string) (st : rows * nat) : result (rows * nat) :=
  let '(path, label) := item in
  let '((features, labels), skipped) := st in
  match Data.preprocess_path W path Data.DEFAULT_IMAGE_SIZE with
  | Raise _ => Ok ((features, labels), S skipped)
  | Ok array =>
      v ← featurize_image N array feature_config;
      index ← Py.dict_get Data.CLASS_TO_INDEX label;
      Ok ((features ++ [v], labels ++ [index]), skipped)
  end.

(** [evaluate.py] *)
Definition _load_features_from_manifest (items : list (PathLib.Path * string))
    (feature_config : FeatureConfig) : result (list (list Q) * list Z * nat) :=
  '((features, labels), skipped) ←
     foldl (λ r item, st ← r; eval_sample feature_config item st)
           (Ok (([], []), 0)) items;
  match features with
  | [] => Raise (ValueError "No valid samples found while building features.")
  | _ => Ok (features, labels, skipped)
  end.
End Builders.

End Features.

(** ** [src/cats_dogs/predict.py] *)

Module Predict.
Import Model.

Record PredictionResult : Type := {
  label : string;
  probability : Q;
  probabilities : Py.dict Q;
}.

(** [array.astype(dtype)] for the float types the pipeline stores in a
    bundle; other dtypes are outside the model and reported as
    [TypeError]. *)
Definition astype (array : Py.ndarray) (dtype : string) : result Py.ndarray :=
  if String.eqb dtype "float32"
  then Ok {| Py.shape := Py.shape array;
             Py.data := Py.round_f32 <$> Py.data array |}
  else if String.eqb dtype "float64" then Ok array
  else Raise TypeError.

(** [np.asarray(proba, dtype=np.float32)] *)
Definition as_float32 (a : Py.ndarray) : Py.ndarray :=
  {| Py.shape := Py.shape a; Py.data := Py.round_f32 <$> Py.data a |}.

(** [a[0]] as a list of scalars, for [a] of one or two dimensions. *)
Definition first_row (a : Py.ndarray) : result (list Q) :=
  match Py.shape a with
  | [] => Raise IndexError
  | [n] => Ok (Py.data a)
  | [n; m] => if (0 <? n)%nat then Ok (take m (Py.data a)) else Raise IndexError
  | _ => Raise TypeError
  end.

Section Predictor.
(** numpy's binning *)
Context (N : Py.Binning).
Context (W : PIL.World).
(** [_scores_to_proba]: sigmoid (one column) or softmax (several) of the
    decision scores, computed with [np.exp] in floating point; left
    abstract. *)
Context (_scores_to_proba : Py.ndarray → result Py.ndarray).

Definition _preprocess_for_inference (image : PIL.Image W)
    (config : PreprocessConfig) : result Py.ndarray :=
  array ← Data.preprocess_image W image (image_size config);
  let array :=
    if negb (normalize config)
    then {| Py.shape := Py.shape array;
            Py.data := (λ v, Py.round_f32 (v * 255)) <$> Py.data array |}
    else array in
  if String.eqb (dtype config) "float32" then Ok array
  else astype array (dtype config).

(** The fallback of [_predict_proba]: a one-hot row per hard prediction. *)
Definition one_hot (classes : list Z) (preds : list Z) : result Py.ndarray :=
  let n := length classes in
  data ← foldl (λ (r : result (list Q)) '(idx, pred),
                  row ← r;
                  match list_find (λ c, c = pred) classes with
                  | None => Raise (ValueError "is not in list")
                  | Some (class_index, _) =>
                      if (idx <? 1)%nat
                      then Ok (<[class_index := 1%Q]> row)
                      else Raise IndexError
                  end)
               (Ok (replicate n 0%Q)) (imap (λ idx pred, (idx, pred)) preds);
  Ok {| Py.shape := [1; n]; Py.data := data |}.

Definition _predict_proba (classifier : Classifier) (features : list Q)
    : result Py.ndarray :=
  let features := {| Py.shape := [1; length features]; Py.data := features |} in
  proba ← match predict_proba classifier, decision_function classifier with
          | Some predict_proba, _ => predict_proba features
          | None, Some decision_function =>
              scores ← decision_function features;
              _scores_to_proba scores
          | None, None =>
              match predict classifier with
              | None => Raise AttributeError
              | Some predict =>
                  preds ← predict features;
                  let classes :=
                    default (Py.np_unique preds) (classes_ classifier) in
                  one_hot classes preds
              end
          end;
  Ok (as_float32 proba).

Definition _resolve_class_labels (bundle : ModelBundle)
    (classifier : Classifier) (n_classes : nat) : list string :=
  let class_indices :=
    default (Z.of_nat <$> seq 0 n_classes) (classes_ classifier) in
  let labels :=
    (λ cls, default (pretty cls) (index_to_class bundle !! cls))
      <$> class_indices in
  if negb (length labels =? n_classes)%nat
  then (λ idx, pretty idx) <$> seq 0 n_classes
  else labels.

(** Run inference on a PIL image and return the predicted
    label/probability. *)
Definition predict_image (bundle : ModelBundle) (image : PIL.Image W)
    : result PredictionResult :=
  array ← _preprocess_for_inference image (preprocess_config bundle);
  features ← featurize_image N array (feature_config bundle);
  proba ← _predict_proba (classifier bundle) features;
  let proba :=
    if (Py.ndim proba =? 1)%nat
    then {| Py.shape := [1; length (Py.data proba)]; Py.data := Py.data proba |}
    else proba in
  scores ← first_row proba;
  let labels := _resolve_class_labels bundle (classifier bundle) (length scores) in
  let probabilities :=
    foldl (λ d '(label, score), Py.dict_set d label score) []
          (zip labels scores) in
  best_idx ← Py.np_argmax scores;
  label ← from_option Ok (Raise IndexError) (labels !! best_idx);
  probability ← from_option Ok (Raise IndexError) (scores !! best_idx);
  Ok {| label := label; probability := probability;
        probabilities := probabilities |}.

(** Run inference on raw image bytes. *)
Definition predict_bytes (bundle : ModelBundle) (payload : list Byte.byte)
    : result PredictionResult :=
  match payload with
  | [] => Raise (ValueError "Empty image payload.")
  | _ => image ← PIL.open_bytes W payload; predict_image bundle image
  end.

(** Run inference on an image path. *)
Definition predict_path (bundle : ModelBundle) (path : PathLib.Path)
    : result PredictionResult :=
  image ← PIL.open W path;
  predict_image bundle image.
End Predictor.

End Predict.

(** ** Concrete worlds

    Instances of the abstract parts (generator, imaging library, disk) on
    which the definitions above can be run. *)

Module Examples.
Import PathLib.

(** A linear congruential generator seeded by the length of the string. *)
Definition lcg : Py.Rng :=
  {| Py.rng_state := nat;
     Py.rng_seed := String.length;
     Py.randbelow := λ g n, ((g * 7 + 3) mod n, g * 5 + 1) |}.

(** Single-colour images: exact for the operations used, since converting
    and bilinear resizing keep a uniform colour.  A file or payload whose
    text starts with [IMG] followed by three colour bytes is an image. *)
Record uniform : Type := {
  u_size : nat * nat;
  u_rgb : Q * Q * Q;
  u_sound : bool;
}.

Definition bytes_image (payload : list Byte.byte) : option uniform :=
  match payload with
  | Byte.x49 :: Byte.x4d :: Byte.x47 :: r :: g :: b :: rest =>
      let chan c := inject_Z (Z.of_N (Byte.to_N c)) in
      Some {| u_size := (128, 128); u_rgb := (chan r, chan g, chan b);
              u_sound := bool_decide (rest = []) |}
  | _ => None
  end.

Section Disk.
Context (disk : fs).

Definition uniform_world : PIL.World :=
  {| PIL.Image := uniform;
     PIL.identify_file := λ path,
       match stat disk path with
       | Some (File text) => bytes_image (String.list_byte_of_string text)
       | _ => None
       end;
     PIL.identify_bytes := bytes_image;
     PIL.mode := λ _, "RGB";
     PIL.convert := λ image _, if u_sound image then Some image else None;
     PIL.resize := λ image size,
       if u_sound image
       then Some {| u_size := size; u_rgb := u_rgb image; u_sound := true |}
       else None;
     PIL.asarray := λ image,
       let '(w, h) := u_size image in
       let '(r, g, b) := u_rgb image in
       {| Py.shape := [h; w; 3];
          Py.data := mjoin (replicate (h * w) [r; g; b]) |} |}.
End Disk.

(** A repository with two cats and two dogs. *)
Definition small_repo : fs :=
  [("/repo", Dir); ("/repo/data", Dir); ("/repo/data/raw", Dir);
   ("/repo/data/raw/cats", Dir); ("/repo/data/raw/dogs", Dir);
   ("/repo/data/raw/cats/a.jpg", File "IMGabc");
   ("/repo/data/raw/cats/b.jpg", File "IMGxyz");
   ("/repo/data/raw/dogs/c.jpg", File "IMGdef");
   ("/repo/data/raw/dogs/d.jpg", File "not an image");
   ("/repo/data/raw/stray.png", File "IMGsss");
   ("/repo/data/raw/notes.txt", File "hello")].

Definition four_cats_two_dogs : gmap string (list Path) :=
  <["cat" := ["/r/cats/1.jpg"; "/r/cats/2.jpg"; "/r/cats/3.jpg";
              "/r/cats/4.jpg"]]>
    (<["dog" := ["/r/dogs/1.jpg"; "/r/dogs/2.jpg"]]> ∅).

Definition two_dogs_four_cats_reordered : gmap string (list Path) :=
  <["dog" := ["/r/dogs/2.jpg"; "/r/dogs/1.jpg"]]>
    (<["cat" := ["/r/cats/3.jpg"; "/r/cats/1.jpg"; "/r/cats/4.jpg";
                 "/r/cats/2.jpg"]]> ∅).

Definition two_cats : gmap string (list Path) :=
  {["cat" := ["/r/cats/1.jpg"; "/r/cats/2.jpg"]]}.

Definition halves : Py.dict float :=
  [("train", 0.5%float); ("val", 0.25%float); ("test", 0.25%float)].

(** Ratios that sum to [1.0] although one is negative. *)
Definition oversubscribed : Py.dict float :=
  [("train", 1%float); ("val", 1%float); ("test", (-1)%float)].

Definition negative_train : Py.dict float :=
  [("train", (-0.25)%float); ("val", 0.25%float); ("test", 1%float)].

(** [DummyClassifier(probs, classes)] of [tests/test_predict.py]: the
    probabilities are stored as float32. *)
Definition DummyClassifier (probs : list float) (classes : list Z)
    : Model.Classifier :=
  let _probs := (λ p, Py.round_f32 (Py.Q_of_float p)) <$> probs in
  {| Model.predict_proba := Some (λ X,
       let rows := hd 0 (Py.shape X) in
       Ok {| Py.shape := [rows; length _probs];
             Py.data := mjoin (replicate rows _probs) |});
     Model.decision_function := None;
     Model.predict := None;
     Model.classes_ := Some classes |}.

Definition test_bundle : Model.ModelBundle :=
  {| Model.classifier := DummyClassifier [0.2%float; 0.8%float] [0%Z; 1%Z];
     Model.class_to_index := [("cat", 0%Z); ("dog", 1%Z)];
     Model.index_to_class := <[0%Z := "cat"]> (<[1%Z := "dog"]> ∅);
     Model.feature_config := {| Model.bins := 8 |};
     Model.preprocess_config :=
       {| Model.image_size := (224, 224); Model.normalize := true;
          Model.dtype := "float32" |};
     Model.created_at := "2024-01-01T00:00:00Z";
     Model.mlflow_run_id := None;
     Model.schema_version := 1 |}.

(** The binning with exact edges: bin [floor(v * bins)], the last bin
    closed on the right.  numpy agrees with it away from the edges. *)
Definition exact_bin (bins : nat) (v : Q) : nat :=
  Nat.min (Z.to_nat (Qfloor (v * inject_Z (Z.of_nat bins)))) (bins - 1).

Lemma exact_bin_lt (bins : nat) (v : Q) :
  0 < bins → Qle_bool 0 v && Qle_bool v 1 = true → exact_bin bins v < bins.
Proof. intros Hb _. unfold exact_bin. lia. Qed.

Definition exact_edges : Py.Binning :=
  {| Py.bin_index := exact_bin; Py.bin_index_lt := exact_bin_lt |}.

(** A 1 by 1 image whose three values lie outside [[0, 1]], as an image
    preprocessed with [normalize = False] has them. *)
Definition overexposed_pixel : Py.ndarray :=
  {| Py.shape := [1; 1; 3]; Py.data := [2; 2; 2]%Q |}.

(** [Image.new("RGB", (128, 128), color=(255, 0, 0))] *)
Definition red_image : uniform :=
  {| u_size := (128, 128); u_rgb := (255, 0, 0)%Q; u_sound := true |}.

End Examples.

(** * Properties *)

(** ** The runtime *)

Module PyFacts.
Import Py.

(** *** The order on strings *)

Lemma ascii_compare_cases (x y : ascii) :
  (Ascii.compare x y = Eq ∧ x = y)
  ∨ (Ascii.compare x y = Lt ∧ (N_of_ascii x < N_of_ascii y)%N)
  ∨ (Ascii.compare x y = Gt ∧ (N_of_ascii y < N_of_ascii x)%N).
Proof.
  unfold Ascii.compare.
  destruct (N.compare_spec (N_of_ascii x) (N_of_ascii y)) as [E|L|G]; auto.
  left. split; [done|].
  rewrite <-(ascii_N_embedding x), <-(ascii_N_embedding y). by rewrite E.
Qed.

Lemma string_leb_trans (a b c : string) :
  String.leb a b = true → String.leb b c = true → String.leb a c = true.
Proof.
  unfold String.leb.
  revert b c. induction a as [|x a IH]; intros [|y b] [|z c];
    cbn [String.compare]; try done.
  specialize (IH b c).
  destruct (ascii_compare_cases x y) as [[E1 ?]|[[E1 ?]|[E1 ?]]];
    destruct (ascii_compare_cases y z) as [[E2 ?]|[[E2 ?]|[E2 ?]]];
    destruct (ascii_compare_cases x z) as [[E3 ?]|[[E3 ?]|[E3 ?]]];
    rewrite E1, E2, E3; subst; try done; try lia.
Qed.

#[local] Instance string_leb_total : Total (λ a b, String.leb a b = true).
Proof. intros a b. apply String.leb_total. Qed.

(** *** [sorted] *)

Section SortedFacts.
Context {A : Type} (key : A → string).

Definition key_le (a b : A) : Prop := String.leb (key a) (key b) = true.

Lemma insort_Permutation (x : A) (l : list A) : insort key x l ≡ₚ x :: l.
Proof.
  induction l as [|y l IH]; simpl; [done|].
  destruct (String.leb _ _); [done|].
  rewrite IH. apply Permutation_swap.
Qed.

Lemma sorted_Permutation (l : list A) : sorted key l ≡ₚ l.
Proof.
  induction l as [|x l IH]; simpl; [done|].
  fold (sorted key l). by rewrite insort_Permutation, IH.
Qed.

Lemma length_sorted (l : list A) : length (sorted key l) = length l.
Proof. by rewrite sorted_Permutation. Qed.

Lemma insort_StronglySorted (x : A) (l : list A) :
  StronglySorted key_le l → StronglySorted key_le (insort key x l).
Proof.
  induction 1 as [|y l Hl IH Hy]; simpl.
  { repeat constructor. }
  destruct (String.leb (key x) (key y)) eqn:E.
  - constructor; [by constructor|]. constructor; [done|].
    eapply Forall_impl; [exact Hy|]. intros z Hz.
    eapply string_leb_trans; [exact E|exact Hz].
  - constructor; [done|].
    rewrite insort_Permutation. constructor; [|done].
    unfold key_le. destruct (String.leb_total (key x) (key y)); congruence.
Qed.

Lemma sorted_StronglySorted (l : list A) : StronglySorted key_le (sorted key l).
Proof.
  induction l as [|x l IH]; simpl; [constructor|].
  by apply insort_StronglySorted.
Qed.

(** With distinct elements having distinct keys, the sorted list does not
    depend on the order of the input. *)
Lemma sorted_Permutation_eq `{!Inj (=) (=) key} (l l' : list A) :
  l ≡ₚ l' → sorted key l = sorted key l'.
Proof.
  intros Hl. apply (StronglySorted_unique_strong key_le).
  - intros a b _ _ Hab Hba. apply (inj key).
    by apply String.leb_antisym.
  - apply sorted_StronglySorted.
  - apply sorted_StronglySorted.
  - by rewrite !sorted_Permutation.
Qed.
End SortedFacts.

(** *** [shuffle] *)

Lemma swap_Permutation {A} (i j : nat) (l : list A) : swap i j l ≡ₚ l.
Proof.
  unfold swap.
  destruct (l !! i) as [a|] eqn:Hi; [|done].
  destruct (l !! j) as [b|] eqn:Hj; [|done].
  destruct (decide (i = j)) as [->|Hne].
  { simplify_eq. rewrite list_insert_insert_eq.
    by rewrite list_insert_id. }
  apply Permutation_inj. split.
  { by rewrite !length_insert. }
  exists (λ k, if decide (k = i) then j else if decide (k = j) then i else k).
  split.
  - intros k1 k2. repeat case_decide; congruence.
  - intros k. repeat case_decide; subst.
    + rewrite list_lookup_insert_ne by done.
      rewrite list_lookup_insert_eq; [done|]. by eapply lookup_lt_Some.
    + rewrite list_lookup_insert_eq; [done|].
      rewrite length_insert. by eapply lookup_lt_Some.
    + by rewrite !list_lookup_insert_ne by done.
Qed.

Lemma shuffle_from_Permutation (R : Rng) {A} (i : nat) g (x : list A) :
  shuffle_from R i g x ≡ₚ x.
Proof.
  revert g x. induction i as [|i IH]; intros g x; simpl; [done|].
  destruct (randbelow R g (S (S i))) as [j g'].
  by rewrite IH, swap_Permutation.
Qed.

Lemma shuffle_Permutation (R : Rng) {A} g (x : list A) : shuffle R g x ≡ₚ x.
Proof. apply shuffle_from_Permutation. Qed.

(** *** Slices *)

Lemma slice_sublist {A} (l : list A) start stop : slice l start stop `sublist_of` l.
Proof.
  unfold slice. etrans; [apply sublist_take|apply sublist_drop].
Qed.

Lemma slice_elem_of {A} (l : list A) start stop x :
  x ∈ slice l start stop → x ∈ l.
Proof. intros Hx. eapply elem_of_sublist; [done|apply slice_sublist]. Qed.

(** With non-negative bounds the three slices of the splitter cut the list
    into consecutive pieces. *)
Lemma slice_three {A} (l : list A) (a b : Z) :
  (0 ≤ a)%Z → (0 ≤ b)%Z →
  slice l None (Some a) ++ slice l (Some a) (Some (a + b)%Z)
    ++ slice l (Some (a + b)%Z) None = l.
Proof.
  intros Ha Hb. unfold slice, clamp. simpl.
  rewrite !(proj2 (Z.ltb_ge _ 0)) by lia.
  rewrite Nat.sub_0_r, drop_0.
  set (n := length l). set (i := Z.to_nat a `min` n).
  set (j := Z.to_nat (a + b) `min` n).
  assert (i ≤ j ∧ j ≤ n) as [Hij Hjn] by (unfold i, j; lia).
  rewrite (take_ge (drop j l)) by (rewrite length_drop; lia).
  rewrite <-(take_drop i l) at 4. f_equal.
  rewrite <-(take_drop (j - i) (drop i l)) at 2. f_equal.
  rewrite drop_drop. f_equal. lia.
Qed.

Lemma length_slice_prefix {A} (l : list A) (a : Z) :
  (0 ≤ a ≤ Z.of_nat (length l))%Z →
  length (slice l None (Some a)) = Z.to_nat a.
Proof.
  intros Ha. unfold slice, clamp. simpl.
  rewrite (proj2 (Z.ltb_ge _ 0)) by lia.
  rewrite Nat.sub_0_r, drop_0, length_take. lia.
Qed.

Lemma length_slice_middle {A} (l : list A) (a b : Z) :
  (0 ≤ a)%Z → (0 ≤ b)%Z → (a + b ≤ Z.of_nat (length l))%Z →
  length (slice l (Some a) (Some (a + b)%Z)) = Z.to_nat b.
Proof.
  intros Ha Hb Hab. unfold slice, clamp. simpl.
  rewrite !(proj2 (Z.ltb_ge _ 0)) by lia.
  rewrite length_take, length_drop. lia.
Qed.

Lemma length_slice_suffix {A} (l : list A) (a : Z) :
  (0 ≤ a ≤ Z.of_nat (length l))%Z →
  length (slice l (Some a) None) = length l - Z.to_nat a.
Proof.
  intros Ha. unfold slice, clamp. simpl.
  rewrite (proj2 (Z.ltb_ge _ 0)) by lia.
  rewrite length_take, length_drop. lia.
Qed.

End PyFacts.

(** ** The dataset splitter *)

Module SplitFacts.
Import PathLib Data PyFacts.

(** Every collected (path, label) pair of the input mapping. *)
Definition labelled (paths_by_label : gmap string (list Path))
    : list (Path * string) :=
  map_to_list paths_by_label ≫= λ '(label, paths), tagged label paths.

(** How often a split holds a file of the class [label]. *)
Definition count_label (label : string) (items : list (Path * string)) : nat :=
  length (filter (λ item, item.2 = label) items).

Lemma bind_app_pointwise {A B} (f g : A → list B) (l : list A) :
  (l ≫= f) ++ (l ≫= g) ≡ₚ l ≫= λ x, f x ++ g x.
Proof.
  induction l as [|x l IH]; [done|].
  rewrite !bind_cons, <-IH.
  rewrite <-!(assoc_L (++)). f_equiv.
  rewrite !(assoc_L (++)). f_equiv. apply Permutation_app_comm.
Qed.

Lemma bind_Permutation_pointwise {A B} (f g : A → list B) (l : list A) :
  (∀ x, x ∈ l → f x ≡ₚ g x) → l ≫= f ≡ₚ l ≫= g.
Proof.
  induction l as [|x l IH]; intros H; [done|].
  rewrite !bind_cons. f_equiv.
  - apply H. by left.
  - apply IH. intros y Hy. apply H. by right.
Qed.

Lemma tagged_app label (l k : list Path) :
  tagged label (l ++ k) = tagged label l ++ tagged label k.
Proof. apply fmap_app. Qed.

Lemma count_label_tagged label label' (l : list Path) :
  count_label label (tagged label' l)
  = if decide (label' = label) then length l else 0.
Proof.
  unfold count_label, tagged.
  induction l as [|x l IH].
  { by case_decide. }
  rewrite fmap_cons, filter_cons. simpl.
  repeat case_decide; simpl; rewrite ?IH; congruence.
Qed.

Lemma count_label_app label (l k : list (Path * string)) :
  count_label label (l ++ k) = count_label label l + count_label label k.
Proof. unfold count_label. by rewrite filter_app, length_app. Qed.

Lemma count_label_Permutation label (l k : list (Path * string)) :
  l ≡ₚ k → count_label label l = count_label label k.
Proof. unfold count_label. by intros ->. Qed.

Lemma count_label_bind label (f : string → list Path) (ls : list string) :
  NoDup ls →
  count_label label (ls ≫= λ l, tagged l (f l))
  = if decide (label ∈ ls) then length (f label) else 0.
Proof.
  induction 1 as [|x ls Hx Hls IH].
  { case_decide as H; [by apply elem_of_nil in H|done]. }
  rewrite bind_cons, count_label_app, IH, count_label_tagged.
  destruct (decide (x = label)) as [->|Hne], (decide (label ∈ ls)) as [Hl|Hl];
    case_decide as Hc; try lia; try done; exfalso.
  - apply Hc. by left.
  - apply Hc. by right.
  - apply elem_of_cons in Hc as [?|?]; done.
Qed.

Lemma by_path_Permutation (l : list (Path * string)) : by_path l ≡ₚ l.
Proof. apply sorted_Permutation. Qed.

Section WithGenerator.
Context (R : Py.Rng).

Lemma class_order_Permutation seed label (paths : list Path) :
  class_order R seed label paths ≡ₚ paths.
Proof.
  unfold class_order. by rewrite shuffle_Permutation, sorted_Permutation.
Qed.

(** The order of a class does not depend on the order the files were
    listed in. *)
Lemma class_order_enumeration seed label (paths paths' : list Path) :
  paths ≡ₚ paths' → class_order R seed label paths = class_order R seed label paths'.
Proof.
  intros H. unfold class_order. f_equal.
  apply (sorted_Permutation_eq as_posix). exact H.
Qed.

(** The three slices of one class. *)
Definition class_slices (seed : Z) (ratios : Py.dict float) (label : string)
    (paths0 : list Path) : result (list Path * list Path * list Path) :=
  let paths := class_order R seed label paths0 in
  '(train_count, val_count, _) ← split_counts ratios (length paths);
  Ok (Py.slice paths None (Some train_count),
      Py.slice paths (Some train_count) (Some (train_count + val_count)%Z),
      Py.slice paths (Some (train_count + val_count)%Z) None).

Lemma split_class_slices seed ratios label paths0 acc :
  split_class R seed ratios label paths0 acc
  = match class_slices seed ratios label paths0 with
    | Ok (a, b, c) =>
        Ok {| train := train acc ++ tagged label a;
              val := val acc ++ tagged label b;
              test := test acc ++ tagged label c |}
    | Raise e => Raise e
    end.
Proof.
  unfold split_class, class_slices.
  destruct (split_counts _ _) as [[[tc vc] te]|e]; reflexivity.
Qed.

(** The loop over the labels, from accumulated splits [acc]. *)
Definition split_loop (paths_by_label : gmap string (list Path)) (seed : Z)
    (ratios : Py.dict float) (r : result splits) (labels : list string)
    : result splits :=
  foldl (λ (r : result splits) label,
           acc ← r;
           split_class R seed ratios label
             (default [] (paths_by_label !! label)) acc) r labels.

Lemma split_loop_Raise pbl seed ratios e labels :
  split_loop pbl seed ratios (Raise e) labels = Raise e.
Proof. induction labels as [|l labels IH]; [done|]. exact IH. Qed.

Definition train_of (r : result (list Path * list Path * list Path)) : list Path :=
  match r with Ok (a, _, _) => a | Raise _ => [] end.
Definition val_of (r : result (list Path * list Path * list Path)) : list Path :=
  match r with Ok (_, b, _) => b | Raise _ => [] end.
Definition test_of (r : result (list Path * list Path * list Path)) : list Path :=
  match r with Ok (_, _, c) => c | Raise _ => [] end.

Lemma split_loop_Ok pbl seed ratios acc labels s :
  split_loop pbl seed ratios (Ok acc) labels = Ok s →
  let sl label := class_slices seed ratios label (default [] (pbl !! label)) in
  Forall (λ label, is_ok (sl label) = true) labels
  ∧ train s = train acc ++ (labels ≫= λ label, tagged label (train_of (sl label)))
  ∧ val s = val acc ++ (labels ≫= λ label, tagged label (val_of (sl label)))
  ∧ test s = test acc ++ (labels ≫= λ label, tagged label (test_of (sl label))).
Proof.
  intros H sl. revert acc H.
  induction labels as [|label labels IH]; intros acc H.
  { simpl in H. injection H as <-. simpl. rewrite !app_nil_r.
    split_and!; [constructor|done..]. }
  unfold split_loop in H. simpl in H. rewrite split_class_slices in H.
  fold (sl label) in H.
  destruct (sl label) as [[[a b] c]|e] eqn:E.
  - apply IH in H as (HF & Ht & Hv & Hte).
    rewrite !bind_cons, E. rewrite Ht, Hv, Hte. simpl.
    rewrite <-!(assoc_L (++)). split_and!; try done.
    constructor; [by rewrite E|done].
  - fold (split_loop pbl seed ratios (Raise e) labels) in H.
    by rewrite split_loop_Raise in H.
Qed.

Lemma stratified_split_Ok pbl seed ratios s :
  _stratified_split R pbl seed ratios = Ok s →
  let sl label := class_slices seed ratios label (default [] (pbl !! label)) in
  let labels := sorted_labels pbl in
  Forall (λ label, is_ok (sl label) = true) labels
  ∧ train s ≡ₚ labels ≫= (λ label, tagged label (train_of (sl label)))
  ∧ val s ≡ₚ labels ≫= (λ label, tagged label (val_of (sl label)))
  ∧ test s ≡ₚ labels ≫= (λ label, tagged label (test_of (sl label))).
Proof.
  intros H sl labels. unfold _stratified_split in H.
  fold (split_loop pbl seed ratios (Ok no_splits) (sorted_labels pbl)) in H.
  destruct (split_loop _ _ _ _ _) as [s0|e] eqn:E; [|done].
  simpl in H. injection H as <-. simpl.
  apply split_loop_Ok in E as (HF & Ht & Hv & Hte). simpl in Ht, Hv, Hte.
  rewrite !by_path_Permutation, Ht, Hv, Hte. done.
Qed.

Lemma sorted_labels_Permutation (pbl : gmap string (list Path)) :
  sorted_labels pbl ≡ₚ (map_to_list pbl).*1.
Proof. apply sorted_Permutation. Qed.

Lemma NoDup_sorted_labels (pbl : gmap string (list Path)) :
  NoDup (sorted_labels pbl).
Proof. rewrite sorted_labels_Permutation. apply NoDup_fst_map_to_list. Qed.

Lemma elem_of_sorted_labels (pbl : gmap string (list Path)) label :
  label ∈ sorted_labels pbl ↔ is_Some (pbl !! label).
Proof.
  rewrite sorted_labels_Permutation, list_elem_of_fmap. split.
  - intros [[l paths] [-> H]]. apply elem_of_map_to_list in H. by eexists.
  - intros [paths H]. exists (label, paths). split; [done|].
    by apply elem_of_map_to_list.
Qed.
End WithGenerator.

Lemma length_slice {A} (l : list A) start stop :
  length (Py.slice l start stop)
  = let n := length l in
    let a := from_option (Py.clamp n) 0 start in
    let b := from_option (Py.clamp n) n stop in
    (b - a) `min` (n - a).
Proof. unfold Py.slice. by rewrite length_take, length_drop. Qed.

Lemma foldl_pointwise {A B} (f g : A → B → A) (a : A) (l : list B) :
  (∀ a b, f a b = g a b) → foldl f a l = foldl g a l.
Proof.
  intros H. revert a. induction l as [|b l IH]; intros a; simpl; [done|].
  by rewrite H, IH.
Qed.

Lemma split_counts_Ok ratios total r_train r_val tc vc :
  Py.dict_get ratios "train" = Ok r_train →
  Py.dict_get ratios "val" = Ok r_val →
  Py.int_of_float (Py.float_of_nat total * r_train)%float = Ok tc →
  Py.int_of_float (Py.float_of_nat total * r_val)%float = Ok vc →
  split_counts ratios total = Ok (tc, vc, (Z.of_nat total - tc - vc)%Z).
Proof.
  intros Ht Hv Htc Hvc. unfold split_counts.
  rewrite Ht. simpl. rewrite Htc. simpl. rewrite Hv. simpl. by rewrite Hvc.
Qed.

Lemma list_bind_nil {A B} (f : A → list B) : [] ≫= f = [].
Proof. done. Qed.

Lemma length_class_order R seed label (paths : list Path) :
  length (class_order R seed label paths) = length paths.
Proof. by rewrite class_order_Permutation. Qed.

Lemma class_slices_Ok R seed ratios label paths tc vc te :
  split_counts ratios (length paths) = Ok (tc, vc, te) →
  let order := class_order R seed label paths in
  class_slices R seed ratios label paths
  = Ok (Py.slice order None (Some tc),
        Py.slice order (Some tc) (Some (tc + vc)%Z),
        Py.slice order (Some (tc + vc)%Z) None).
Proof.
  intros H order. unfold class_slices. fold order.
  replace (length order) with (length paths)
    by (unfold order; by rewrite class_order_Permutation).
  by rewrite H.
Qed.

(** C1: the split is a function of the seed, the ratios and the set of
    files of each class.  Listing the files of a class in another order
    changes nothing: the split assignments are equal, and so is the text
    of every manifest written from them.  Each class is ordered by sorting
    its paths and shuffling the sorted list with the generator seeded from
    the text [seed:label]. *)
Theorem stratified_split_deterministic (R : Py.Rng) (seed : Z)
    (ratios : Py.dict float) (pbl pbl' : gmap string (list Path))
    (repo_root : Path) :
  (∀ label, option_Forall2 (≡ₚ) (pbl !! label) (pbl' !! label)) →
  _stratified_split R pbl seed ratios = _stratified_split R pbl' seed ratios
  ∧ (∀ s s',
       _stratified_split R pbl seed ratios = Ok s →
       _stratified_split R pbl' seed ratios = Ok s' →
       manifest_lines repo_root (train s) = manifest_lines repo_root (train s')
       ∧ manifest_lines repo_root (val s) = manifest_lines repo_root (val s')
       ∧ manifest_lines repo_root (test s) = manifest_lines repo_root (test s'))
  ∧ (∀ label paths,
       class_order R seed label paths
       = Py.shuffle R (Py.rng_seed R (pretty seed +:+ ":" +:+ label))
                    (Py.sorted as_posix paths)
       ∧ StronglySorted (λ p q, String.leb (as_posix p) (as_posix q) = true)
                        (Py.sorted as_posix paths)
       ∧ Py.sorted as_posix paths ≡ₚ paths).
Proof.
  intros H.
  assert (_stratified_split R pbl seed ratios
          = _stratified_split R pbl' seed ratios) as Heq.
  { unfold _stratified_split.
    assert (sorted_labels pbl = sorted_labels pbl') as ->.
    { apply (sorted_Permutation_eq id).
      apply NoDup_Permutation; [apply NoDup_fst_map_to_list..|].
      intros label. rewrite <-!sorted_labels_Permutation, !elem_of_sorted_labels.
      specialize (H label). destruct H; split; intros [? ?]; by eauto. }
    f_equal. apply foldl_pointwise. intros r label. destruct r as [acc|e]; [|done].
    simpl. rewrite !split_class_slices. unfold class_slices.
    assert (class_order R seed label (default [] (pbl !! label))
            = class_order R seed label (default [] (pbl' !! label))) as ->;
      [|done].
    apply class_order_enumeration.
    specialize (H label). by destruct H. }
  split_and!; [done| |].
  - intros s s' Hs Hs'. rewrite Heq, Hs' in Hs. injection Hs as ->.
    by split_and!.
  - intros label paths. split_and!; [done| |].
    + apply (sorted_StronglySorted as_posix).
    + apply sorted_Permutation.
Qed.

Lemma stratified_split_deterministic_witness :
  _stratified_split Examples.lcg Examples.four_cats_two_dogs 1337 Examples.halves
  = _stratified_split Examples.lcg Examples.two_dogs_four_cats_reordered 1337
      Examples.halves.
Proof.
  refine (proj1 (stratified_split_deterministic Examples.lcg 1337
                   Examples.halves Examples.four_cats_two_dogs
                   Examples.two_dogs_four_cats_reordered "/r" _)).
  intros label. unfold Examples.four_cats_two_dogs,
    Examples.two_dogs_four_cats_reordered.
  destruct (decide (label = "cat")) as [->|Hc].
  { rewrite lookup_insert_eq, lookup_insert_ne, lookup_insert_eq by done.
    constructor. apply (bool_decide_unpack _). by vm_compute. }
  destruct (decide (label = "dog")) as [->|Hd].
  { rewrite lookup_insert_ne, lookup_insert_eq, lookup_insert_eq by done.
    constructor. apply Permutation_swap. }
  rewrite !lookup_insert_ne, lookup_empty by done. constructor.
Defined.

(** C2 (as amended): when the train and val counts of a class are
    non-negative and together do not exceed the class's file count, the
    class has exactly [train_count = int(total * train_ratio)] files in
    train, [val_count = int(total * val_ratio)] in val and
    [total - train_count - val_count] in test, and the three numbers add up
    to the class's file count. *)
Theorem split_counts_per_class (R : Py.Rng) (pbl : gmap string (list Path))
    (seed : Z) (ratios : Py.dict float) (s : splits) (label : string)
    (paths : list Path) (r_train r_val : float) (train_count val_count : Z) :
  _stratified_split R pbl seed ratios = Ok s →
  pbl !! label = Some paths →
  Py.dict_get ratios "train" = Ok r_train →
  Py.dict_get ratios "val" = Ok r_val →
  Py.int_of_float (Py.float_of_nat (length paths) * r_train)%float
    = Ok train_count →
  Py.int_of_float (Py.float_of_nat (length paths) * r_val)%float
    = Ok val_count →
  (0 ≤ train_count)%Z → (0 ≤ val_count)%Z →
  (train_count + val_count ≤ Z.of_nat (length paths))%Z →
  Z.of_nat (count_label label (train s)) = train_count
  ∧ Z.of_nat (count_label label (val s)) = val_count
  ∧ Z.of_nat (count_label label (test s))
    = (Z.of_nat (length paths) - train_count - val_count)%Z
  ∧ count_label label (train s) + count_label label (val s)
    + count_label label (test s) = length paths.
Proof.
  intros Hs Hl Hrt Hrv Htc Hvc Ht0 Hv0 Hfit.
  apply stratified_split_Ok in Hs as (_ & Ht & Hv & Hte).
  pose proof (NoDup_sorted_labels pbl) as Hnd.
  assert (label ∈ sorted_labels pbl) as Hin
    by (apply elem_of_sorted_labels; by eexists).
  rewrite (count_label_Permutation _ _ _ Ht), (count_label_Permutation _ _ _ Hv),
    (count_label_Permutation _ _ _ Hte).
  rewrite !(count_label_bind label (λ l, _ (class_slices R seed ratios l
              (default [] (pbl !! l))))) by done.
  rewrite !decide_True by done. rewrite Hl. simpl.
  rewrite (class_slices_Ok R seed ratios label paths train_count val_count
             (Z.of_nat (length paths) - train_count - val_count)%Z)
    by (by apply split_counts_Ok with r_train r_val).
  simpl.
  assert (length (class_order R seed label paths) = length paths) as Hlen
    by (by rewrite class_order_Permutation).
  rewrite length_slice_prefix, length_slice_middle, length_slice_suffix
    by (rewrite ?Hlen; lia).
  rewrite Hlen. lia.
Qed.

Lemma split_counts_per_class_witness :
  ∃ s, _stratified_split Examples.lcg Examples.four_cats_two_dogs 1337
         Examples.halves = Ok s
       ∧ Z.of_nat (count_label "cat" (train s)) = 2%Z
       ∧ Z.of_nat (count_label "cat" (val s)) = 1%Z
       ∧ Z.of_nat (count_label "cat" (test s)) = 1%Z.
Proof.
  destruct (_stratified_split Examples.lcg Examples.four_cats_two_dogs 1337
              Examples.halves) as [s|e] eqn:E; [|by vm_compute in E].
  exists s. split; [done|].
  pose proof (split_counts_per_class Examples.lcg Examples.four_cats_two_dogs
                1337 Examples.halves s "cat"
                ["/r/cats/1.jpg"; "/r/cats/2.jpg"; "/r/cats/3.jpg";
                 "/r/cats/4.jpg"] 0.5%float 0.25%float 2 1 E) as H.
  destruct H as (H1 & H2 & H3 & _).
  - vm_compute; reflexivity.
  - vm_compute; reflexivity.
  - vm_compute; reflexivity.
  - vm_compute; reflexivity.
  - vm_compute; reflexivity.
  - lia.
  - lia.
  - simpl; lia.
  - exact (conj H1 (conj H2 H3)).
Defined.

(** C2 fails as stated: with ratios train 1.0, val 1.0, test -1.0 (they sum
    to 1.0) and a class of two files, [val_count] is 2 and [test_count] is
    -2, yet no generator makes the splitter put two files of the class in
    val: the train slice takes them all. *)
Lemma split_counts_oversubscribed :
  split_counts Examples.oversubscribed 2 = Ok (2, 2, -2)%Z
  ∧ ¬ ∃ (R : Py.Rng) (s : splits),
        _stratified_split R Examples.two_cats 1337 Examples.oversubscribed = Ok s
        ∧ Z.of_nat (count_label "cat" (val s)) = 2%Z.
Proof.
  split; [by vm_compute|].
  intros (R & s & Hs & Hc).
  apply stratified_split_Ok in Hs as (_ & _ & Hv & _).
  rewrite (count_label_Permutation _ _ _ Hv) in Hc.
  replace (sorted_labels Examples.two_cats) with ["cat"] in Hc by (by vm_compute).
  rewrite bind_singleton, count_label_tagged, decide_True in Hc by done.
  replace (Examples.two_cats !! "cat")
    with (Some ["/r/cats/1.jpg"; "/r/cats/2.jpg"]) in Hc by (by vm_compute).
  cbn [default from_option train_of val_of test_of] in Hc.
  rewrite (class_slices_Ok R 1337 _ "cat" _ 2 2 (-2)) in Hc by (by vm_compute).
  cbn [default from_option train_of val_of test_of] in Hc. rewrite length_slice in Hc. cbv zeta in Hc.
  rewrite length_class_order in Hc. by vm_compute in Hc.
Qed.

(** C9 (as amended): when the train and val counts computed for each class
    are non-negative, the three splits together hold exactly the collected
    (path, label) pairs, each as often as the input lists it and under its
    own label; if no pair is listed twice, the splits are pairwise disjoint
    and without repetition. *)
Theorem split_is_partition (R : Py.Rng) (pbl : gmap string (list Path))
    (seed : Z) (ratios : Py.dict float) (s : splits) :
  _stratified_split R pbl seed ratios = Ok s →
  (∀ label paths tc vc te,
     pbl !! label = Some paths →
     split_counts ratios (length paths) = Ok (tc, vc, te) →
     (0 ≤ tc)%Z ∧ (0 ≤ vc)%Z) →
  train s ++ val s ++ test s ≡ₚ labelled pbl
  ∧ (NoDup (labelled pbl) →
     NoDup (train s) ∧ NoDup (val s) ∧ NoDup (test s)
     ∧ (∀ item, item ∈ train s → (item ∉ val s) ∧ (item ∉ test s))
     ∧ (∀ item, item ∈ val s → (item ∉ test s))).
Proof.
  intros Hs Hpos.
  apply stratified_split_Ok in Hs as (HF & Ht & Hv & Hte).
  assert (train s ++ val s ++ test s ≡ₚ labelled pbl) as Hperm.
  { rewrite Ht, Hv, Hte.
    rewrite (bind_app_pointwise _ _ (sorted_labels pbl)).
    rewrite (bind_app_pointwise _ _ (sorted_labels pbl)).
    trans (sorted_labels pbl
             ≫= (λ label, tagged label (default [] (pbl !! label)))).
    { apply bind_Permutation_pointwise. intros label Hin.
      rewrite Forall_forall in HF. specialize (HF label Hin).
      apply elem_of_sorted_labels in Hin as [paths Hl]. rewrite Hl in *.
      simpl in *. unfold class_slices in *.
      assert (length (class_order R seed label paths) = length paths) as Hlen
        by (by rewrite class_order_Permutation).
      rewrite Hlen in *.
      destruct (split_counts ratios (length paths)) as [[[tc vc] te]|e] eqn:E;
        [|done].
      destruct (Hpos label paths tc vc te Hl E) as [Htc Hvc]. simpl.
      rewrite <-!tagged_app, slice_three by done.
      unfold tagged. by rewrite class_order_Permutation. }
    rewrite sorted_labels_Permutation, list_fmap_bind.
    unfold labelled. apply bind_Permutation_pointwise.
    intros [label paths] Hin. apply elem_of_map_to_list in Hin. simpl.
    by rewrite Hin. }
  split; [done|]. intros Hnd. rewrite <-Hperm in Hnd.
  apply NoDup_app in Hnd as (Hn1 & Hd1 & Hnd).
  apply NoDup_app in Hnd as (Hn2 & Hd2 & Hn3).
  split_and!; try done.
  intros item Hin. specialize (Hd1 item Hin).
  rewrite elem_of_app in Hd1. tauto.
Qed.

Lemma split_is_partition_witness :
  ∃ s, _stratified_split Examples.lcg Examples.four_cats_two_dogs 1337
         Examples.halves = Ok s
       ∧ train s ++ val s ++ test s ≡ₚ labelled Examples.four_cats_two_dogs.
Proof.
  destruct (_stratified_split Examples.lcg Examples.four_cats_two_dogs 1337
              Examples.halves) as [s|e] eqn:E; [|by vm_compute in E].
  exists s. split; [done|].
  refine (proj1 (split_is_partition Examples.lcg Examples.four_cats_two_dogs
                   1337 Examples.halves s E _)).
  assert (split_counts Examples.halves 4 = Ok (2, 1, 1)%Z) as H4
    by (vm_compute; reflexivity).
  assert (split_counts Examples.halves 2 = Ok (1, 0, 1)%Z) as H2
    by (vm_compute; reflexivity).
  intros label paths tc vc te Hl.
  unfold Examples.four_cats_two_dogs in Hl.
  destruct (decide (label = "cat")) as [->|Hc].
  { rewrite lookup_insert_eq in Hl. injection Hl as <-.
    simpl length. rewrite H4. intros [= <- <- <-]. lia. }
  destruct (decide (label = "dog")) as [->|Hd].
  { rewrite lookup_insert_ne, lookup_insert_eq in Hl by done.
    injection Hl as <-. simpl length. rewrite H2. intros [= <- <- <-]. lia. }
  by rewrite !lookup_insert_ne, lookup_empty in Hl.
Defined.

(** C9 fails as stated: with ratios train -0.25, val 0.25, test 1.0 (they
    sum to 1.0), whatever the generator, the splits of four cats and two
    dogs do not hold each file once: three cats are in train and all six
    files are in test. *)
Lemma split_overlaps_with_negative_ratio :
  ¬ ∃ (R : Py.Rng) (s : splits),
      _stratified_split R Examples.four_cats_two_dogs 1337
        Examples.negative_train = Ok s
      ∧ train s ++ val s ++ test s ≡ₚ labelled Examples.four_cats_two_dogs.
Proof.
  intros (R & s & Hs & Hperm).
  apply Permutation_length in Hperm.
  apply stratified_split_Ok in Hs as (_ & Ht & Hv & Hte).
  rewrite !length_app, Ht, Hv, Hte in Hperm. clear Ht Hv Hte.
  replace (sorted_labels Examples.four_cats_two_dogs) with ["cat"; "dog"]
    in Hperm by (by vm_compute).
  rewrite !bind_cons, !list_bind_nil, !app_nil_r, !length_app in Hperm.
  unfold tagged in Hperm. rewrite !length_fmap in Hperm.
  replace (Examples.four_cats_two_dogs !! "cat")
    with (Some ["/r/cats/1.jpg"; "/r/cats/2.jpg"; "/r/cats/3.jpg";
                "/r/cats/4.jpg"]) in Hperm by (by vm_compute).
  replace (Examples.four_cats_two_dogs !! "dog")
    with (Some ["/r/dogs/1.jpg"; "/r/dogs/2.jpg"]) in Hperm by (by vm_compute).
  cbn [default from_option train_of val_of test_of] in Hperm.
  rewrite (class_slices_Ok R 1337 _ "cat" _ (-1) 1 4) in Hperm by (by vm_compute).
  rewrite (class_slices_Ok R 1337 _ "dog" _ 0 0 2) in Hperm by (by vm_compute).
  cbn [default from_option train_of val_of test_of] in Hperm. rewrite !length_slice in Hperm. cbv zeta in Hperm.
  rewrite !length_class_order in Hperm. by vm_compute in Hperm.
Qed.

End SplitFacts.

(** ** Label inference and discovery *)

Module DiscoveryFacts.
Import PathLib Data PyFacts SplitFacts.

(** The label a single segment stands for, if any. *)
Definition segment_label (part : string) : option string :=
  let lower := Py.lower part in
  if Py.mem lower ["cat"; "cats"] then Some "cat"
  else if Py.mem lower ["dog"; "dogs"] then Some "dog"
  else None.

Lemma mem_elem_of (x : string) (words : list string) :
  Py.mem x words = true ↔ x ∈ words.
Proof.
  unfold Py.mem. rewrite existsb_exists. split.
  - intros (w & Hw & E). apply String.eqb_eq in E as ->.
    by apply list_elem_of_In.
  - intros H. exists x. split; [by apply list_elem_of_In|apply String.eqb_refl].
Qed.

Lemma segment_label_cat (part : string) :
  segment_label part = Some "cat" ↔ Py.lower part ∈ ["cat"; "cats"].
Proof.
  unfold segment_label. rewrite <-mem_elem_of.
  destruct (Py.mem (Py.lower part) ["cat"; "cats"]); [done|].
  destruct (Py.mem (Py.lower part) ["dog"; "dogs"]); split; done.
Qed.

Lemma mem_cat_not_dog (x : string) :
  Py.mem x ["cat"; "cats"] = true → Py.mem x ["dog"; "dogs"] = false.
Proof.
  unfold Py.mem. simpl.
  destruct (String.eqb_spec x "cat") as [->|_]; [done|].
  destruct (String.eqb_spec x "cats") as [->|_]; done.
Qed.

Lemma segment_label_dog (part : string) :
  segment_label part = Some "dog" ↔ Py.lower part ∈ ["dog"; "dogs"].
Proof.
  unfold segment_label. rewrite <-!mem_elem_of.
  destruct (Py.mem (Py.lower part) ["cat"; "cats"]) eqn:E.
  - rewrite (mem_cat_not_dog _ E). split; done.
  - destruct (Py.mem (Py.lower part) ["dog"; "dogs"]); split; done.
Qed.

Lemma segment_label_None (part : string) :
  segment_label part = None
  ↔ Py.lower part ∉ ["cat"; "cats"; "dog"; "dogs"].
Proof.
  unfold segment_label. rewrite <-mem_elem_of.
  change ["cat"; "cats"; "dog"; "dogs"] with (["cat"; "cats"] ++ ["dog"; "dogs"]).
  unfold Py.mem at 3. rewrite existsb_app. fold (Py.mem (Py.lower part) ["cat"; "cats"]).
  fold (Py.mem (Py.lower part) ["dog"; "dogs"]).
  destruct (Py.mem (Py.lower part) ["cat"; "cats"]);
    destruct (Py.mem (Py.lower part) ["dog"; "dogs"]); simpl; split; try done;
    intros H; by destruct H.
Qed.

Lemma scan_label_cons (part : string) (rest : list string) :
  scan_label (part :: rest)
  = match segment_label part with
    | Some label => Some label
    | None => scan_label rest
    end.
Proof.
  unfold segment_label. cbn [scan_label]. cbv zeta.
  destruct (Py.mem _ ["cat"; "cats"]); [done|].
  by destruct (Py.mem _ ["dog"; "dogs"]).
Qed.

Lemma scan_label_skip (skipped rest : list string) :
  Forall (λ part, segment_label part = None) skipped →
  scan_label (skipped ++ rest) = scan_label rest.
Proof.
  induction 1 as [|part skipped Hp _ IH]; [done|].
  rewrite <-app_comm_cons, scan_label_cons. by rewrite Hp.
Qed.

Lemma infer_label_last_match (before after : list string) (seg label : string) :
  segment_label seg = Some label →
  Forall (λ part, segment_label part = None) after →
  _infer_label_from_parts (before ++ seg :: after) = Some label.
Proof.
  intros Hseg Hafter. unfold _infer_label_from_parts.
  rewrite rev_app_distr. simpl. rewrite <-!app_assoc. simpl.
  rewrite scan_label_skip by (by apply Forall_rev).
  by rewrite scan_label_cons, Hseg.
Qed.

Lemma infer_label_None (parts : list string) :
  _infer_label_from_parts parts = None
  ↔ Forall (λ part, segment_label part = None) parts.
Proof.
  unfold _infer_label_from_parts.
  rewrite <-(rev_involutive parts) at 2. generalize (rev parts). intros l.
  split.
  - intros H. apply Forall_rev.
    induction l as [|part l IH]; [constructor|].
    rewrite scan_label_cons in H.
    destruct (segment_label part) eqn:E; [done|]. constructor; auto.
  - intros H. apply Forall_rev in H. rewrite rev_involutive in H.
    rewrite <-(app_nil_r l). by rewrite scan_label_skip.
Qed.

(** Every file [_collect_from_directory] files under a label has that
    label inferred from its own parts. *)
Definition well_labelled (pbl : gmap string (list Path)) : Prop :=
  ∀ label paths path,
    pbl !! label = Some paths → path ∈ paths →
    _infer_label_from_parts (parts path) = Some label.

Lemma well_labelled_empty : well_labelled empty_paths_by_label.
Proof.
  intros label paths path Hl Hin. unfold empty_paths_by_label in Hl.
  apply lookup_insert_Some in Hl as [[_ <-]|[_ Hl]].
  { by apply elem_of_nil in Hin. }
  apply lookup_insert_Some in Hl as [[_ <-]|[_ Hl]].
  { by apply elem_of_nil in Hin. }
  by rewrite lookup_empty in Hl.
Qed.

Lemma well_labelled_append (pbl : gmap string (list Path)) label path :
  well_labelled pbl →
  _infer_label_from_parts (parts path) = Some label →
  well_labelled (append_path label path pbl).
Proof.
  intros Hwl Hinf label' paths path' Hl Hin. unfold append_path in Hl.
  destruct (decide (label = label')) as [<-|Hne].
  - rewrite lookup_alter_eq in Hl.
    destruct (pbl !! label) as [old|] eqn:E; [|done].
    simpl in Hl. injection Hl as <-.
    apply elem_of_app in Hin as [Hin|Hin]; [by eapply Hwl|].
    apply list_elem_of_singleton in Hin. by subst.
  - rewrite lookup_alter_ne in Hl by done. by eapply Hwl.
Qed.

Lemma collect_from_directory_well_labelled (t : fs) (raw_dir root : Path)
    (pbl : gmap string (list Path)) :
  _collect_from_directory t raw_dir = Ok (pbl, root) → well_labelled pbl.
Proof.
  unfold _collect_from_directory.
  destruct (_find_dataset_root t raw_dir) as [r|e]; [|done]. simpl.
  match goal with |- context [foldl ?f ?a ?l] =>
    assert (well_labelled (foldl f a l)) as Hwl end.
  { generalize (rglob t r). intros l.
    generalize well_labelled_empty. generalize empty_paths_by_label.
    induction l as [|path l IH]; intros acc Hacc; [done|].
    simpl. apply IH.
    destruct (negb (is_file t path)); [done|].
    destruct (negb (_is_image_name (name path))); [done|].
    destruct (_infer_label_from_parts (parts path)) eqn:E; [|done].
    by apply well_labelled_append. }
  destruct (negb (any_paths _)); [done|]. by intros [= <- <-].
Qed.

(** Whatever the ratios, a split only holds files of the input mapping,
    under their label. *)
Lemma split_elem_of (R : Py.Rng) (pbl : gmap string (list Path)) (seed : Z)
    (ratios : Py.dict float) (s : splits) (path : Path) (label : string) :
  _stratified_split R pbl seed ratios = Ok s →
  (path, label) ∈ train s ++ val s ++ test s →
  ∃ paths, pbl !! label = Some paths ∧ path ∈ paths.
Proof.
  intros Hs Hin.
  apply stratified_split_Ok in Hs as (_ & Ht & Hv & Hte).
  rewrite Ht, Hv, Hte in Hin. clear Ht Hv Hte.
  assert (∀ (pick : result (list Path * list Path * list Path) → list Path),
            (∀ r, pick r = train_of r ∨ pick r = val_of r ∨ pick r = test_of r) →
            (path, label) ∈ (sorted_labels pbl ≫= λ l,
               tagged l (pick (class_slices R seed ratios l
                                 (default [] (pbl !! l))))) →
            ∃ paths, pbl !! label = Some paths ∧ path ∈ paths) as Hpick.
  { intros pick Hp Hin'.
    apply list_elem_of_bind in Hin' as (l & Hin' & Hl).
    apply elem_of_sorted_labels in Hl as [paths Hl].
    unfold tagged in Hin'. apply list_elem_of_fmap in Hin' as (p & [= <- <-] & Hin').
    exists paths. split; [done|].
    rewrite Hl in Hin'. simpl in Hin'. unfold class_slices in Hin'.
    destruct (split_counts _ _) as [[[tc vc] te]|e]; simpl in Hin';
      [|destruct (Hp (Raise e)) as [E|[E|E]]; rewrite E in Hin';
        by apply elem_of_nil in Hin'].
    rewrite <-(class_order_Permutation R seed label paths).
    match type of Hin' with _ ∈ pick (Ok (?a, ?b, ?c)) =>
      destruct (Hp (Ok (a, b, c))) as [E|[E|E]]; rewrite E in Hin' end;
      by eapply slice_elem_of. }
  rewrite !elem_of_app in Hin. destruct Hin as [Hin|[Hin|Hin]].
  - apply (Hpick train_of); auto.
  - apply (Hpick val_of); auto.
  - apply (Hpick test_of); auto.
Qed.

(** C4: the label of a path is that of its last segment whose lowercase
    form is [cat] or [cats] (label [cat]) or [dog] or [dogs] (label
    [dog]); without such a segment there is no label, the file is filed
    under no class by the directory scan, and it is in none of the
    splits. *)
Theorem label_inference_rule :
  (∀ (before after : list string) (seg label : string),
     segment_label seg = Some label →
     Forall (λ part, segment_label part = None) after →
     _infer_label_from_parts (before ++ seg :: after) = Some label)
  ∧ (∀ part,
       (segment_label part = Some "cat" ↔ Py.lower part ∈ ["cat"; "cats"])
       ∧ (segment_label part = Some "dog" ↔ Py.lower part ∈ ["dog"; "dogs"])
       ∧ (segment_label part = None
          ↔ Py.lower part ∉ ["cat"; "cats"; "dog"; "dogs"]))
  ∧ (∀ parts,
       _infer_label_from_parts parts = None
       ↔ Forall (λ part, segment_label part = None) parts)
  ∧ (∀ (t : fs) (raw_dir root path : Path) (pbl : gmap string (list Path)),
       _collect_from_directory t raw_dir = Ok (pbl, root) →
       _infer_label_from_parts (parts path) = None →
       (∀ label paths, pbl !! label = Some paths → path ∉ paths)
       ∧ (∀ (R : Py.Rng) seed ratios s label,
            _stratified_split R pbl seed ratios = Ok s →
            (path, label) ∉ train s ++ val s ++ test s)).
Proof.
  split_and!.
  - apply infer_label_last_match.
  - intros part. split_and!.
    + apply segment_label_cat.
    + apply segment_label_dog.
    + apply segment_label_None.
  - apply infer_label_None.
  - intros t raw_dir root path pbl Hc Hnone.
    apply collect_from_directory_well_labelled in Hc.
    assert (∀ label paths, pbl !! label = Some paths → path ∉ paths) as Hout.
    { intros label paths Hl Hin. specialize (Hc label paths path Hl Hin).
      congruence. }
    split; [done|].
    intros R seed ratios s label Hs Hin.
    destruct (split_elem_of R pbl seed ratios s path label Hs Hin)
      as (paths & Hl & Hin').
    by eapply Hout.
Qed.

Lemma label_inference_rule_witness :
  _infer_label_from_parts (parts "/repo/data/raw/stray.png") = None
  ∧ ∃ pbl root,
      _collect_from_directory Examples.small_repo "/repo/data/raw"
        = Ok (pbl, root)
      ∧ ∀ label paths,
          pbl !! label = Some paths → "/repo/data/raw/stray.png" ∉ paths.
Proof.
  assert (_infer_label_from_parts (parts "/repo/data/raw/stray.png") = None)
    as Hnone by (vm_compute; reflexivity).
  split; [exact Hnone|].
  destruct (_collect_from_directory Examples.small_repo "/repo/data/raw")
    as [[pbl root]|e] eqn:E; [|by vm_compute in E].
  exists pbl, root. split; [done|].
  destruct label_inference_rule as (_ & _ & _ & H).
  exact (proj1 (H _ _ _ _ _ E Hnone)).
Defined.

End DiscoveryFacts.

(** ** The manifest writer *)

Module WriterFacts.
Import PathLib Data PyFacts SplitFacts.

(** The error of the ratio check. *)
Definition ratio_error : exn := ValueError "Split ratios must sum to 1.0".

(** [ratios or DEFAULT_SPLIT_RATIOS] *)
Definition effective_ratios (ratios : option (Py.dict float)) : Py.dict float :=
  match ratios with
  | Some ((_ :: _) as given) => given
  | _ => DEFAULT_SPLIT_RATIOS
  end.

(** [abs(sum(ratios.values()) - 1.0) > 1e-6] *)
Definition out_of_tolerance (ratios : Py.dict float) : bool :=
  (1e-6 <? abs (Py.fsum (Py.dict_values ratios) - 1))%float.

(** The messages of the [FileNotFoundError]s of discovery: a missing raw
    directory, no class directories, no images, a missing archive, no
    images in the archive. *)
Definition discovery_sites : list string :=
  ["Raw data directory does not exist"; "Could not find class directories";
   "No images found under"; "Zip file not found";
   "No images found inside zip"].

(** What can be raised once the output directory exists. *)
Definition late (e : exn) : Prop :=
  e = ValueError "relative_to" ∨ (∃ k, e = KeyError k)
  ∨ e = IsADirectoryError ∨ e = FileNotFoundError "write_text".

(** What the split itself can raise. *)
Definition split_error (e : exn) : Prop :=
  e = OverflowError ∨ e = ValueError "cannot convert float NaN to integer"
  ∨ e = KeyError "train" ∨ e = KeyError "val".

Lemma int_of_float_Raise x e :
  Py.int_of_float x = Raise e →
  e = OverflowError ∨ e = ValueError "cannot convert float NaN to integer".
Proof.
  unfold Py.int_of_float. destruct (Prim2SF x); intros [= <-]; auto.
Qed.

Lemma dict_get_Raise {V} (d : Py.dict V) k e :
  Py.dict_get d k = Raise e → e = KeyError k.
Proof. unfold Py.dict_get. destruct (Py.dict_find d k); by intros [= <-]. Qed.

Lemma split_counts_Raise ratios total e :
  split_counts ratios total = Raise e → split_error e.
Proof.
  unfold split_counts, split_error.
  destruct (Py.dict_get ratios "train") as [rt|e1] eqn:E1; simpl.
  2: { intros [= <-]. apply dict_get_Raise in E1. auto. }
  destruct (Py.int_of_float (_ * rt)) as [tc|e2] eqn:E2; simpl.
  2: { intros [= <-]. apply int_of_float_Raise in E2. tauto. }
  destruct (Py.dict_get ratios "val") as [rv|e3] eqn:E3; simpl.
  2: { intros [= <-]. apply dict_get_Raise in E3. auto. }
  destruct (Py.int_of_float (_ * rv)) as [vc|e4] eqn:E4; simpl; [done|].
  intros [= <-]. apply int_of_float_Raise in E4. tauto.
Qed.

Lemma stratified_split_Raise R pbl seed ratios e :
  _stratified_split R pbl seed ratios = Raise e → split_error e.
Proof.
  unfold _stratified_split.
  fold (split_loop R pbl seed ratios (Ok no_splits) (sorted_labels pbl)).
  generalize (sorted_labels pbl) no_splits. intros labels.
  induction labels as [|label labels IH]; intros acc; [done|].
  unfold split_loop. simpl. rewrite split_class_slices. unfold class_slices.
  destruct (split_counts _ _) as [[[tc vc] te]|e1] eqn:E1; simpl.
  - apply IH.
  - fold (split_loop R pbl seed ratios (Raise e1) labels).
    rewrite split_loop_Raise. simpl. intros [= <-].
    by eapply split_counts_Raise.
Qed.

Lemma relative_to_Raise p base e :
  relative_to p base = Raise e → e = ValueError "relative_to".
Proof. unfold relative_to. destruct (strip_prefix _ _); by intros [= <-]. Qed.

Lemma mkdir_step_Raise leaf r q e :
  (∀ e', r = Raise e' → e' = FileExistsError ∨ e' = NotADirectoryError) →
  mkdir_step leaf r q = Raise e →
  e = FileExistsError ∨ e = NotADirectoryError.
Proof.
  intros Hr. unfold mkdir_step. destruct r as [t'|e0]; simpl.
  - destruct (stat t' q) as [[]|]; destruct leaf; intros [= <-]; auto.
  - intros [= <-]. by apply Hr.
Qed.

Lemma mkdir_p_Raise t p e :
  mkdir_p t p = Raise e → e = FileExistsError ∨ e = NotADirectoryError.
Proof.
  unfold mkdir_p. apply mkdir_step_Raise.
  generalize (removelast (lineage p)). intros l.
  assert (∀ r, (∀ e', r = Raise e' →
                      e' = FileExistsError ∨ e' = NotADirectoryError) →
               ∀ e', foldl (mkdir_step false) r l = Raise e' →
                     e' = FileExistsError ∨ e' = NotADirectoryError) as H.
  { induction l as [|q l IH]; intros r Hr e'; simpl; [by apply Hr|].
    apply IH. intros e''. by apply mkdir_step_Raise. }
  by apply H.
Qed.

Lemma find_dataset_root_Raise t raw_dir e :
  _find_dataset_root t raw_dir = Raise e →
  ∃ site, e = FileNotFoundError site ∧ site ∈ discovery_sites.
Proof.
  unfold _find_dataset_root, discovery_sites.
  destruct (negb (exists_ t raw_dir)).
  { intros [= <-]. eexists. split; [done|]. set_solver. }
  destruct (_has_class_dirs t raw_dir); [done|].
  destruct (List.find _ _); [done|].
  intros [= <-]. eexists. split; [done|]. set_solver.
Qed.

Lemma collect_from_directory_Raise t raw_dir e :
  _collect_from_directory t raw_dir = Raise e →
  ∃ site, e = FileNotFoundError site ∧ site ∈ discovery_sites.
Proof.
  unfold _collect_from_directory.
  destruct (_find_dataset_root t raw_dir) as [root|e1] eqn:E1; simpl.
  2: { intros [= <-]. by eapply find_dataset_root_Raise. }
  destruct (negb (any_paths _)); [|done].
  intros [= <-]. eexists. split; [done|]. unfold discovery_sites. set_solver.
Qed.

Lemma collect_from_zip_Raise t zip_path raw_dir e :
  _collect_from_zip t zip_path raw_dir = Raise e →
  e = IsADirectoryError ∨ e = BadZipFile
  ∨ ∃ site, e = FileNotFoundError site ∧ site ∈ discovery_sites.
Proof.
  unfold _collect_from_zip.
  destruct (stat t zip_path) as [[| |names]|].
  - intros [= <-]. auto.
  - intros [= <-]. auto.
  - destruct (foldl _ _ names) as [pbl roots].
    destruct (negb (any_paths pbl)); [|done].
    intros [= <-]. right. right. eexists. split; [done|].
    unfold discovery_sites. set_solver.
  - intros [= <-]. right. right. eexists. split; [done|].
    unfold discovery_sites. set_solver.
Qed.

(** What discovery can raise. *)
Definition discovery_error (e : exn) : Prop :=
  e = ValueError "relative_to" ∨ e = IsADirectoryError ∨ e = BadZipFile
  ∨ ∃ site, e = FileNotFoundError site ∧ site ∈ discovery_sites.

Lemma discover_Raise repo_root t raw_dir_abs zip_path e :
  discover repo_root t raw_dir_abs zip_path = Raise e → discovery_error e.
Proof.
  unfold discover, discovery_error.
  destruct (_collect_from_directory t raw_dir_abs) as [[pbl root]|e1] eqn:E1;
    simpl.
  - destruct (relative_to root repo_root) as [rel|e2] eqn:E2; simpl; [done|].
    apply relative_to_Raise in E2 as ->. intros [= <-]. auto.
  - apply collect_from_directory_Raise in E1 as (site & -> & Hsite).
    destruct zip_path as [zip|].
    2: { intros [= <-]. right. right. right. by eexists. }
    destruct (_collect_from_zip t _ raw_dir_abs) as [[pbl root]|e3] eqn:E3;
      simpl.
    + destruct (relative_to _ repo_root) as [rel|e4] eqn:E4; simpl; [done|].
      apply relative_to_Raise in E4 as ->. intros [= <-]. auto.
    + intros [= <-]. apply collect_from_zip_Raise in E3. tauto.
Qed.

Lemma manifest_lines_Raise repo_root items e :
  manifest_lines repo_root items = Raise e → late e.
Proof.
  unfold manifest_lines.
  generalize (@nil string, [("cat", 0); ("dog", 0)]).
  induction items as [|[path label] items IH]; intros acc; [done|].
  simpl. unfold manifest_line at 2. destruct acc as [lines counts].
  destruct (relative_to path repo_root) as [rel|e1] eqn:E1; simpl.
  2: { apply relative_to_Raise in E1 as ->.
       assert (∀ l, foldl (λ r item, acc ← r; manifest_line repo_root acc item)
                      (Raise (ValueError "relative_to")) l
                    = Raise (ValueError "relative_to")) as ->
         by (intros l; by induction l).
       intros [= <-]. left. done. }
  destruct (Py.dict_get counts label) as [n|e2] eqn:E2; simpl.
  - apply IH.
  - apply dict_get_Raise in E2 as ->.
    assert (∀ l, foldl (λ r item, acc ← r; manifest_line repo_root acc item)
                   (Raise (KeyError label)) l = Raise (KeyError label)) as ->
      by (intros l; by induction l).
    intros [= <-]. right. left. by eexists.
Qed.

Lemma write_text_Raise t p text e :
  write_text t p text = Raise e →
  e = IsADirectoryError ∨ e = FileNotFoundError "write_text".
Proof.
  unfold write_text. destruct (stat t p) as [[]|];
    try destruct (is_dir t (parent p)); intros [= <-]; auto.
Qed.

Section Writer.
Context (R : Py.Rng) (repo_root : Path) (json_dumps : metadata → string).

Lemma write_manifest_inv splits_dir_abs split_name items t r t' :
  write_manifest repo_root splits_dir_abs split_name items t = (r, t') →
  (∃ counts, r = Ok counts) ∨ (∃ e, r = Raise e ∧ late e).
Proof.
  unfold write_manifest, mbind, stx_bind, pure, effect.
  destruct (manifest_lines repo_root items) as [[lines counts]|e] eqn:E.
  - destruct (write_text t _ _) as [t1|e1] eqn:E1.
    + intros [= <- <-]. left. by eexists.
    + intros [= <- <-]. right. eexists. split; [done|].
      apply write_text_Raise in E1. unfold late. tauto.
  - intros [= <- <-]. right. eexists. split; [done|].
    by eapply manifest_lines_Raise.
Qed.
(** How a run of [write_split_manifests] ends: at the ratio check, in
    discovery, in the split or at [mkdir], each with the disk untouched;
    or after the output directory exists, with a result or a late error. *)
Lemma write_split_manifests_inv raw_dir splits_dir seed ratios zip_path t r t' :
  write_split_manifests R repo_root json_dumps raw_dir splits_dir seed ratios
    zip_path t = (r, t') →
  let given := effective_ratios ratios in
  let raw_dir_abs := _resolve_path raw_dir repo_root in
  let splits_dir_abs := _resolve_path splits_dir repo_root in
  (out_of_tolerance given = true ∧ r = Raise ratio_error ∧ t' = t)
  ∨ (out_of_tolerance given = false
     ∧ ((∃ e, r = Raise e ∧ t' = t
              ∧ (discovery_error e ∨ split_error e ∨ e = FileExistsError
                 ∨ e = NotADirectoryError))
        ∨ (∃ t1, mkdir_p t splits_dir_abs = Ok t1
                 ∧ ((∃ md, r = Ok md) ∨ (∃ e, r = Raise e ∧ late e))))).
Proof.
  intros H given raw_dir_abs splits_dir_abs.
  unfold write_split_manifests in H.
  fold (effective_ratios ratios) in H. fold given in H.
  fold (out_of_tolerance given) in H.
  destruct (out_of_tolerance given) eqn:Htol.
  { left. unfold pure in H. by injection H as <- <-. }
  right. split; [done|].
  fold raw_dir_abs splits_dir_abs in H.
  unfold mbind, stx_bind in H. unfold pure at 1 in H.
  destruct (discover repo_root t raw_dir_abs zip_path)
    as [[[pbl dataset_root] source]|e] eqn:Ed.
  2: { injection H as <- <-. left. exists e. split_and!; try done.
       left. by eapply discover_Raise. }
  unfold pure at 1 in H.
  destruct (_stratified_split R pbl seed given) as [s|e] eqn:Es.
  2: { injection H as <- <-. left. exists e. split_and!; try done.
       right. left. by eapply stratified_split_Raise. }
  unfold effect at 1 in H.
  destruct (mkdir_p t splits_dir_abs) as [t1|e] eqn:Em.
  2: { injection H as <- <-. left. exists e. split_and!; try done.
       right. right. by eapply mkdir_p_Raise. }
  right. exists t1. split; [done|].
  destruct (write_manifest repo_root splits_dir_abs "train" (train s) t1)
    as [[c1|e1] t2] eqn:E1.
  2: { injection H as <- <-. right. exists e1. split; [done|].
       apply write_manifest_inv in E1 as [[? ?]|(? & [= <-] & ?)]; done. }
  destruct (write_manifest repo_root splits_dir_abs "val" (val s) t2)
    as [[c2|e2] t3] eqn:E2.
  2: { injection H as <- <-. right. exists e2. split; [done|].
       apply write_manifest_inv in E2 as [[? ?]|(? & [= <-] & ?)]; done. }
  destruct (write_manifest repo_root splits_dir_abs "test" (test s) t3)
    as [[c3|e3] t4] eqn:E3.
  2: { injection H as <- <-. right. exists e3. split; [done|].
       apply write_manifest_inv in E3 as [[? ?]|(? & [= <-] & ?)]; done. }
  unfold pure at 1 in H.
  destruct (relative_to raw_dir_abs repo_root) as [raw_rel|e4] eqn:E4.
  2: { injection H as <- <-. right. exists e4. split; [done|].
       apply relative_to_Raise in E4 as ->. by left. }
  unfold pure at 1 in H.
  destruct (relative_to dataset_root repo_root) as [root_rel|e5] eqn:E5.
  2: { injection H as <- <-. right. exists e5. split; [done|].
       apply relative_to_Raise in E5 as ->. by left. }
  unfold effect in H.
  destruct (write_text t4 _ _) as [t5|e6] eqn:E6.
  - injection H as <- <-. left. by eexists.
  - injection H as <- <-. right. exists e6. split; [done|].
    apply write_text_Raise in E6. unfold late. tauto.
Qed.

Lemma early_not_late e :
  (e = ratio_error
   ∨ ∃ site, e = FileNotFoundError site ∧ site ∈ discovery_sites) →
  ¬ late e.
Proof.
  unfold late, ratio_error, discovery_sites.
  intros [->|(site & -> & Hsite)] [H|[[k H]|[H|H]]]; try done.
  injection H as ->. set_unfold. naive_solver.
Qed.

(** C10: when [write_split_manifests] raises the ratio error or one of the
    [FileNotFoundError]s of discovery (missing raw directory, no class
    directories, no images, missing archive, no images in the archive), the
    filesystem it leaves is the one it started from: no directory was
    created and no manifest or metadata file was written. *)
Theorem manifest_error_atomicity raw_dir splits_dir seed ratios zip_path
    (t t' : fs) (e : exn) :
  write_split_manifests R repo_root json_dumps raw_dir splits_dir seed ratios
    zip_path t = (Raise e, t') →
  (e = ratio_error
   ∨ ∃ site, e = FileNotFoundError site ∧ site ∈ discovery_sites) →
  t' = t.
Proof.
  intros H Hearly.
  apply write_split_manifests_inv in H as [(_ & _ & ->)|(_ & H)]; [done|].
  destruct H as [(e' & _ & -> & _)|(t1 & _ & [[md H]|(e' & [= <-] & Hl)])];
    try done.
  by apply early_not_late in Hearly.
Qed.

(** C5 (as amended): for a non-empty ratio dict whose values sum to a
    number differing from 1.0 by more than 1e-6 the writer raises the ratio
    error and leaves the filesystem as it was; when the sum is within the
    tolerance the ratio error is not raised. *)
Theorem ratio_validation raw_dir splits_dir seed (ratios : Py.dict float)
    zip_path (t : fs) :
  ratios ≠ [] →
  let run := write_split_manifests R repo_root json_dumps raw_dir splits_dir
               seed (Some ratios) zip_path t in
  ((1e-6 <? abs (Py.fsum (Py.dict_values ratios) - 1))%float = true →
   run = (Raise ratio_error, t))
  ∧ ((1e-6 <? abs (Py.fsum (Py.dict_values ratios) - 1))%float = false →
     run.1 ≠ Raise ratio_error).
Proof.
  intros Hne run.
  assert (effective_ratios (Some ratios) = ratios) as Heff
    by (by destruct ratios).
  destruct run as [r t'] eqn:Erun. unfold run in Erun.
  apply write_split_manifests_inv in Erun. rewrite Heff in Erun.
  unfold out_of_tolerance in Erun. split; intros Htol; rewrite Htol in Erun.
  - destruct Erun as [(_ & -> & ->)|(? & _)]; done.
  - destruct Erun as [(? & _)|(_ & H)]; [done|]. simpl. intros ->.
    destruct H as [(e' & [= <-] & _ & H)|(t1 & _ & [[md H]|(e' & [= <-] & H)])];
      [| done |].
    + unfold ratio_error in H.
      destruct H as [[H|[H|[H|(? & H & _)]]]|[[H|[H|[H|H]]]|[H|H]]]; done.
    + unfold late, ratio_error in H. destruct H as [H|[[? H]|[H|H]]]; done.
Qed.
End Writer.

Lemma ratio_validation_witness :
  write_split_manifests Examples.lcg "/repo" (λ _, "{}") "data/raw"
    "data/splits" 1337
    (Some [("train", 0.5%float); ("val", 0.5%float); ("test", 0.5%float)])
    None Examples.small_repo
  = (Raise ratio_error, Examples.small_repo).
Proof.
  refine (proj1 (ratio_validation Examples.lcg "/repo" (λ _, "{}") "data/raw"
                   "data/splits" 1337
                   [("train", 0.5%float); ("val", 0.5%float);
                    ("test", 0.5%float)] None Examples.small_repo _) _).
  - done.
  - vm_compute; reflexivity.
Defined.

Lemma manifest_error_atomicity_witness :
  write_split_manifests Examples.lcg "/repo" (λ _, "{}") "data/missing"
    "data/splits" 1337 None None Examples.small_repo
  = (Raise (FileNotFoundError "Raw data directory does not exist"),
     Examples.small_repo).
Proof.
  destruct (write_split_manifests Examples.lcg "/repo" (λ _, "{}")
              "data/missing" "data/splits" 1337 None None Examples.small_repo)
    as [r t'] eqn:E.
  assert (r = Raise (FileNotFoundError "Raw data directory does not exist"))
    as -> by (vm_compute in E; by injection E as <- _).
  f_equal.
  apply (manifest_error_atomicity Examples.lcg "/repo" (λ _, "{}")
           "data/missing" "data/splits" 1337 None None _ _ _ E).
  right. eexists. split; [done|]. unfold discovery_sites. set_solver.
Defined.

(** C5 fails as stated: the values of the empty dict sum to 0, which is
    more than 1e-6 away from 1.0, yet the writer does not raise the ratio
    error for it, whatever the generator: an empty dict is replaced by the
    default ratios. *)
Lemma empty_ratios_accepted :
  (1e-6 <? abs (Py.fsum (Py.dict_values (@nil (string * float))) - 1))%float
  = true
  ∧ ¬ ∃ (R : Py.Rng) (json_dumps : metadata → string),
        (write_split_manifests R "/repo" json_dumps "data/raw" "data/splits"
           1337 (Some []) None Examples.small_repo).1
        = Raise ratio_error.
Proof.
  split; [by vm_compute|].
  intros (R & json_dumps & H).
  destruct (write_split_manifests _ _ _ _ _ _ _ _ _) as [r t'] eqn:E.
  simpl in H. subst r.
  apply write_split_manifests_inv in E. simpl in E.
  destruct E as [(E & _)|(_ & E)]; [by vm_compute in E|].
  destruct E as [(e' & [= <-] & _ & H)|(t1 & _ & [[md H]|(e' & [= <-] & H)])];
    [| done |].
  - unfold ratio_error in H.
    destruct H as [[H|[H|[H|(? & H & _)]]]|[[H|[H|[H|H]]]|[H|H]]]; done.
  - unfold late, ratio_error in H. destruct H as [H|[[? H]|[H|H]]]; done.
Qed.

End WriterFacts.

(** ** Rounding to float32 *)

Module Float32Facts.

Lemma Zpos_iter_xO (a p : positive) :
  Z.pos (Pos.iter xO a p) = Pos.iter (Z.mul 2) (Z.pos a) p.
Proof.
  induction p as [|p IH] using Pos.peano_ind.
  - reflexivity.
  - rewrite !Pos.iter_succ, <-IH. reflexivity.
Qed.

Lemma pow2_Qpower (k : Z) : (Py.pow2 k == 2 ^ k)%Q.
Proof.
  destruct k as [|p|p]; unfold Py.pow2.
  - reflexivity.
  - rewrite Z.shiftl_1_l. apply Zpower_Qpower. lia.
  - assert (Z.pos (Pos.shiftl 1 (N.pos p)) = (2 ^ Z.pos p)%Z) as H.
    { rewrite <-Z.shiftl_1_l. apply Zpos_iter_xO. }
    change (2 ^ Z.neg p)%Q with (/ (2 ^ Z.pos p))%Q.
    rewrite <-(Zpower_Qpower 2 (Z.pos p)) by lia. rewrite <-H. reflexivity.
Qed.

Lemma pow2_pos (k : Z) : (0 < Py.pow2 k)%Q.
Proof. rewrite pow2_Qpower. by apply Qpower_0_lt. Qed.

Lemma pow2_add (a b : Z) : (Py.pow2 (a + b) == Py.pow2 a * Py.pow2 b)%Q.
Proof. rewrite !pow2_Qpower. by apply Qpower_plus. Qed.

Lemma pow2_le (a b : Z) : (a ≤ b)%Z → (Py.pow2 a <= Py.pow2 b)%Q.
Proof. intros H. rewrite !pow2_Qpower. by apply Qpower_le_compat_l. Qed.

Lemma pow2_lt_inv (a b : Z) : (Py.pow2 a < Py.pow2 b)%Q → (a < b)%Z.
Proof.
  rewrite !pow2_Qpower. intros H. by apply (Qpower_lt_compat_l_inv 2).
Qed.

(** [ilog2] does not overshoot: [2^(ilog2 q) <= q]. *)
Lemma pow2_ilog2_le (q : Q) : (0 < q)%Q → (Py.pow2 (Py.ilog2 q) <= q)%Q.
Proof.
  intros Hq. unfold Py.ilog2.
  destruct (Qle_bool _ q) eqn:E; [by apply Qle_bool_iff|]. clear E.
  destruct q as [n d]. cbn [Qnum Qden].
  assert (0 < n)%Z as Hn by (revert Hq; unfold Qlt; simpl; lia).
  pose proof (Z.log2_spec n Hn) as [Ha _].
  pose proof (Z.log2_spec (Z.pos d) (Pos2Z.is_pos d)) as [_ Hb].
  pose proof (Z.log2_nonneg n) as Ha0.
  pose proof (Z.log2_nonneg (Z.pos d)) as Hb0.
  set (a := Z.log2 n) in *. set (b := Z.log2 (Z.pos d)) in *.
  replace (a - b - 1)%Z with (a + - (b + 1))%Z by lia.
  rewrite pow2_add, !pow2_Qpower, Qpower_opp.
  change 2%Q with (inject_Z 2). rewrite <-!Zpower_Qpower by lia.
  assert (0 < 2 ^ (b + 1))%Z as HB by (apply Z.pow_pos_nonneg; lia).
  apply (Qle_shift_div_r (inject_Z (2 ^ a)) (inject_Z (2 ^ (b + 1))) (n # d)).
  { change 0%Q with (inject_Z 0). by rewrite <-Zlt_Qlt. }
  unfold Qle, Qmult, inject_Z. cbn [Qnum Qden].
  replace (Z.succ b) with (b + 1)%Z in Hb by lia. nia.
Qed.

Lemma round_half_even_bounds (y : Q) :
  (y - (1 # 2) <= inject_Z (Py.round_half_even y))%Q
  ∧ (inject_Z (Py.round_half_even y) <= y + (1 # 2))%Q.
Proof.
  unfold Py.round_half_even.
  pose proof (Qfloor_le y) as Hlo. pose proof (Qlt_floor y) as Hhi.
  rewrite inject_Z_plus in Hhi. change (inject_Z 1) with 1%Q in Hhi.
  destruct (_ ?= _)%Q eqn:E.
  - apply Qeq_alt in E. destruct (Z.even _); rewrite ?inject_Z_plus;
      change (inject_Z 1) with 1%Q; split; lra.
  - apply Qlt_alt in E. split; lra.
  - apply Qgt_alt in E. rewrite inject_Z_plus.
    change (inject_Z 1) with 1%Q. split; lra.
Qed.

Lemma round_half_even_int (y : Q) (m : Z) :
  (y == inject_Z m)%Q → Py.round_half_even y = m.
Proof.
  intros H. unfold Py.round_half_even.
  assert (Qfloor y = m) as -> by (by rewrite H, Qfloor_Z).
  assert ((y - inject_Z m ?= 1 # 2)%Q = Lt) as ->; [|done].
  apply (proj1 (Qlt_alt _ _)). lra.
Qed.

Lemma Qred_inject_Z (z : Z) : Qred (inject_Z z) = inject_Z z.
Proof.
  unfold Qred, inject_Z.
  pose proof (Z.ggcd_gcd z 1) as Hg.
  pose proof (Z.ggcd_correct_divisors z 1) as Hd.
  destruct (Z.ggcd z 1) as [g [r1 r2]]. cbn [fst snd] in *.
  rewrite Z.gcd_1_r in Hg. subst g. destruct Hd as [-> Hr].
  assert (r2 = 1%Z) as -> by lia. f_equal. lia.
Qed.

Lemma Qabs_nonneg_eq (q : Q) : (0 <= q)%Q → Qabs q = q.
Proof.
  destruct q as [n d]. unfold Qle, Qabs. simpl. intros H.
  by rewrite Z.abs_eq by lia.
Qed.

(** What [round_f32] computes for a positive value. *)
Lemma round_f32_pos (x : Q) :
  (0 < x)%Q →
  let ulp := Py.pow2 (Z.max (Py.ilog2 x) (-126) - 23) in
  Py.round_f32 x = Qred (inject_Z (Py.round_half_even (x / ulp)) * ulp).
Proof.
  intros Hx ulp. unfold Py.round_f32.
  destruct (Qeq_bool x 0) eqn:E.
  { apply Qeq_bool_iff in E. lra. }
  rewrite (proj2 (Qle_bool_iff 0 x)) by lra.
  by rewrite Qabs_nonneg_eq by lra.
Qed.

Lemma round_f32_0 (x : Q) : (x == 0)%Q → Py.round_f32 x = 0%Q.
Proof.
  intros H. unfold Py.round_f32. by rewrite (proj2 (Qeq_bool_iff x 0)).
Qed.

(** An integer of at most 24 bits is a float32. *)
Lemma round_f32_exact (z : Z) :
  (0 ≤ z ≤ 16777216)%Z → Py.round_f32 (inject_Z z) = inject_Z z.
Proof.
  intros Hz.
  destruct (decide (z = 0%Z)) as [->|H0]; [done|].
  destruct (decide (z = 16777216%Z)) as [->|Hmax]; [by vm_compute|].
  assert (0 < inject_Z z)%Q as Hpos.
  { change 0%Q with (inject_Z 0). rewrite <-Zlt_Qlt. lia. }
  rewrite round_f32_pos by done. cbv zeta.
  transitivity (Qred (inject_Z z)); [|apply Qred_inject_Z].
  apply Qred_complete.
  assert (Py.ilog2 (inject_Z z) < 24)%Z as Hil.
  { apply pow2_lt_inv. eapply Qle_lt_trans; [by apply pow2_ilog2_le|].
    change (Py.pow2 24) with (inject_Z 16777216). rewrite <-Zlt_Qlt. lia. }
  destruct (Z.max (Py.ilog2 (inject_Z z)) (-126) - 23)%Z as [|p|p] eqn:Ek;
    [| lia |].
  - change (Py.pow2 0) with 1%Q.
    rewrite (round_half_even_int _ z); [ring|]. field.
  - unfold Py.pow2. set (M := Pos.shiftl 1 (N.pos p)).
    rewrite (round_half_even_int _ (z * Z.pos M)).
    + rewrite inject_Z_mult. unfold Qeq, Qmult, inject_Z. simpl. lia.
    + rewrite inject_Z_mult. unfold Qeq, Qdiv, Qmult, Qinv, inject_Z. simpl.
      lia.
Qed.

(** Rounding a value of at least [2^-126] moves it by at most [2^-24] of
    itself. *)
Lemma round_f32_relative (x : Q) :
  (Py.pow2 (-126) <= x)%Q →
  (x - (1 # 16777216) * x <= Py.round_f32 x)%Q
  ∧ (Py.round_f32 x <= x + (1 # 16777216) * x)%Q.
Proof.
  intros Hx.
  assert (0 < x)%Q as Hpos.
  { eapply Qlt_le_trans; [|exact Hx]. apply pow2_pos. }
  rewrite round_f32_pos by done. cbv zeta. rewrite Qred_correct.
  set (u := Py.pow2 (Z.max (Py.ilog2 x) (-126) - 23)).
  assert (0 < u)%Q as Hu by apply pow2_pos.
  assert (u <= (1 # 8388608) * x)%Q as Hulp.
  { unfold u. destruct (Z.max_spec (Py.ilog2 x) (-126)) as [[_ ->]|[_ ->]].
    - change (Py.pow2 (-126 - 23)) with ((1 # 8388608) * Py.pow2 (-126))%Q.
      lra.
    - replace (Py.ilog2 x - 23)%Z with (Py.ilog2 x + -23)%Z by lia.
      rewrite pow2_add. change (Py.pow2 (-23)) with (1 # 8388608)%Q.
      pose proof (pow2_ilog2_le x Hpos). lra. }
  destruct (round_half_even_bounds (x / u)) as [Hlo Hhi].
  set (n := inject_Z (Py.round_half_even (x / u))) in *.
  assert (x / u * u == x)%Q as Hdiv by (field; lra).
  assert ((x / u - (1 # 2)) * u <= n * u)%Q as Hlo'
    by (apply Qmult_le_compat_r; lra).
  assert (n * u <= (x / u + (1 # 2)) * u)%Q as Hhi'
    by (apply Qmult_le_compat_r; lra).
  split; lra.
Qed.

End Float32Facts.

(** ** The colour-histogram features *)

Module ModelFacts.
Import Model Float32Facts.

Definition in_range (v : Q) : bool := Qle_bool 0 v && Qle_bool v 1.

(** How many values of a channel the histogram counts. *)
Definition in_range_count (values : list Q) : nat :=
  length (List.filter in_range values).

Definition qsum (l : list Q) : Q := foldr Qplus 0%Q l.

(** [float32(count)] and [float32(count) / float32(total)] *)
Definition count32 (count : nat) : Q := inject_Z (Z.of_nat count).
Definition fraction32 (total count : nat) : Q :=
  Py.round_f32 (count32 count / count32 total).

Lemma sum_list_indicator (k a n : nat) :
  sum_list ((λ i, if bool_decide (Some k = Some i) then 1 else 0) <$> seq a n)
  = if bool_decide (a ≤ k < a + n) then 1 else 0.
Proof.
  revert a. induction n as [|n IH]; intros a; simpl.
  { rewrite bool_decide_eq_false_2; [done|lia]. }
  rewrite IH. destruct (decide (k = a)) as [->|Hne].
  - rewrite (bool_decide_eq_true_2 (Some a = Some a)) by done.
    rewrite bool_decide_eq_false_2 by lia.
    by rewrite bool_decide_eq_true_2 by lia.
  - rewrite (bool_decide_eq_false_2 (Some k = Some a)) by congruence.
    simpl. repeat case_bool_decide; lia.
Qed.

Lemma sum_list_fmap_plus {A} (f g : A → nat) (l : list A) :
  sum_list ((λ i, f i + g i) <$> l) = sum_list (f <$> l) + sum_list (g <$> l).
Proof. induction l as [|x l IH]; csimpl; lia. Qed.

Lemma sum_list_zeros {A} (l : list A) : sum_list ((λ _, 0) <$> l) = 0.
Proof. induction l as [|x l IH]; csimpl; lia. Qed.

Section Histogram.
Context (N : Py.Binning).

(** The counts [np_histogram] returns for [n] bins. *)
Definition counts (n : nat) (values : list Q) : list nat :=
  (λ i, length (List.filter (λ v, bool_decide (Py.bin_of N n v = Some i))
                            values)) <$> seq 0 n.

Lemma np_histogram_Ok (values : list Q) (bins : Z) :
  (1 ≤ bins)%Z →
  Py.np_histogram N values bins = Ok (counts (Z.to_nat bins) values).
Proof.
  intros H. unfold Py.np_histogram. by rewrite (proj2 (Z.ltb_ge _ _)) by lia.
Qed.

Lemma bin_of_Some (n : nat) (v : Q) :
  0 < n → in_range v = true → ∃ k, Py.bin_of N n v = Some k ∧ k < n.
Proof.
  intros Hn Hv. unfold Py.bin_of. fold (in_range v). rewrite Hv.
  eexists. split; [done|]. by apply Py.bin_index_lt.
Qed.

Lemma bin_of_None (n : nat) (v : Q) :
  in_range v = false → Py.bin_of N n v = None.
Proof. intros Hv. unfold Py.bin_of. fold (in_range v). by rewrite Hv. Qed.

(** The counts add up to the number of values within the range. *)
Lemma sum_list_counts (n : nat) (values : list Q) :
  0 < n → sum_list (counts n values) = in_range_count values.
Proof.
  intros Hn. unfold counts, in_range_count.
  induction values as [|v values IH].
  { simpl. apply sum_list_zeros. }
  transitivity (sum_list ((λ i, (if bool_decide (Py.bin_of N n v = Some i)
                                 then 1 else 0)
                                + length (List.filter
                                    (λ v0, bool_decide (Py.bin_of N n v0 = Some i))
                                    values)) <$> seq 0 n)).
  { f_equal. apply list_fmap_ext. intros _ i _. simpl.
    by destruct (bool_decide (Py.bin_of N n v = Some i)). }
  rewrite sum_list_fmap_plus, IH. simpl List.filter.
  destruct (in_range v) eqn:Hv.
  - destruct (bin_of_Some n v Hn Hv) as (k & -> & Hk).
    rewrite sum_list_indicator. rewrite bool_decide_eq_true_2 by lia. done.
  - rewrite (bin_of_None n v Hv). simpl. by rewrite sum_list_zeros.
Qed.

Lemma length_counts (n : nat) (values : list Q) : length (counts n values) = n.
Proof. unfold counts. by rewrite length_fmap, length_seq. Qed.
End Histogram.

Lemma length_normalised (hist : list nat) :
  length (normalised hist) = length hist.
Proof. unfold normalised. destruct (negb _); by rewrite !length_fmap. Qed.

(** Counts that add up to at most [2^24] are float32 values, and so is
    their sum. *)
Lemma hist32_exact (hist : list nat) :
  (Z.of_nat (sum_list hist) ≤ 16777216)%Z →
  (λ count, Py.round_f32 (inject_Z (Z.of_nat count))) <$> hist
  = count32 <$> hist.
Proof.
  intros H. apply list_fmap_ext. intros i count Hc.
  apply round_f32_exact.
  assert (count ≤ sum_list hist); [|lia].
  apply list_elem_of_lookup_2 in Hc. clear H.
  induction hist as [|x hist IH]; [by apply elem_of_nil in Hc|].
  simpl. apply elem_of_cons in Hc as [->|Hc]; [lia|]. specialize (IH Hc). lia.
Qed.

Lemma sum_f32_exact (hist : list nat) :
  (Z.of_nat (sum_list hist) ≤ 16777216)%Z →
  Py.sum_f32 (count32 <$> hist) = count32 (sum_list hist).
Proof.
  unfold Py.sum_f32.
  assert (∀ acc : nat,
            (Z.of_nat (acc + sum_list hist) ≤ 16777216)%Z →
            foldl (λ acc x, Py.round_f32 (acc + x)) (count32 acc)
                  (count32 <$> hist)
            = count32 (acc + sum_list hist)) as H.
  { induction hist as [|x hist IH]; intros acc Hacc; simpl in *.
    { by rewrite Nat.add_0_r. }
    unfold count32 at 1 2. rewrite <-inject_Z_plus, <-Nat2Z.inj_add.
    rewrite round_f32_exact by lia. fold (count32 (acc + x)).
    rewrite IH by lia. f_equal. lia. }
  intros Hs. exact (H 0 Hs).
Qed.

(** What [normalised] returns when the counts add up to at most [2^24]. *)
Lemma normalised_eq (hist : list nat) :
  (Z.of_nat (sum_list hist) ≤ 16777216)%Z →
  normalised hist
  = if (0 <? sum_list hist)%nat
    then fraction32 (sum_list hist) <$> hist
    else count32 <$> hist.
Proof.
  intros H. unfold normalised. rewrite hist32_exact, sum_f32_exact by done.
  destruct (Nat.ltb_spec 0 (sum_list hist)) as [Hpos|Hzero].
  - assert (Qle_bool (count32 (sum_list hist)) 0 = false) as ->.
    { apply not_true_iff_false. rewrite Qle_bool_iff. unfold count32.
      change 0%Q with (inject_Z 0). rewrite <-Zle_Qle. lia. }
    cbn [negb]. by rewrite <-list_fmap_compose.
  - assert (Qle_bool (count32 (sum_list hist)) 0 = true) as ->; [|done].
    rewrite Qle_bool_iff. unfold count32.
    change 0%Q with (inject_Z 0). rewrite <-Zle_Qle. lia.
Qed.

Lemma normalised_zero (hist : list nat) :
  sum_list hist = 0 → Forall (λ x, x = 0%Q) (normalised hist).
Proof.
  intros H. rewrite normalised_eq by lia. rewrite H. cbn [Nat.ltb Nat.leb].
  apply Forall_fmap. induction hist as [|x hist IH]; [constructor|].
  simpl in H. constructor; [|apply IH; lia].
  simpl. by replace x with 0 by lia.
Qed.

(** A quotient of counts is rounded by at most [2^-24] of itself. *)
Lemma fraction32_bounds (total count : nat) :
  0 < total → (Z.of_nat total ≤ 16777216)%Z →
  let x := (count32 count / count32 total)%Q in
  (x - (1 # 16777216) * x <= fraction32 total count)%Q
  ∧ (fraction32 total count <= x + (1 # 16777216) * x)%Q.
Proof.
  intros Ht Hmax' x. unfold fraction32. fold x.
  assert (0 < count32 total)%Q as Hn.
  { unfold count32. change 0%Q with (inject_Z 0). rewrite <-Zlt_Qlt. lia. }
  destruct count as [|count].
  { assert (x == 0)%Q as Hx
      by (unfold x; change (count32 0) with 0%Q; field; lra).
    rewrite (round_f32_0 x Hx). split; lra. }
  apply round_f32_relative. unfold x.
  apply Qle_shift_div_l; [done|].
  set (e := Py.pow2 (-126)).
  assert (0 < e)%Q as He by apply pow2_pos.
  assert (e * 16777216 <= 1)%Q as Hsmall by (by vm_compute).
  assert (count32 total <= 16777216)%Q as Hmax.
  { unfold count32. change 16777216%Q with (inject_Z 16777216).
    rewrite <-Zle_Qle. lia. }
  assert (1 <= count32 (S count))%Q as Hone.
  { unfold count32. change 1%Q with (inject_Z 1). rewrite <-Zle_Qle. lia. }
  assert (e * count32 total <= e * 16777216)%Q as Hmul
    by (by apply Qmult_le_l).
  lra.
Qed.

(** The float32 fractions of counts add up to 1 within [2^-24]. *)
Lemma qsum_fractions (total : nat) (hist : list nat) :
  0 < total → (Z.of_nat total ≤ 16777216)%Z →
  let s := (count32 (sum_list hist) / count32 total)%Q in
  (s - (1 # 16777216) * s <= qsum (fraction32 total <$> hist))%Q
  ∧ (qsum (fraction32 total <$> hist) <= s + (1 # 16777216) * s)%Q.
Proof.
  intros Ht Hmax.
  assert (0 < count32 total)%Q as Hn.
  { unfold count32. change 0%Q with (inject_Z 0). rewrite <-Zlt_Qlt. lia. }
  induction hist as [|count hist IH]; cbv zeta in *.
  { simpl. assert (count32 0 / count32 total == 0)%Q as ->
      by (change (count32 0) with 0%Q; field; lra). split; lra. }
  csimpl. destruct (fraction32_bounds total count Ht Hmax) as [Hlo Hhi].
  cbv zeta in Hlo, Hhi. destruct IH as [IHlo IHhi].
  assert (count32 (count + sum_list hist) / count32 total
          == count32 count / count32 total
             + count32 (sum_list hist) / count32 total)%Q as ->.
  { assert (count32 (count + sum_list hist)
            = count32 count + count32 (sum_list hist))%Q as ->
      by (unfold count32; by rewrite Nat2Z.inj_add, inject_Z_plus).
    field. lra. }
  split; lra.
Qed.

Lemma qsum_normalised (hist : list nat) :
  0 < sum_list hist → (Z.of_nat (sum_list hist) ≤ 16777216)%Z →
  (Qabs (qsum (normalised hist) - 1) <= 1 # 1000000)%Q.
Proof.
  intros H Hmax. rewrite normalised_eq by lia.
  rewrite (proj2 (Nat.ltb_lt _ _)) by lia.
  destruct (qsum_fractions (sum_list hist) hist H Hmax) as [Hlo Hhi].
  cbv zeta in Hlo, Hhi.
  assert (0 < count32 (sum_list hist))%Q as Hn.
  { unfold count32. change 0%Q with (inject_Z 0). rewrite <-Zlt_Qlt. lia. }
  assert (count32 (sum_list hist) / count32 (sum_list hist) == 1)%Q as Hone
    by (field; lra).
  rewrite Hone in Hlo, Hhi.
  apply Qabs_Qle_condition. split; lra.
Qed.

Lemma length_omap_le {A B} (f : A → option B) (l : list A) :
  length (omap f l) ≤ length l.
Proof.
  induction l as [|x l IH]; [done|]. cbn [omap list_omap].
  destruct (f x); simpl; lia.
Qed.

Lemma in_range_count_le (a : Py.ndarray) (h w d c : nat) :
  Py.shape a = [h; w; d] → in_range_count (channel_values a c) ≤ h * w.
Proof.
  intros Hs. unfold in_range_count, channel_values. rewrite Hs.
  etrans; [apply List.filter_length_le|].
  etrans; [apply length_omap_le|]. by rewrite length_seq.
Qed.

Section Blocks.
Context (N : Py.Binning).

Lemma channel_histogram_Ok (a : Py.ndarray) (bins : Z) (channel : nat) :
  (1 ≤ bins)%Z →
  channel_histogram N a bins channel
  = Ok (normalised (counts N (Z.to_nat bins) (channel_values a channel))).
Proof.
  intros H. unfold channel_histogram. by rewrite np_histogram_Ok.
Qed.

(** C3 (as amended): for an array of shape (H, W, 3) with at most 2^24
    pixels and a bin count of at least 1, the features are three
    consecutive blocks of [bins] numbers, one per channel.  The histogram
    of a channel counts the channel's values lying within [[0, 1]], each
    in one bin; a block holds the float32 quotients of these counts by
    their total, the number of values counted.  The entries of a block add
    up to 1 within 1e-6 when the channel has a value within the range, and
    are all zero when it has none. *)
Theorem histogram_blocks (a : Py.ndarray) (bins : Z) (h w : nat) :
  Py.shape a = [h; w; 3] → (1 ≤ bins)%Z →
  (Z.of_nat (h * w) ≤ 16777216)%Z →
  let hits c := counts N (Z.to_nat bins) (channel_values a c) in
  let block c := normalised (hits c) in
  extract_color_histogram N a bins = Ok (block 0 ++ block 1 ++ block 2)
  ∧ ∀ c, length (block c) = Z.to_nat bins
         ∧ sum_list (hits c) = in_range_count (channel_values a c)
         ∧ (0 < in_range_count (channel_values a c) →
            block c
            = fraction32 (in_range_count (channel_values a c)) <$> hits c
            ∧ (Qabs (qsum (block c) - 1) <= 1 # 1000000)%Q)
         ∧ (in_range_count (channel_values a c) = 0 →
            Forall (λ x, x = 0%Q) (block c)).
Proof.
  intros Hshape Hbins Hsize hits block. split.
  - unfold extract_color_histogram. rewrite Hshape.
    by rewrite !channel_histogram_Ok by done.
  - intros c.
    pose proof (sum_list_counts N (Z.to_nat bins) (channel_values a c))
      as Hsum.
    pose proof (in_range_count_le a h w 3 c Hshape) as Hle.
    fold (hits c) in Hsum. unfold block. split_and!.
    + unfold hits. by rewrite length_normalised, length_counts.
    + apply Hsum. lia.
    + intros Hpos. rewrite <-Hsum in * by lia. split.
      * rewrite normalised_eq by lia. by rewrite (proj2 (Nat.ltb_lt _ _)).
      * apply qsum_normalised; lia.
    + intros Hzero. rewrite <-Hsum in Hzero by lia.
      by apply normalised_zero.
Qed.
End Blocks.

Lemma histogram_blocks_witness :
  extract_color_histogram Examples.exact_edges
    {| Py.shape := [1; 2; 3];
       Py.data := [1; 0; 1 # 2; 1 # 4; 0; 2]%Q |} 2
  = Ok [1 # 2; 1 # 2; 1; 0; 0; 1]%Q.
Proof.
  destruct (histogram_blocks Examples.exact_edges
              {| Py.shape := [1; 2; 3];
                 Py.data := [1; 0; 1 # 2; 1 # 4; 0; 2]%Q |} 2 1 2)
    as [H _]; [done|lia|simpl; lia|].
  rewrite H. vm_compute. reflexivity.
Defined.

(** C3 fails as stated: a channel whose only pixel has the value 2 is not
    empty, yet, whatever the binning, its block is all zero and does not
    sum to 1 within 1e-6. *)
Lemma histogram_ignores_out_of_range :
  channel_values Examples.overexposed_pixel 0 = [2%Q]
  ∧ (∀ N, extract_color_histogram N Examples.overexposed_pixel 2
          = Ok [0; 0; 0; 0; 0; 0]%Q)
  ∧ ¬ (Qabs (qsum [0; 0] - 1) <= 1 # 1000000)%Q.
Proof.
  split_and!; [by vm_compute| |].
  - intros N. by vm_compute.
  - vm_compute. intros H. by apply H.
Qed.

End ModelFacts.

(** ** The feature-matrix builders *)

Module FeaturesFacts.
Import Model Features.

(** A step that, from any lists, ends with the outcome [r] after appending
    [df] to the features and [dl] to the labels. *)
Definition appends {A} (m : stx rows A) (r : result A)
    (df : list (list Q)) (dl : list Z) : Prop :=
  ∀ features labels,
    m (features, labels) = (r, (features ++ df, labels ++ dl)).

Definition uniform {A} (m : stx rows A) : Prop :=
  ∃ r df dl, appends m r df dl.

(** What a step does from empty lists. *)
Definition outcome {A} (m : stx rows A) : result A := (m ([], [])).1.
Definition produced {A} (m : stx rows A) : list (list Q) := (m ([], [])).2.1.
Definition produced_labels {A} (m : stx rows A) : list Z := (m ([], [])).2.2.

Lemma uniform_run {A} (m : stx rows A) features labels :
  uniform m →
  m (features, labels)
  = (outcome m, (features ++ produced m, labels ++ produced_labels m)).
Proof.
  intros (r & df & dl & H). unfold outcome, produced, produced_labels.
  by rewrite (H [] []), (H features labels).
Qed.

Lemma uniform_pure {A} (x : result A) : uniform (pure (λ _, x)).
Proof.
  exists x, [], []. intros features labels. unfold pure.
  by rewrite !app_nil_r.
Qed.

Lemma uniform_ret {A} (a : A) : uniform (mret a : stx rows A).
Proof.
  exists (Ok a), [], []. intros features labels.
  unfold mret, stx_ret. by rewrite !app_nil_r.
Qed.

Lemma uniform_append_features v : uniform (append_features v).
Proof.
  exists (Ok ()), [v], []. intros features labels.
  unfold append_features, effect. by rewrite app_nil_r.
Qed.

Lemma uniform_append_label label : uniform (append_label label).
Proof.
  unfold append_label, effect.
  destruct (Py.dict_get Data.CLASS_TO_INDEX label) as [index|e] eqn:E.
  - exists (Ok ()), [], [index]. intros features labels.
    simpl. by rewrite app_nil_r.
  - exists (Raise e), [], []. intros features labels.
    simpl. by rewrite !app_nil_r.
Qed.

Lemma uniform_bind {A B} (m : stx rows A) (k : A → stx rows B) :
  uniform m → (∀ a, uniform (k a)) → uniform (m ≫= k).
Proof.
  intros (r & df & dl & Hm) Hk. destruct r as [a|e].
  - destruct (Hk a) as (r' & df' & dl' & Hk').
    exists r', (df ++ df'), (dl ++ dl'). intros features labels.
    unfold mbind, stx_bind. rewrite Hm, Hk'. by rewrite !app_assoc.
  - exists (Raise e), df, dl. intros features labels.
    unfold mbind, stx_bind. by rewrite Hm.
Qed.


Lemma outcome_bind_Raise {A B} (m : stx rows A) (k : A → stx rows B) e :
  uniform m → outcome m = Raise e → outcome (m ≫= k) = Raise e.
Proof.
  intros Hm He. unfold outcome at 1. unfold mbind, stx_bind.
  rewrite (uniform_run m) by done. by rewrite He.
Qed.



Section Builders.
Context (N : Py.Binning).
Context (W : PIL.World).
Context (_augment_image : PIL.Image W → Z → result (PIL.Image W)).

Lemma uniform_augmentation image fc label seed idx aug_idx :
  uniform (augmentation N W _augment_image image fc label seed idx aug_idx).
Proof.
  unfold augmentation.
  repeat (apply uniform_bind; [|intros ?]);
    auto using @uniform_pure, uniform_append_features, uniform_append_label.
Qed.

Lemma uniform_augmentations image fc label seed idx (m : stx rows unit)
    (l : list nat) :
  uniform m →
  uniform (foldl (λ (m : stx rows unit) aug_idx,
                    _ ← m;
                    augmentation N W _augment_image image fc label seed idx
                      aug_idx) m l).
Proof.
  revert m. induction l as [|i l IH]; intros m Hm; [done|].
  simpl. apply IH. apply uniform_bind; [done|]. intros _.
  apply uniform_augmentation.
Qed.

Lemma uniform_train_sample fc augment n seed idx item :
  uniform (train_sample N W _augment_image fc augment n seed idx item).
Proof.
  unfold train_sample. destruct item as [path label].
  repeat (apply uniform_bind; [|intros ?]);
    auto using @uniform_pure, uniform_append_features, uniform_append_label.
  destruct augment; [|apply uniform_ret].
  apply uniform_augmentations, uniform_ret.
Qed.
(** Whether the [try] body of [_build_features] raises for an entry of
    [enumerate(items)]. *)
Definition fails fc augment n seed (entry : nat * (PathLib.Path * string))
    : bool :=
  negb (is_ok (outcome (train_sample N W _augment_image fc augment n seed
                          entry.1 entry.2))).

Definition enumerate (items : list (PathLib.Path * string))
    : list (nat * (PathLib.Path * string)) :=
  imap (λ idx item, (idx, item)) items.

Lemma counted_uniform (m : stx rows unit) features labels skipped :
  uniform m →
  counted m ((features, labels), skipped)
  = ((features ++ produced m, labels ++ produced_labels m),
     skipped + (if is_ok (outcome m) then 0 else 1)).
Proof.
  intros Hm. unfold counted. rewrite (uniform_run m) by done.
  destruct (outcome m); simpl; f_equal; lia.
Qed.

Lemma build_loop fc augment n seed entries features labels skipped :
  foldl (λ st '(idx, item),
           counted (train_sample N W _augment_image fc augment n seed idx item) st)
        ((features, labels), skipped) entries
  = ((features
        ++ (entries ≫= λ entry,
              produced (train_sample N W _augment_image fc augment n seed
                          entry.1 entry.2)),
      labels
        ++ (entries ≫= λ entry,
              produced_labels (train_sample N W _augment_image fc augment n seed
                                 entry.1 entry.2))),
     skipped + length (filter (λ entry, fails fc augment n seed entry = true)
                              entries)).
Proof.
  revert features labels skipped.
  induction entries as [|[idx item] entries IH]; intros features labels skipped.
  { simpl. rewrite !app_nil_r. f_equal. rewrite ?filter_nil. simpl. lia. }
  cbn [foldl]. rewrite counted_uniform by apply uniform_train_sample.
  rewrite IH. rewrite !bind_cons, !app_assoc. simpl. f_equal.
  rewrite filter_cons. unfold fails. cbn [fst snd].
  destruct (is_ok (outcome (train_sample N W _augment_image fc augment n seed idx item)));
    cbn [negb]; case_decide; cbn [length]; try done; lia.
Qed.


Lemma build_features_eq items fc augment n seed :
  _build_features N W _augment_image items fc augment n seed
  = match enumerate items ≫= (λ entry,
            produced (train_sample N W _augment_image fc augment n seed
                        entry.1 entry.2)) with
    | [] => Raise (ValueError "No valid samples available after preprocessing.")
    | features =>
        Ok (features,
            enumerate items ≫= (λ entry,
              produced_labels (train_sample N W _augment_image fc augment n seed
                                 entry.1 entry.2)),
            length (filter (λ entry, fails fc augment n seed entry = true)
                           (enumerate items)))
    end.
Proof.
  unfold _build_features. fold (enumerate items). rewrite build_loop.
  cbn [app Nat.add]. by destruct (enumerate items ≫= _).
Qed.

(** Whether [preprocess_path] raises for an item. *)
Definition undecodable (item : PathLib.Path * string) : bool :=
  negb (is_ok (Data.preprocess_path W item.1 Data.DEFAULT_IMAGE_SIZE)).

(** The loop of [_load_features_from_manifest] from an accumulated state. *)
Definition load_loop (fc : FeatureConfig) (r : result (rows * nat))
    (items : list (PathLib.Path * string)) : result (rows * nat) :=
  foldl (λ r item, st ← r; eval_sample N W fc item st) r items.

Lemma load_loop_Raise fc e items : load_loop fc (Raise e) items = Raise e.
Proof. by induction items. Qed.

Lemma load_loop_cons fc r item items :
  load_loop fc r (item :: items)
  = load_loop fc (st ← r; eval_sample N W fc item st) items.
Proof. done. Qed.

#[local] Arguments load_loop : simpl never.

Lemma load_loop_Ok fc items features labels skipped features' labels' skipped' :
  load_loop fc (Ok ((features, labels), skipped)) items
  = Ok ((features', labels'), skipped') →
  skipped' = skipped + length (filter (λ item, undecodable item = true) items)
  ∧ length features' + length (filter (λ item, undecodable item = true) items)
    = length features + length items.
Proof.
  revert features labels skipped.
  induction items as [|[path label] items IH]; intros features labels skipped.
  { intros [= <- <- <-]. rewrite filter_nil. simpl. lia. }
  rewrite load_loop_cons, filter_cons. cbn [mbind result_bind].
  destruct (decide (undecodable (path, label) = true)) as [Hu|Hu];
    unfold undecodable in Hu; cbn [fst eval_sample] in Hu |- *;
    destruct (Data.preprocess_path W path Data.DEFAULT_IMAGE_SIZE)
      as [array|e]; cbn [is_ok negb] in Hu; try done.
  - intros H. apply IH in H as [-> H]. cbn [length]. lia.
  - destruct (featurize_image N array fc) as [v|e]; simpl;
      [|by rewrite load_loop_Raise].
    destruct (Py.dict_get Data.CLASS_TO_INDEX label) as [index|e]; simpl;
      [|by rewrite load_loop_Raise].
    intros H. apply IH in H as [-> H]. rewrite length_app in H.
    simpl in *. lia.
Qed.

Lemma load_loop_total fc items st :
  (∀ path label array,
     (path, label) ∈ items →
     Data.preprocess_path W path Data.DEFAULT_IMAGE_SIZE = Ok array →
     is_ok (featurize_image N array fc) = true
     ∧ is_ok (Py.dict_get Data.CLASS_TO_INDEX label) = true) →
  is_ok (load_loop fc (Ok st) items) = true.
Proof.
  revert st. induction items as [|[path label] items IH]; intros st H; [done|].
  rewrite load_loop_cons.
  destruct st as [[features labels] skipped]. simpl.
  assert (∀ path label array,
            (path, label) ∈ items →
            Data.preprocess_path W path Data.DEFAULT_IMAGE_SIZE = Ok array →
            is_ok (featurize_image N array fc) = true
            ∧ is_ok (Py.dict_get Data.CLASS_TO_INDEX label) = true) as H'
    by (intros ? ? ? Hin; apply H; by right).
  destruct (Data.preprocess_path W path Data.DEFAULT_IMAGE_SIZE) as [array|e]
    eqn:E; simpl; [|by apply IH].
  destruct (H path label array) as [Hf Hl]; [by left|done|].
  destruct (featurize_image N array fc); [|done].
  destruct (Py.dict_get Data.CLASS_TO_INDEX label); [|done].
  simpl. by apply IH.
Qed.

Lemma load_loop_rows fc items features labels skipped features' labels' skipped' :
  load_loop fc (Ok ((features, labels), skipped)) items
  = Ok ((features', labels'), skipped') →
  length features' + length labels = length labels' + length features.
Proof.
  revert features labels skipped.
  induction items as [|[path label] items IH]; intros features labels skipped.
  { intros [= <- <- <-]. lia. }
  rewrite load_loop_cons. cbn [mbind result_bind eval_sample].
  destruct (Data.preprocess_path W path Data.DEFAULT_IMAGE_SIZE) as [array|e].
  - destruct (featurize_image N array fc) as [v|e]; simpl;
      [|by rewrite load_loop_Raise].
    destruct (Py.dict_get Data.CLASS_TO_INDEX label) as [index|e]; simpl;
      [|by rewrite load_loop_Raise].
    intros H. apply IH in H. rewrite !length_app in H. simpl in H. lia.
  - intros H. by apply IH in H.
Qed.


(** When [_load_features_from_manifest] returns, the skip count is the
    number of samples [preprocess_path] rejected, every other sample has
    one feature row and one label, in step, and no sample is lost: rows
    plus skipped samples are the samples given. *)
Theorem load_features_counts (items : list (PathLib.Path * string))
    (fc : FeatureConfig) (X : list (list Q)) (y : list Z) (skipped : nat) :
  _load_features_from_manifest N W items fc = Ok (X, y, skipped) →
  skipped = length (filter (λ item, undecodable item = true) items)
  ∧ length X = length y
  ∧ length X + skipped = length items.
Proof.
  unfold _load_features_from_manifest.
  fold (load_loop fc (Ok (([], []), 0)) items).
  destruct (load_loop _ _ _) as [[[features labels] sk]|e] eqn:E; [|done].
  cbn [mbind result_bind]. destruct features as [|v features]; [done|].
  intros [= <- <- <-].
  pose proof (load_loop_rows _ _ _ _ _ _ _ _ E) as Hrows.
  apply load_loop_Ok in E as [-> Hlen]. simpl in *. split_and!; lia.
Qed.
End Builders.


Lemma load_features_counts_witness :
  ∃ X y skipped,
    _load_features_from_manifest Examples.exact_edges
      (Examples.uniform_world Examples.small_repo)
      [("/repo/data/raw/cats/a.jpg", "cat"); ("/repo/data/raw/dogs/d.jpg", "dog")]
      {| bins := 8 |}
    = Ok (X, y, skipped)
    ∧ length X = length y ∧ length X + skipped = 2.
Proof.
  assert (is_ok (_load_features_from_manifest Examples.exact_edges
                   (Examples.uniform_world Examples.small_repo)
                   [("/repo/data/raw/cats/a.jpg", "cat");
                    ("/repo/data/raw/dogs/d.jpg", "dog")]
                   {| bins := 8 |}) = true) as Hok by (lazy; reflexivity).
  destruct (_load_features_from_manifest _ _ _ _) as [[[X y] skipped]|e] eqn:E;
    [|discriminate].
  exists X, y, skipped. split; [done|].
  by destruct (load_features_counts _ _ _ _ _ _ _ E) as (_ & ? & ?).
Defined.

(** C6: the code diverges from the claim.  In
    [_load_features_from_manifest] only [preprocess_path] is inside the
    [try]: for two samples that both decode and preprocess, a
    featurization error (here a bin count of 0) is not counted as a
    skipped sample and the loop does not go on; it leaves the function as
    numpy's [ValueError], and so does the [KeyError] of an unknown label.
    On the same input [_build_features], whose [try] spans the whole
    sample, swallows the featurization errors and ends with its own "no
    valid samples" error. *)
Lemma featurize_error_propagates :
  is_ok (Data.preprocess_path (Examples.uniform_world Examples.small_repo)
           "/repo/data/raw/cats/a.jpg" Data.DEFAULT_IMAGE_SIZE) = true
  ∧ is_ok (Data.preprocess_path (Examples.uniform_world Examples.small_repo)
             "/repo/data/raw/cats/b.jpg" Data.DEFAULT_IMAGE_SIZE) = true
  ∧ _load_features_from_manifest Examples.exact_edges
      (Examples.uniform_world Examples.small_repo)
      [("/repo/data/raw/cats/a.jpg", "cat"); ("/repo/data/raw/cats/b.jpg", "cat")]
      {| bins := 0 |}
    = Raise (ValueError "`bins` must be positive")
  ∧ _load_features_from_manifest Examples.exact_edges
      (Examples.uniform_world Examples.small_repo)
      [("/repo/data/raw/cats/a.jpg", "bird")] {| bins := 8 |}
    = Raise (KeyError "bird")
  ∧ _build_features Examples.exact_edges
      (Examples.uniform_world Examples.small_repo) (λ image _, Ok image)
      [("/repo/data/raw/cats/a.jpg", "cat"); ("/repo/data/raw/cats/b.jpg", "cat")]
      {| bins := 0 |} false 0 42
    = Raise (ValueError "No valid samples available after preprocessing.").
Proof. split_and!; lazy; reflexivity. Qed.

End FeaturesFacts.

(** ** Inference *)

Module PredictFacts.
Import Model Predict.

(** [best] is the index of the first maximum of [scores]. *)
Definition is_first_max (scores : list Q) (best : nat) : Prop :=
  ∃ m, scores !! best = Some m
       ∧ (∀ j x, scores !! j = Some x → (x <= m)%Q)
       ∧ (∀ j x, j < best → scores !! j = Some x → (x < m)%Q).

Lemma argmax_from_first_max (pre rest : list Q) (best : nat) (mp : Q) :
  pre !! best = Some mp →
  (∀ j x, pre !! j = Some x → (x <= mp)%Q) →
  (∀ j x, j < best → pre !! j = Some x → (x < mp)%Q) →
  is_first_max (pre ++ rest) (Py.argmax_from best mp (length pre) rest).
Proof.
  revert pre best mp.
  induction rest as [|x rest IH]; intros pre best mp Hbest Hmax Hfirst.
  { simpl. rewrite app_nil_r. by exists mp. }
  assert (best < length pre) as Hlt by (by eapply lookup_lt_Some).
  replace (pre ++ x :: rest) with ((pre ++ [x]) ++ rest)
    by (by rewrite <-app_assoc).
  cbn [Py.argmax_from].
  replace (S (length pre)) with (length (pre ++ [x]))
    by (rewrite length_app; simpl; lia).
  destruct (Qle_bool x mp) eqn:E; cbn [negb].
  - apply Qle_bool_iff in E. apply IH.
    + by apply lookup_app_l_Some.
    + intros j y [Hj|[_ Hj]]%lookup_app_Some; [by eapply Hmax|].
      apply list_lookup_singleton_Some in Hj as [_ <-]. done.
    + intros j y Hj [Hy|[Hlen _]]%lookup_app_Some; [by eapply Hfirst|lia].
  - assert (mp < x)%Q as Hx.
    { apply Qnot_le_lt. intros H. apply Qle_bool_iff in H. congruence. }
    apply IH.
    + rewrite lookup_app_r by lia. by rewrite Nat.sub_diag.
    + intros j y [Hj|[_ Hj]]%lookup_app_Some.
      * apply Qlt_le_weak. eapply Qle_lt_trans; [by eapply Hmax|done].
      * apply list_lookup_singleton_Some in Hj as [_ <-]. apply Qle_refl.
    + intros j y Hj [Hy|[Hlen _]]%lookup_app_Some; [|lia].
      eapply Qle_lt_trans; [by eapply Hmax|done].
Qed.

(** [np.argmax] returns the lowest index that holds the maximum. *)
Lemma np_argmax_first_max (scores : list Q) (best : nat) :
  Py.np_argmax scores = Ok best → is_first_max scores best.
Proof.
  destruct scores as [|x rest]; [done|]. intros [= <-].
  apply (argmax_from_first_max [x] rest 0 x); [done| |intros; lia].
  intros j y Hj. apply list_lookup_singleton_Some in Hj as [_ <-].
  apply Qle_refl.
Qed.

(** [proba[0]] after [if proba.ndim == 1: proba = proba.reshape(1, -1)] *)
Definition scores_of (proba : Py.ndarray) : result (list Q) :=
  first_row (if (Py.ndim proba =? 1)%nat
             then {| Py.shape := [1; length (Py.data proba)];
                     Py.data := Py.data proba |}
             else proba).

Lemma dummy_proba (to_proba : Py.ndarray → result Py.ndarray)
    (features : list Q) :
  _predict_proba to_proba
    (Examples.DummyClassifier [0.2%float; 0.8%float] [0%Z; 1%Z]) features
  = Ok {| Py.shape := [1; 2];
          Py.data := [13421773 # 67108864; 13421773 # 16777216]%Q |}.
Proof. vm_compute. reflexivity. Qed.

Section Predictor.
Context (N : Py.Binning).
Context (W : PIL.World).
Context (_scores_to_proba : Py.ndarray → result Py.ndarray).

Lemma predict_image_inv (bundle : ModelBundle) (image : PIL.Image W)
    (res : PredictionResult) :
  predict_image N W _scores_to_proba bundle image = Ok res →
  ∃ array features proba scores best,
    _preprocess_for_inference W image (preprocess_config bundle) = Ok array
    ∧ featurize_image N array (feature_config bundle) = Ok features
    ∧ _predict_proba _scores_to_proba (classifier bundle) features = Ok proba
    ∧ scores_of proba = Ok scores
    ∧ Py.np_argmax scores = Ok best
    ∧ _resolve_class_labels bundle (classifier bundle) (length scores) !! best
      = Some (label res)
    ∧ scores !! best = Some (probability res)
    ∧ probabilities res
      = foldl (λ d '(label, score), Py.dict_set d label score) []
          (zip (_resolve_class_labels bundle (classifier bundle)
                  (length scores)) scores).
Proof.
  unfold predict_image. fold scores_of.
  destruct (_preprocess_for_inference W image _) as [array|e] eqn:E1; [|done].
  cbn [mbind result_bind].
  destruct (featurize_image N array _) as [features|e] eqn:E2; [|done].
  cbn [mbind result_bind].
  destruct (_predict_proba _ _ features) as [proba|e] eqn:E3; [|done].
  cbn [mbind result_bind]. fold (scores_of proba).
  destruct (scores_of proba) as [scores|e] eqn:E4; [|done].
  cbn [mbind result_bind].
  destruct (Py.np_argmax scores) as [best|e] eqn:E5; [|done].
  cbn [mbind result_bind].
  destruct (_resolve_class_labels _ _ _ !! best) as [l|] eqn:El; [|done].
  cbn [from_option mbind result_bind].
  destruct (scores !! best) as [p|] eqn:Ep; [|done].
  cbn [from_option mbind result_bind].
  intros [= <-]. exists array, features, proba, scores, best.
  split_and!; done.
Qed.

(** C7.  When [predict_image] returns, the label is the resolved label at
    the index of the first maximum of the classifier's probabilities (ties
    go to the lowest index) and the probability is the entry at that index.
    In particular, with the dummy classifier of the tests, which returns
    [0.2, 0.8] for the classes [0, 1], and a bundle mapping 0 to cat and 1
    to dog, every image that preprocesses to an (H, W, 3) array is labelled
    dog with a probability within 1e-6 of 0.8. *)
Theorem stable_argmax (bundle : ModelBundle) (image : PIL.Image W) :
  (∀ res, predict_image N W _scores_to_proba bundle image = Ok res →
     ∃ features proba scores best,
       _predict_proba _scores_to_proba (classifier bundle) features = Ok proba
       ∧ scores_of proba = Ok scores
       ∧ is_first_max scores best
       ∧ _resolve_class_labels bundle (classifier bundle) (length scores)
           !! best = Some (label res)
       ∧ scores !! best = Some (probability res))
  ∧ (classifier bundle
       = Examples.DummyClassifier [0.2%float; 0.8%float] [0%Z; 1%Z] →
     index_to_class bundle !! 0%Z = Some "cat" →
     index_to_class bundle !! 1%Z = Some "dog" →
     (1 ≤ bins (feature_config bundle))%Z →
     ∀ array h w,
       _preprocess_for_inference W image (preprocess_config bundle)
         = Ok array →
       Py.shape array = [h; w; 3] →
       ∃ res, predict_image N W _scores_to_proba bundle image = Ok res
              ∧ label res = "dog"
              ∧ (Qabs (probability res - (8 # 10)) <= 1 # 1000000)%Q
              ∧ probabilities res
                = [("cat", 13421773 # 67108864); ("dog", 13421773 # 16777216)]%Q).
Proof.
  split.
  - intros res (array & features & proba & scores & best & _ & _ & Hp & Hs
                & Hb & Hl & Hpr & _)%predict_image_inv.
    exists features, proba, scores, best. split_and!; try done.
    by apply np_argmax_first_max.
  - intros Hc Hcat Hdog Hbins array h w Hpre Hshape.
    unfold predict_image. rewrite Hpre. cbn [mbind result_bind].
    unfold featurize_image, extract_color_histogram. rewrite Hshape.
    rewrite !ModelFacts.channel_histogram_Ok by done.
    cbn [mbind result_bind]. rewrite Hc, dummy_proba.
    cbn [mbind result_bind]. cbn -[_resolve_class_labels].
    assert (_resolve_class_labels bundle
              (Examples.DummyClassifier [0.2%float; 0.8%float] [0%Z; 1%Z]) 2
            = ["cat"; "dog"]) as ->.
    { unfold _resolve_class_labels. cbn. by rewrite Hcat, Hdog. }
    eexists. split; [reflexivity|]. split_and!; [done| |done].
    vm_compute. by intros [=].
Qed.

(** C8.  [predict_bytes] rejects an empty payload with the "empty payload"
    error before anything else; a payload that is not empty and is not
    identified as an image ends with the decoder's error; and a payload
    whose identified image cannot be loaded or resized ends with that
    error.  None of them returns a prediction. *)
Theorem payload_rejection (bundle : ModelBundle) :
  predict_bytes N W _scores_to_proba bundle []
    = Raise (ValueError "Empty image payload.")
  ∧ (∀ payload, payload ≠ [] → PIL.identify_bytes W payload = None →
       predict_bytes N W _scores_to_proba bundle payload
       = Raise UnidentifiedImageError)
  ∧ (∀ payload image e, payload ≠ [] →
       PIL.identify_bytes W payload = Some image →
       Data.preprocess_image W image (image_size (preprocess_config bundle))
         = Raise e →
       predict_bytes N W _scores_to_proba bundle payload = Raise e).
Proof.
  split_and!; [done|..].
  - intros [|b payload] Hne Hid; [done|].
    unfold predict_bytes, PIL.open_bytes. by rewrite Hid.
  - intros [|b payload] image e Hne Hid Hpre; [done|].
    unfold predict_bytes, PIL.open_bytes. rewrite Hid. cbn [mbind result_bind].
    unfold predict_image, _preprocess_for_inference. by rewrite Hpre.
Qed.
End Predictor.

Lemma stable_argmax_witness :
  ∃ res, predict_image Examples.exact_edges (Examples.uniform_world []) Ok Examples.test_bundle
           Examples.red_image = Ok res
         ∧ label res = "dog"
         ∧ (Qabs (probability res - (8 # 10)) <= 1 # 1000000)%Q
         ∧ probabilities res
           = [("cat", 13421773 # 67108864); ("dog", 13421773 # 16777216)]%Q.
Proof.
  destruct (stable_argmax Examples.exact_edges (Examples.uniform_world []) Ok Examples.test_bundle
              Examples.red_image) as [_ H].
  eapply H; [reflexivity|reflexivity|reflexivity|simpl; lia|reflexivity
            |reflexivity].
Defined.

Lemma payload_rejection_witness :
  predict_bytes Examples.exact_edges (Examples.uniform_world []) Ok Examples.test_bundle []
    = Raise (ValueError "Empty image payload.")
  ∧ predict_bytes Examples.exact_edges (Examples.uniform_world []) Ok Examples.test_bundle
      [Byte.x49; Byte.x4d]
    = Raise UnidentifiedImageError.
Proof.
  destruct (payload_rejection Examples.exact_edges (Examples.uniform_world []) Ok
              Examples.test_bundle) as (H1 & H2 & _).
  split; [exact H1|]. apply H2; [discriminate|reflexivity].
Defined.

End PredictFacts.

(** ** Further properties of the split *)

Module SplitOrder.
Import PathLib Data PyFacts SplitFacts.

Definition path_le (a b : Path * string) : Prop :=
  String.leb (as_posix a.1) (as_posix b.1) = true.

Lemma split_counts_lookup (ratios ratios' : Py.dict float) (total : nat) :
  Py.dict_find ratios "train" = Py.dict_find ratios' "train" →
  Py.dict_find ratios "val" = Py.dict_find ratios' "val" →
  split_counts ratios total = split_counts ratios' total.
Proof.
  intros Ht Hv. unfold split_counts, Py.dict_get. by rewrite Ht, Hv.
Qed.

(** Each of the three lists [_stratified_split] returns is in ascending
    order of the path text, whatever the generator did to the classes. *)
Theorem split_lists_sorted (R : Py.Rng) (pbl : gmap string (list Path))
    (seed : Z) (ratios : Py.dict float) (s : splits) :
  _stratified_split R pbl seed ratios = Ok s →
  StronglySorted path_le (train s)
  ∧ StronglySorted path_le (val s)
  ∧ StronglySorted path_le (test s).
Proof.
  unfold _stratified_split.
  destruct (foldl _ _ _) as [s0|e]; [|done]. intros [= <-].
  split_and!; apply (sorted_StronglySorted (λ item, as_posix item.1)).
Qed.

Lemma split_lists_sorted_witness :
  ∃ s, _stratified_split Examples.lcg Examples.four_cats_two_dogs 1337
         Examples.halves = Ok s
       ∧ StronglySorted path_le (train s).
Proof.
  destruct (_stratified_split Examples.lcg Examples.four_cats_two_dogs 1337
              Examples.halves) as [s|e] eqn:E; [|by vm_compute in E].
  exists s. split; [done|].
  exact (proj1 (split_lists_sorted Examples.lcg Examples.four_cats_two_dogs
                  1337 Examples.halves s E)).
Defined.

(** The split reads only the [train] and [val] ratios: two ratio dicts
    that agree on these two keys give the same split, so the [test] entry,
    present or not, has no effect. *)
Theorem test_ratio_unused (R : Py.Rng) (pbl : gmap string (list Path))
    (seed : Z) (ratios ratios' : Py.dict float) :
  Py.dict_find ratios "train" = Py.dict_find ratios' "train" →
  Py.dict_find ratios "val" = Py.dict_find ratios' "val" →
  _stratified_split R pbl seed ratios = _stratified_split R pbl seed ratios'.
Proof.
  intros Ht Hv. unfold _stratified_split. f_equal.
  apply foldl_pointwise. intros r label. destruct r as [acc|e]; [|done].
  simpl. unfold split_class.
  by rewrite (split_counts_lookup ratios ratios').
Qed.

Lemma test_ratio_unused_witness :
  _stratified_split Examples.lcg Examples.four_cats_two_dogs 1337
    Examples.halves
  = _stratified_split Examples.lcg Examples.four_cats_two_dogs 1337
      [("val", 0.25%float); ("train", 0.5%float)].
Proof.
  apply (test_ratio_unused Examples.lcg Examples.four_cats_two_dogs 1337
           Examples.halves [("val", 0.25%float); ("train", 0.5%float)]);
    reflexivity.
Defined.

End SplitOrder.

(** ** Further properties of discovery *)

Module RootFacts.
Import PathLib Data DiscoveryFacts.

Lemma scan_label_app (later earlier : list string) :
  scan_label (later ++ earlier)
  = match scan_label later with
    | Some label => Some label
    | None => scan_label earlier
    end.
Proof.
  induction later as [|part later IH]; [done|].
  rewrite <-app_comm_cons, !scan_label_cons.
  by destruct (segment_label part).
Qed.

(** The label of a path made of a prefix and further segments is the label
    of the further segments when they have one, and the label of the prefix
    otherwise: this is how a file below a directory such as [dogs] is
    labelled [dog] although its own name matches nothing. *)
Theorem infer_label_app (prefix rest : list string) :
  _infer_label_from_parts (prefix ++ rest)
  = match _infer_label_from_parts rest with
    | Some label => Some label
    | None => _infer_label_from_parts prefix
    end.
Proof. unfold _infer_label_from_parts. by rewrite rev_app_distr, scan_label_app. Qed.

(** The root [_find_dataset_root] returns has class directories; it is the
    raw directory itself whenever that has them, and otherwise the first
    entry below it, in scan order, that has them.  It fails exactly when
    the raw directory is missing or nothing at or below it has class
    directories. *)
Theorem find_dataset_root_first (t : fs) (raw_dir : Path) :
  match _find_dataset_root t raw_dir with
  | Ok root =>
      exists_ t raw_dir = true
      ∧ _has_class_dirs t root = true
      ∧ (root = raw_dir
         ∨ (_has_class_dirs t raw_dir = false
            ∧ ∃ before after,
                rglob t raw_dir = before ++ root :: after
                ∧ Forall (λ c, _has_class_dirs t c = false) before))
  | Raise e =>
      (exists_ t raw_dir = false
       ∧ e = FileNotFoundError "Raw data directory does not exist")
      ∨ (exists_ t raw_dir = true
         ∧ _has_class_dirs t raw_dir = false
         ∧ Forall (λ c, _has_class_dirs t c = false) (rglob t raw_dir)
         ∧ e = FileNotFoundError "Could not find class directories")
  end.
Proof.
  unfold _find_dataset_root.
  destruct (exists_ t raw_dir) eqn:Ee; cbn [negb]; [|by left].
  destruct (_has_class_dirs t raw_dir) eqn:Eh; [by auto|].
  generalize (rglob t raw_dir). intros l.
  induction l as [|c l IH]; cbn [List.find].
  { right. by split_and!. }
  destruct (_has_class_dirs t c) eqn:Ec.
  { split_and!; try done. right. split; [done|]. by exists [], l. }
  destruct (List.find _ l) as [root|].
  - destruct IH as (_ & Hr & [->|(_ & before & after & -> & Hb)]);
      [congruence|].
    split_and!; try done. right. split; [done|].
    exists (c :: before), after. split; [done|]. by constructor.
  - destruct IH as [[? _]|(_ & _ & HF & _)]; [done|].
    right. split_and!; try done. by constructor.
Qed.

End RootFacts.

(** ** What discovery collects *)

Module CollectFacts.
Import PathLib Data DiscoveryFacts.

















End CollectFacts.

(** ** Value ranges and the features of a preprocessed image *)

Module RangeFacts.
Import Model Float32Facts.

Lemma round_half_even_nonneg (x : Q) :
  (0 <= x)%Q → (0 ≤ Py.round_half_even x)%Z.
Proof.
  intros Hx. unfold Py.round_half_even.
  assert (0 ≤ Qfloor x)%Z as Hf.
  { change 0%Z with (Qfloor 0). by apply Qfloor_resp_le. }
  destruct (_ ?= _)%Q; [destruct (Z.even _)|..]; lia.
Qed.

Lemma round_half_even_le (x : Q) (M : Z) :
  (x <= inject_Z M)%Q → (Py.round_half_even x ≤ M)%Z.
Proof.
  intros Hx. unfold Py.round_half_even.
  assert (Qfloor x ≤ M)%Z as Hf.
  { rewrite <-(Qfloor_Z M). by apply Qfloor_resp_le. }
  assert ((1 # 2) <= x - inject_Z (Qfloor x) → Qfloor x + 1 ≤ M)%Q%Z as Hhalf.
  { intros H.
    assert (inject_Z (Qfloor x) + (1 # 2) <= inject_Z M)%Q as H'.
    { eapply Qle_trans; [|exact Hx].
      apply (Qplus_le_r _ _ (- inject_Z (Qfloor x))). ring_simplify.
      eapply Qle_trans; [exact H|]. ring_simplify. apply Qle_refl. }
    revert H'. unfold Qle, Qplus, inject_Z. simpl. lia. }
  destruct (_ ?= _)%Q eqn:E.
  - apply Qeq_alt in E. destruct (Z.even _); [done|].
    apply Hhalf. rewrite E. apply Qle_refl.
  - done.
  - apply Qgt_alt in E. apply Hhalf. by apply Qlt_le_weak.
Qed.

Lemma round_half_even_small (x : Q) :
  (0 <= x)%Q → (x <= 1 # 2)%Q → Py.round_half_even x = 0%Z.
Proof.
  intros H0 H1. unfold Py.round_half_even.
  assert (Qfloor x = 0%Z) as ->.
  { assert (0 ≤ Qfloor x)%Z
      by (change 0%Z with (Qfloor 0); by apply Qfloor_resp_le).
    assert (Qfloor x ≤ Qfloor (1 # 2))%Z as Hhalf by (by apply Qfloor_resp_le).
    change (Qfloor (1 # 2)) with 0%Z in Hhalf. lia. }
  destruct (_ ?= _)%Q eqn:E; [done|done|].
  apply Qgt_alt in E. exfalso. apply (Qlt_not_le _ _ E).
  eapply Qle_trans; [|exact H1]. ring_simplify. apply Qle_refl.
Qed.

(** Rounding to float32 keeps a value of [[0, 1]] within [[0, 1]]. *)
Lemma round_f32_unit (q : Q) :
  (0 <= q)%Q → (q <= 1)%Q → (0 <= Py.round_f32 q)%Q ∧ (Py.round_f32 q <= 1)%Q.
Proof.
  intros H0 H1. unfold Py.round_f32.
  destruct (Qeq_bool q 0); [done|].
  rewrite (proj2 (Qle_bool_iff 0 q)) by done.
  rewrite Qabs_nonneg_eq by done.
  generalize (Z.max (Py.ilog2 q) (-126) - 23)%Z. intros k.
  rewrite Qred_correct.
  pose proof (pow2_pos k) as Hu.
  assert (0 <= q / Py.pow2 k)%Q as Hx.
  { apply Qle_shift_div_l; [done|]. by ring_simplify. }
  split.
  { apply Qmult_le_0_compat; [|by apply Qlt_le_weak].
    change 0%Q with (inject_Z 0). rewrite <-Zle_Qle.
    by apply round_half_even_nonneg. }
  destruct k as [|p|p].
  - change (Py.pow2 0) with 1%Q in *.
    assert (Py.round_half_even (q / 1) ≤ 1)%Z as Hn.
    { apply round_half_even_le. apply Qle_shift_div_r; [done|].
      by ring_simplify. }
    rewrite Qmult_1_r. change 1%Q with (inject_Z 1). by rewrite <-Zle_Qle.
  - assert (Py.round_half_even (q / Py.pow2 (Z.pos p)) = 0%Z) as ->.
    { apply round_half_even_small; [done|].
      apply Qle_shift_div_r; [done|].
      eapply Qle_trans; [exact H1|]. unfold Py.pow2.
      rewrite Z.shiftl_1_l. unfold Qle, Qmult, inject_Z. simpl.
      pose proof (Z.pow_le_mono_r 2 1 (Z.pos p)). lia. }
    by rewrite Qmult_0_l.
  - unfold Py.pow2 in *. set (M := Pos.shiftl 1 (N.pos p)) in *.
    assert (Py.round_half_even (q / (1 # M)) ≤ Z.pos M)%Z as Hn.
    { apply round_half_even_le. apply Qle_shift_div_r; [done|].
      eapply Qle_trans; [exact H1|].
      unfold Qle, Qmult, inject_Z. simpl. lia. }
    revert Hn. generalize (Py.round_half_even (q / (1 # M))). intros n Hn.
    unfold Qle, Qmult, inject_Z. simpl. lia.
Qed.

Definition eight_bit (v : Q) : Prop := (0 <= v)%Q ∧ (v <= 255)%Q.
Definition unit_range (v : Q) : Prop := (0 <= v)%Q ∧ (v <= 1)%Q.

Lemma scaled_unit_range (v : Q) :
  eight_bit v → unit_range (Py.round_f32 (v / 255)).
Proof.
  intros [H0 H1]. apply round_f32_unit.
  - apply Qle_shift_div_l; [done|]. by ring_simplify.
  - apply Qle_shift_div_r; [done|]. by ring_simplify.
Qed.

(** Where the pixel array of every resized image holds values within
    0..255, as the arrays of 8-bit images do, every value [preprocess_image]
    returns lies within [[0, 1]], also after the rounding to float32. *)
Theorem preprocess_image_unit_range (W : PIL.World) (image : PIL.Image W)
    (size : nat * nat) (array : Py.ndarray) :
  (∀ rgb resized,
     PIL.resize W rgb size = Some resized →
     Forall eight_bit (Py.data (PIL.asarray W resized))) →
  Data.preprocess_image W image size = Ok array →
  Forall unit_range (Py.data array).
Proof.
  intros Hpixels. unfold Data.preprocess_image.
  destruct (if negb _ then _ else _) as [rgb|e]; [|done].
  cbn [mbind result_bind].
  destruct (PIL.resize W rgb size) as [resized|] eqn:Er; [|done].
  cbn [PIL.decoded mbind result_bind]. intros [= <-]. cbn [Py.data].
  apply Forall_fmap. eapply Forall_impl; [by eapply Hpixels|].
  intros v Hv. by apply scaled_unit_range.
Qed.

(** Images of one colour with 8-bit channels, which resizing keeps. *)
Definition solid_world : PIL.World :=
  {| PIL.Image := (nat * nat) * (Byte.byte * Byte.byte * Byte.byte);
     PIL.identify_file := λ _, None;
     PIL.identify_bytes := λ _, None;
     PIL.mode := λ _, "RGB";
     PIL.convert := λ image _, Some image;
     PIL.resize := λ image size, Some (size, image.2);
     PIL.asarray := λ image,
       let '((w, h), (r, g, b)) := image in
       let chan c := inject_Z (Z.of_N (Byte.to_N c)) in
       {| Py.shape := [h; w; 3];
          Py.data := mjoin (replicate (h * w) [chan r; chan g; chan b]) |} |}.

Lemma eight_bit_byte (c : Byte.byte) :
  eight_bit (inject_Z (Z.of_N (Byte.to_N c))).
Proof.
  pose proof (Byte.to_N_bounded c) as H. unfold eight_bit.
  change 0%Q with (inject_Z 0). change 255%Q with (inject_Z 255).
  rewrite <-!Zle_Qle. lia.
Qed.

Lemma preprocess_image_unit_range_witness :
  ∃ array,
    Data.preprocess_image solid_world
      ((128, 128), (Byte.xff, Byte.x80, Byte.x00)) (1, 1) = Ok array
    ∧ Forall unit_range (Py.data array).
Proof.
  eexists. split; [reflexivity|].
  eapply (preprocess_image_unit_range solid_world
            ((128, 128), (Byte.xff, Byte.x80, Byte.x00)) (1, 1));
    [|reflexivity].
  intros rgb resized [= <-]. destruct rgb as [sz [[r g] b]]. simpl.
  repeat constructor; apply eight_bit_byte.
Defined.

End RangeFacts.

(** ** Outcomes of the feature extractor *)

Module HistogramFacts.
Import Model ModelFacts RangeFacts.

Lemma length_omap_total {A B} (f : A → option B) (l : list A) :
  Forall (λ x, is_Some (f x)) l → length (omap f l) = length l.
Proof.
  induction 1 as [|x l [y Hy] _ IH]; [done|].
  cbn [omap list_omap]. rewrite Hy. simpl. by f_equal.
Qed.

Lemma Forall_omap_lookup {A} (P : A → Prop) (data : list A) (f : nat → nat)
    (l : list nat) :
  Forall P data → Forall P (omap (λ i, data !! f i) l).
Proof.
  intros HP. induction l as [|i l IH]; [constructor|].
  cbn [omap list_omap]. destruct (data !! f i) as [v|] eqn:E; [|done].
  constructor; [|done]. rewrite Forall_forall in HP. apply HP.
  by eapply list_elem_of_lookup_2.
Qed.

Lemma length_channel_values (a : Py.ndarray) (h w c : nat) :
  Py.shape a = [h; w; 3] → length (Py.data a) = 3 * (h * w) → c < 3 →
  length (channel_values a c) = h * w.
Proof.
  intros Hs Hl Hc. unfold channel_values. rewrite Hs.
  rewrite length_omap_total; [by rewrite length_seq|].
  apply Forall_forall. intros i Hi%elem_of_seq.
  apply lookup_lt_is_Some. lia.
Qed.

Lemma Forall_channel_values (P : Q → Prop) (a : Py.ndarray) (c : nat) :
  Forall P (Py.data a) → Forall P (channel_values a c).
Proof.
  intros HP. unfold channel_values.
  destruct (Py.shape a) as [|h [|w [|d [|]]]]; try constructor.
  by apply (Forall_omap_lookup P (Py.data a) (λ i, 3 * i + c)).
Qed.

Lemma in_range_unit_range (v : Q) : in_range v = true ↔ unit_range v.
Proof.
  unfold in_range, unit_range. rewrite andb_true_iff. by rewrite !Qle_bool_iff.
Qed.

Lemma in_range_count_all (values : list Q) :
  Forall unit_range values → in_range_count values = length values.
Proof.
  unfold in_range_count. induction 1 as [|v values Hv _ IH]; [done|].
  simpl. apply in_range_unit_range in Hv as ->. simpl. by f_equal.
Qed.

(** For a well-formed, non-empty (H, W, 3) array of at most 2^24 pixels
    whose values all lie within [[0, 1]] (what [preprocess_image] returns
    for an 8-bit image) and a bin count of at least 1, no value is left out
    of the histogram: the features are three blocks, each of which sums to
    1 within 1e-6. *)
Theorem unit_range_blocks (N : Py.Binning) (a : Py.ndarray) (bins : Z)
    (h w : nat) :
  Py.shape a = [h; w; 3] → length (Py.data a) = 3 * (h * w) → 0 < h * w →
  (Z.of_nat (h * w) ≤ 16777216)%Z →
  Forall unit_range (Py.data a) → (1 ≤ bins)%Z →
  ∃ red green blue,
    extract_color_histogram N a bins = Ok (red ++ green ++ blue)
    ∧ (Qabs (qsum red - 1) <= 1 # 1000000)%Q
    ∧ (Qabs (qsum green - 1) <= 1 # 1000000)%Q
    ∧ (Qabs (qsum blue - 1) <= 1 # 1000000)%Q.
Proof.
  intros Hs Hl Hpos Hsize Hunit Hbins.
  assert (∀ c, c < 3 →
            (Qabs (qsum (normalised
                           (counts N (Z.to_nat bins) (channel_values a c)))
                   - 1) <= 1 # 1000000)%Q) as Hsum.
  { intros c Hc.
    assert (sum_list (counts N (Z.to_nat bins) (channel_values a c)) = h * w)
      as Hall.
    { rewrite sum_list_counts by lia.
      rewrite in_range_count_all by (by apply Forall_channel_values).
      by rewrite (length_channel_values a h w c). }
    apply qsum_normalised; rewrite Hall; lia. }
  eexists _, _, _. split.
  - unfold extract_color_histogram. rewrite Hs.
    rewrite !channel_histogram_Ok by done. reflexivity.
  - split_and!; apply Hsum; lia.
Qed.

Lemma unit_range_blocks_witness :
  ∃ red green blue,
    extract_color_histogram Examples.exact_edges
      {| Py.shape := [1; 2; 3];
         Py.data := [1; 0; 1 # 2; 1 # 4; 0; 1]%Q |} 2
    = Ok (red ++ green ++ blue)
    ∧ (Qabs (qsum red - 1) <= 1 # 1000000)%Q
    ∧ (Qabs (qsum green - 1) <= 1 # 1000000)%Q
    ∧ (Qabs (qsum blue - 1) <= 1 # 1000000)%Q.
Proof.
  apply (unit_range_blocks Examples.exact_edges
           {| Py.shape := [1; 2; 3];
              Py.data := [1; 0; 1 # 2; 1 # 4; 0; 1]%Q |} 2 1 2).
  - reflexivity.
  - reflexivity.
  - simpl; lia.
  - simpl; lia.
  - repeat constructor; by vm_compute.
  - lia.
Defined.

Definition rank3_rgb (a : Py.ndarray) : Prop :=
  ∃ h w, Py.shape a = [h; w; 3].

(** [featurize_image] returns exactly for an array of shape (H, W, 3) and a
    bin count of at least 1, and then the feature vector has three times
    [bins] entries; another shape is rejected first, with the shape error,
    and a bin count below 1 with the error of [np.histogram]. *)
Theorem featurize_image_outcome (N : Py.Binning) (a : Py.ndarray)
    (config : FeatureConfig) :
  match featurize_image N a config with
  | Ok features =>
      rank3_rgb a ∧ (1 ≤ bins config)%Z
      ∧ length features = 3 * Z.to_nat (bins config)
  | Raise e =>
      (¬ rank3_rgb a ∧ e = ValueError "Expected image array shape (H, W, 3)")
      ∨ (rank3_rgb a ∧ (bins config < 1)%Z
         ∧ e = ValueError "`bins` must be positive")
  end.
Proof.
  unfold featurize_image, extract_color_histogram, rank3_rgb.
  destruct (Py.shape a) as [|h [|w [|[|[|[|[|d]]]] [|]]]];
    try (left; split; [by intros (? & ? & [=])|done]).
  destruct (Z.ltb_spec (bins config) 1) as [Hb|Hb].
  - unfold channel_histogram, Py.np_histogram.
    rewrite (proj2 (Z.ltb_lt _ _)) by done. right. by eauto.
  - rewrite !channel_histogram_Ok by done. cbn [mbind result_bind].
    split_and!; [by eauto|done|].
    rewrite !length_app, !length_normalised, !length_counts. lia.
Qed.

End HistogramFacts.

(** ** Further properties of inference *)

Module InferenceFacts.
Import Model Predict PredictFacts.

Lemma dict_set_fresh {V} (d : Py.dict V) (k : string) (v : V) :
  k ∉ d.*1 → Py.dict_set d k v = d ++ [(k, v)].
Proof.
  induction d as [|[k' v'] d IH]; [done|]. csimpl.
  intros [Hne Hd]%not_elem_of_cons.
  rewrite (proj2 (String.eqb_neq k k')) by done. by rewrite IH.
Qed.

Lemma foldl_dict_set_NoDup {V} (d : Py.dict V) (l : list (string * V)) :
  NoDup (d.*1 ++ l.*1) →
  foldl (λ d '(k, v), Py.dict_set d k v) d l = d ++ l.
Proof.
  revert d. induction l as [|[k v] l IH]; intros d Hnd.
  { by rewrite app_nil_r. }
  cbn [foldl]. rewrite dict_set_fresh.
  2: { csimpl in Hnd. apply NoDup_app in Hnd as (_ & Hd & _).
       intros Hin. apply (Hd k Hin). by left. }
  rewrite IH; [by rewrite <-app_assoc|].
  rewrite fmap_app. csimpl. by rewrite <-app_assoc.
Qed.

Lemma dict_find_zip {V} (ks : list string) (vs : list V) (i : nat) k v :
  NoDup ks → ks !! i = Some k → vs !! i = Some v →
  Py.dict_find (zip ks vs) k = Some v.
Proof.
  revert vs i. induction ks as [|k' ks IH]; intros vs i Hnd Hk Hv; [done|].
  destruct vs as [|v' vs]; [done|]. apply NoDup_cons in Hnd as [Hk' Hnd].
  destruct i as [|i]; simpl in *.
  - injection Hk as ->. injection Hv as ->. by rewrite String.eqb_refl.
  - destruct (String.eqb_spec k k') as [->|Hne].
    + destruct Hk'. by eapply list_elem_of_lookup_2.
    + by eapply IH.
Qed.

Lemma length_resolve_class_labels (bundle : ModelBundle) (clf : Classifier)
    (n : nat) :
  length (_resolve_class_labels bundle clf n) = n.
Proof.
  unfold _resolve_class_labels.
  destruct (_ =? n)%nat eqn:E; cbn [negb].
  - by apply Nat.eqb_eq in E.
  - by rewrite length_fmap, length_seq.
Qed.

(** [_resolve_class_labels] always returns one label per class.  Without a
    [classes_] attribute, class [i] is named by [index_to_class[i]] or else
    by the decimal text of [i]; a [classes_] attribute of another length
    than the probability row is ignored and every class is named by its
    decimal index. *)
Theorem resolve_class_labels_shape (bundle : ModelBundle) (clf : Classifier)
    (n : nat) :
  length (_resolve_class_labels bundle clf n) = n
  ∧ (classes_ clf = None →
     ∀ i, i < n →
       _resolve_class_labels bundle clf n !! i
       = Some (default (pretty (Z.of_nat i))
                       (index_to_class bundle !! Z.of_nat i)))
  ∧ (∀ classes, classes_ clf = Some classes → length classes ≠ n →
       _resolve_class_labels bundle clf n = (λ i, pretty i) <$> seq 0 n).
Proof.
  split_and!.
  - apply length_resolve_class_labels.
  - intros Hc i Hi. unfold _resolve_class_labels. rewrite Hc. cbn [default].
    rewrite !length_fmap, length_seq, Nat.eqb_refl. cbn [negb].
    rewrite !list_lookup_fmap, lookup_seq_lt by done. done.
  - intros classes Hc Hlen. unfold _resolve_class_labels. rewrite Hc.
    cbn [default]. rewrite length_fmap.
    by rewrite (proj2 (Nat.eqb_neq _ _)) by done.
Qed.

Lemma np_argmax_lt (scores : list Q) (best : nat) :
  Py.np_argmax scores = Ok best → best < length scores.
Proof.
  intros (m & Hm & _)%np_argmax_first_max. by eapply lookup_lt_Some.
Qed.

Section Predictor.
Context (N : Py.Binning).
Context (W : PIL.World).
Context (_scores_to_proba : Py.ndarray → result Py.ndarray).

(** [predict_image] has no failure of its own: when preprocessing,
    featurization and the classifier succeed and the first row of the
    probabilities is not empty, it returns a result, whose label is one of
    the resolved labels and whose probability is one of the scores. *)
Theorem predict_image_returns (bundle : ModelBundle) (image : PIL.Image W)
    (array : Py.ndarray) (features : list Q) (proba : Py.ndarray)
    (scores : list Q) :
  _preprocess_for_inference W image (preprocess_config bundle) = Ok array →
  featurize_image N array (feature_config bundle) = Ok features →
  _predict_proba _scores_to_proba (classifier bundle) features = Ok proba →
  scores_of proba = Ok scores →
  scores ≠ [] →
  ∃ res, predict_image N W _scores_to_proba bundle image = Ok res
         ∧ label res
           ∈ _resolve_class_labels bundle (classifier bundle) (length scores)
         ∧ probability res ∈ scores.
Proof.
  intros Hpre Hfeat Hproba Hscores Hne.
  unfold predict_image. rewrite Hpre. cbn [mbind result_bind].
  rewrite Hfeat. cbn [mbind result_bind]. rewrite Hproba.
  cbn [mbind result_bind]. fold (scores_of proba). rewrite Hscores.
  cbn [mbind result_bind].
  destruct (Py.np_argmax scores) as [best|e] eqn:Eb.
  2: { by destruct scores. }
  cbn [mbind result_bind]. pose proof (np_argmax_lt _ _ Eb) as Hlt.
  destruct (lookup_lt_is_Some_2 scores best Hlt) as [p Hp].
  destruct (lookup_lt_is_Some_2
              (_resolve_class_labels bundle (classifier bundle) (length scores))
              best) as [l Hl].
  { by rewrite length_resolve_class_labels. }
  rewrite Hl, Hp. cbn [from_option mbind result_bind].
  eexists. split; [reflexivity|]. cbn [label probability].
  split; by eapply list_elem_of_lookup_2.
Qed.

(** When the resolved labels are pairwise different, the [probabilities]
    dict of a prediction pairs each label with its score, in class order,
    and its entry for the predicted label is the predicted probability. *)
Theorem probabilities_consistent (bundle : ModelBundle) (image : PIL.Image W)
    (array : Py.ndarray) (features : list Q) (proba : Py.ndarray)
    (scores : list Q) (res : PredictionResult) :
  _preprocess_for_inference W image (preprocess_config bundle) = Ok array →
  featurize_image N array (feature_config bundle) = Ok features →
  _predict_proba _scores_to_proba (classifier bundle) features = Ok proba →
  scores_of proba = Ok scores →
  predict_image N W _scores_to_proba bundle image = Ok res →
  let labels :=
    _resolve_class_labels bundle (classifier bundle) (length scores) in
  NoDup labels →
  probabilities res = zip labels scores
  ∧ Py.dict_find (probabilities res) (label res) = Some (probability res).
Proof.
  intros H1 H2 H3 H4
    (array' & features' & proba' & scores' & best & H1' & H2' & H3' & H4'
     & Hb & Hl & Hp & Hd)%predict_image_inv labels Hnd.
  rewrite H1 in H1'. injection H1' as <-.
  rewrite H2 in H2'. injection H2' as <-.
  rewrite H3 in H3'. injection H3' as <-.
  rewrite H4 in H4'. injection H4' as <-.
  fold labels in Hd, Hl.
  assert (probabilities res = zip labels scores) as Hz.
  { rewrite Hd. rewrite foldl_dict_set_NoDup; [done|].
    rewrite fst_zip; [done|].
    unfold labels. by rewrite length_resolve_class_labels. }
  split; [done|]. rewrite Hz. by eapply dict_find_zip.
Qed.

(** A classifier that offers neither [predict_proba] nor
    [decision_function] is asked for a hard prediction, which becomes a
    one-hot row over its classes: 1 at the position of the predicted class,
    0 elsewhere. *)
Theorem predict_proba_one_hot (clf : Classifier) (features : list Q)
    (hard : Py.ndarray → result (list Z)) (c : Z) (classes : list Z)
    (i : nat) :
  predict_proba clf = None → decision_function clf = None →
  predict clf = Some hard →
  hard {| Py.shape := [1; length features]; Py.data := features |} = Ok [c] →
  default (Py.np_unique [c]) (classes_ clf) = classes →
  list_find (λ x, x = c) classes = Some (i, c) →
  _predict_proba _scores_to_proba clf features
  = Ok {| Py.shape := [1; length classes];
          Py.data := <[i := 1%Q]> (replicate (length classes) 0%Q) |}.
Proof.
  intros Hpp Hdf Hp Hhard Hclasses Hfind.
  unfold _predict_proba. rewrite Hpp, Hdf, Hp, Hhard. cbn [mbind result_bind].
  rewrite Hclasses. unfold one_hot. cbn [imap foldl mbind result_bind].
  rewrite Hfind. cbn [Nat.ltb Nat.leb mbind result_bind].
  unfold as_float32. cbn [Py.shape Py.data]. do 2 f_equal.
  rewrite list_fmap_insert, fmap_replicate.
  by assert (Py.round_f32 0 = 0%Q ∧ Py.round_f32 1 = 1%Q) as [-> ->]
    by (by vm_compute).
Qed.
End Predictor.

(** The bundle of the tests, for 1 by 1 images. *)
Definition tiny_bundle : ModelBundle :=
  {| classifier := Examples.DummyClassifier [0.2%float; 0.8%float] [0%Z; 1%Z];
     class_to_index := [("cat", 0%Z); ("dog", 1%Z)];
     index_to_class := <[0%Z := "cat"]> (<[1%Z := "dog"]> ∅);
     feature_config := {| bins := 2 |};
     preprocess_config :=
       {| image_size := (1, 1); normalize := true; dtype := "float32" |};
     created_at := "2024-01-01T00:00:00Z";
     mlflow_run_id := None;
     schema_version := 1 |}.

Lemma predict_image_returns_witness :
  ∃ res, predict_image Examples.exact_edges (Examples.uniform_world []) Ok
           tiny_bundle Examples.red_image = Ok res
         ∧ probability res ∈ [13421773 # 67108864; 13421773 # 16777216]%Q.
Proof.
  pose proof (predict_image_returns Examples.exact_edges
                (Examples.uniform_world []) Ok tiny_bundle Examples.red_image
                {| Py.shape := [1; 1; 3]; Py.data := [1; 0; 0]%Q |}
                [0; 1; 1; 0; 1; 0]%Q
                {| Py.shape := [1; 2];
                   Py.data := [13421773 # 67108864; 13421773 # 16777216]%Q |}
                [13421773 # 67108864; 13421773 # 16777216]%Q) as H.
  assert (_preprocess_for_inference (Examples.uniform_world [])
            Examples.red_image (preprocess_config tiny_bundle)
          = Ok {| Py.shape := [1; 1; 3]; Py.data := [1; 0; 0]%Q |}) as H1
    by (vm_compute; reflexivity).
  assert (featurize_image Examples.exact_edges
            {| Py.shape := [1; 1; 3]; Py.data := [1; 0; 0]%Q |}
            (feature_config tiny_bundle)
          = Ok [0; 1; 1; 0; 1; 0]%Q) as H2
    by (vm_compute; reflexivity).
  assert (scores_of
            {| Py.shape := [1; 2];
               Py.data := [13421773 # 67108864; 13421773 # 16777216]%Q |}
          = Ok [13421773 # 67108864; 13421773 # 16777216]%Q) as H4
    by (vm_compute; reflexivity).
  specialize (H H1 H2 (dummy_proba Ok _) H4).
  destruct H as (res & Hres & _ & Hp); [discriminate|].
  exists res. split; [exact Hres|exact Hp].
Defined.

Lemma probabilities_consistent_witness :
  ∃ res, predict_image Examples.exact_edges (Examples.uniform_world []) Ok
           tiny_bundle Examples.red_image = Ok res
         ∧ Py.dict_find (probabilities res) (label res)
           = Some (probability res).
Proof.
  destruct (predict_image Examples.exact_edges (Examples.uniform_world []) Ok
              tiny_bundle Examples.red_image) as [res|e] eqn:E.
  2: { vm_compute in E. discriminate. }
  exists res. split; [reflexivity|].
  assert (_preprocess_for_inference (Examples.uniform_world [])
            Examples.red_image (preprocess_config tiny_bundle)
          = Ok {| Py.shape := [1; 1; 3]; Py.data := [1; 0; 0]%Q |}) as H1
    by (vm_compute; reflexivity).
  assert (featurize_image Examples.exact_edges
            {| Py.shape := [1; 1; 3]; Py.data := [1; 0; 0]%Q |}
            (feature_config tiny_bundle)
          = Ok [0; 1; 1; 0; 1; 0]%Q) as H2
    by (vm_compute; reflexivity).
  assert (scores_of
            {| Py.shape := [1; 2];
               Py.data := [13421773 # 67108864; 13421773 # 16777216]%Q |}
          = Ok [13421773 # 67108864; 13421773 # 16777216]%Q) as H4
    by (vm_compute; reflexivity).
  refine (proj2 (probabilities_consistent Examples.exact_edges
                   (Examples.uniform_world []) Ok tiny_bundle
                   Examples.red_image _ _ _ _ res H1 H2 (dummy_proba Ok _) H4
                   E _)).
  apply (bool_decide_unpack _). vm_compute. reflexivity.
Defined.

Lemma predict_proba_one_hot_witness :
  _predict_proba Ok
    {| predict_proba := None; decision_function := None;
       predict := Some (λ _, Ok [1%Z]); classes_ := Some [0%Z; 1%Z] |}
    [1; 0]%Q
  = Ok {| Py.shape := [1; 2]; Py.data := [0; 1]%Q |}.
Proof.
  apply (predict_proba_one_hot Ok
           {| predict_proba := None; decision_function := None;
              predict := Some (λ _, Ok [1%Z]); classes_ := Some [0%Z; 1%Z] |}
           [1; 0]%Q (λ _, Ok [1%Z]) 1 [0; 1]%Z 1); reflexivity.
Defined.

End InferenceFacts.

(** ** The manifests on disk *)

Module ManifestFacts.
Import PathLib Data SplitFacts WriterFacts.

(** The line of an item: its path relative to the repository, a tab, its
    label. *)
Definition line_of (repo_root : Path) (item : Path * string) (line : string)
    : Prop :=
  ∃ rel, relative_to item.1 repo_root = Ok rel
         ∧ line = as_posix rel +:+ TAB +:+ item.2.

Lemma manifest_loop_Raise repo_root e items :
  foldl (λ r item, acc ← r; manifest_line repo_root acc item) (Raise e) items
  = Raise e.
Proof. by induction items. Qed.

Lemma count_label_cons label path label' (items : list (Path * string)) :
  count_label label ((path, label') :: items)
  = (if decide (label' = label) then 1 else 0) + count_label label items.
Proof.
  unfold count_label. rewrite filter_cons. cbn [snd].
  by destruct (decide (label' = label)).
Qed.

Lemma manifest_loop_Ok repo_root items lines0 (a b : nat) lines counts :
  foldl (λ r item, acc ← r; manifest_line repo_root acc item)
        (Ok (lines0, [("cat", a); ("dog", b)])) items
  = Ok (lines, counts) →
  ∃ new, lines = lines0 ++ new
         ∧ Forall2 (line_of repo_root) items new
         ∧ counts = [("cat", a + count_label "cat" items);
                     ("dog", b + count_label "dog" items)]
         ∧ Forall (λ item, item.2 = "cat" ∨ item.2 = "dog") items.
Proof.
  revert lines0 a b.
  induction items as [|[path label] items IH]; intros lines0 a b.
  { intros [= <- <-]. exists []. rewrite app_nil_r.
    unfold count_label. rewrite filter_nil. simpl. rewrite !Nat.add_0_r.
    by split_and!. }
  cbn [foldl mbind result_bind manifest_line].
  destruct (relative_to path repo_root) as [rel|e] eqn:Er;
    cbn [mbind result_bind]; [|by rewrite manifest_loop_Raise].
  unfold Py.dict_get. cbn [Py.dict_find].
  destruct (String.eqb_spec label "cat") as [->|Hcat].
  - cbn [mbind result_bind fmap list_fmap String.eqb Ascii.eqb Bool.eqb].
    intros (new & -> & HF & -> & Hall)%IH.
    exists ((as_posix rel +:+ TAB +:+ "cat") :: new).
    split_and!.
    + by rewrite <-app_assoc.
    + constructor; [by exists rel|done].
    + rewrite !count_label_cons.
      rewrite decide_True by done. rewrite decide_False by done.
      replace (a + (1 + count_label "cat" items))
        with (S a + count_label "cat" items) by lia.
      reflexivity.
    + constructor; [by left|done].
  - destruct (String.eqb_spec label "dog") as [->|Hdog].
    + cbn [mbind result_bind fmap list_fmap String.eqb Ascii.eqb Bool.eqb].
      intros (new & -> & HF & -> & Hall)%IH.
      exists ((as_posix rel +:+ TAB +:+ "dog") :: new).
      split_and!.
      * by rewrite <-app_assoc.
      * constructor; [by exists rel|done].
      * rewrite !count_label_cons.
        rewrite decide_False by done. rewrite decide_True by done.
        replace (b + (1 + count_label "dog" items))
          with (S b + count_label "dog" items) by lia.
        reflexivity.
      * constructor; [by right|done].
    + cbn [mbind result_bind]. by rewrite manifest_loop_Raise.
Qed.

(** A manifest has one line per item, in order: the item's path relative
    to the repository, a tab and the label; the per-class counts stored in
    the metadata are the numbers of [cat] and [dog] items.  The lines exist
    only when every path lies below the repository root and every label is
    [cat] or [dog]. *)
Theorem manifest_lines_Ok (repo_root : Path) (items : list (Path * string))
    (lines : list string) (counts : Py.dict nat) :
  manifest_lines repo_root items = Ok (lines, counts) →
  Forall2 (line_of repo_root) items lines
  ∧ counts = [("cat", count_label "cat" items);
              ("dog", count_label "dog" items)]
  ∧ Forall (λ item, item.2 = "cat" ∨ item.2 = "dog") items.
Proof.
  unfold manifest_lines. intros (new & -> & HF & -> & Hall)%manifest_loop_Ok.
  by split_and!.
Qed.

Lemma manifest_lines_Ok_witness :
  ∃ lines counts,
    manifest_lines "/repo"
      [("/repo/data/raw/cats/a.jpg", "cat"); ("/repo/data/raw/dogs/c.jpg", "dog")]
    = Ok (lines, counts)
    ∧ counts = [("cat", 1); ("dog", 1)].
Proof.
  destruct (manifest_lines "/repo"
              [("/repo/data/raw/cats/a.jpg", "cat");
               ("/repo/data/raw/dogs/c.jpg", "dog")])
    as [[lines counts]|e] eqn:E; [|by vm_compute in E].
  exists lines, counts. split; [done|].
  by destruct (manifest_lines_Ok _ _ _ _ E) as (_ & -> & _).
Defined.

Lemma stat_put_eq (t : fs) (p : Path) (n : node) : stat (put t p n) p = Some n.
Proof.
  induction t as [|[q m] t IH]; simpl.
  - by rewrite String.eqb_refl.
  - destruct (String.eqb_spec p q) as [->|Hne]; simpl.
    + by rewrite String.eqb_refl.
    + by rewrite (proj2 (String.eqb_neq p q)).
Qed.

Lemma stat_put_ne (t : fs) (p q : Path) (n : node) :
  p ≠ q → stat (put t p n) q = stat t q.
Proof.
  intros Hne. induction t as [|[r m] t IH]; simpl.
  - rewrite (proj2 (String.eqb_neq q p)); [done|congruence].
  - destruct (String.eqb_spec p r) as [->|Hpr]; simpl.
    + by rewrite (proj2 (String.eqb_neq q r)) by congruence.
    + by rewrite IH.
Qed.

(** A filesystem step keeps what is there: directories stay directories
    and files stay files. *)
Definition keeps (t t' : fs) : Prop :=
  (∀ p, is_dir t p = true → is_dir t' p = true)
  ∧ (∀ p, is_file t p = true → is_file t' p = true).

Lemma keeps_refl t : keeps t t.
Proof. by split. Qed.

Lemma keeps_trans t1 t2 t3 : keeps t1 t2 → keeps t2 t3 → keeps t1 t3.
Proof. intros [? ?] [? ?]. split; auto. Qed.

Lemma write_text_keeps (t t' : fs) (p : Path) (text : string) :
  write_text t p text = Ok t' →
  stat t' p = Some (File text) ∧ keeps t t'.
Proof.
  unfold write_text.
  assert (stat t p ≠ Some Dir → is_dir t (parent p) = true →
          stat (put t p (File text)) p = Some (File text)
          ∧ keeps t (put t p (File text))) as H.
  { intros Hp _. split; [apply stat_put_eq|].
    split; intros q; unfold is_dir, is_file;
      (destruct (decide (p = q)) as [<-|Hne];
       [rewrite stat_put_eq|by rewrite stat_put_ne]).
    - by destruct (stat t p) as [[]|].
    - done. }
  destruct (stat t p) as [[]|] eqn:Es; [done|..];
    destruct (is_dir t (parent p)) eqn:Ed; try done;
    intros [= <-]; by apply H.
Qed.

Lemma mkdir_step_keeps leaf (t t' : fs) (q : Path) :
  mkdir_step leaf (Ok t) q = Ok t' → keeps t t'.
Proof.
  unfold mkdir_step. cbn [mbind result_bind].
  destruct (stat t q) as [[]|] eqn:Es; try done.
  - intros [= <-]. apply keeps_refl.
  - intros [= <-]. split; intros p; unfold is_dir, is_file;
      (destruct (decide (q = p)) as [<-|Hne];
       [by rewrite Es|by rewrite stat_put_ne]).
Qed.

Lemma mkdir_p_keeps (t t' : fs) (p : Path) : mkdir_p t p = Ok t' → keeps t t'.
Proof.
  unfold mkdir_p. generalize (List.last (lineage p) p).
  generalize (removelast (lineage p)). intros l q.
  assert (∀ t0 r, foldl (mkdir_step false) (Ok t0) l = Ok r → keeps t0 r) as H.
  { induction l as [|x l IH]; intros t0 r; cbn [foldl].
    { intros [= <-]. apply keeps_refl. }
    destruct (mkdir_step false (Ok t0) x) as [t1|e] eqn:E1.
    - intros H. apply (keeps_trans t0 t1 r).
      + by apply (mkdir_step_keeps false t0 t1 x).
      + by apply IH.
    - assert (∀ l', foldl (mkdir_step false) (Raise e) l' = Raise e) as ->
        by (intros l'; by induction l').
      done. }
  destruct (foldl (mkdir_step false) (Ok t) l) as [t1|e] eqn:E; [|done].
  intros Hs. apply (keeps_trans t t1 t').
  - by apply H.
  - by apply (mkdir_step_keeps true t1 t' q).
Qed.

Section Writer.
Context (R : Py.Rng) (repo_root : Path) (json_dumps : metadata → string).

Lemma write_manifest_keeps splits_dir_abs split_name items t counts t' :
  write_manifest repo_root splits_dir_abs split_name items t = (Ok counts, t') →
  is_file t' (joinpath splits_dir_abs (split_name +:+ ".txt")) = true
  ∧ keeps t t'.
Proof.
  unfold write_manifest, mbind, stx_bind, pure, effect.
  destruct (manifest_lines repo_root items) as [[lines cc]|e]; [|done].
  destruct (write_text t _ _) as [t1|e1] eqn:E1; [|done].
  intros [= <- <-]. apply write_text_keeps in E1 as [Hs Hk].
  split; [|done]. unfold is_file. by rewrite Hs.
Qed.

(** A successful run of [write_split_manifests] leaves the three manifests
    as files in the splits directory and [metadata.json] there with the
    dump of the metadata it returns; it removes nothing: what was a
    directory or a file before still is. *)
Theorem write_split_manifests_Ok raw_dir splits_dir seed ratios zip_path
    (t t' : fs) (md : metadata) :
  write_split_manifests R repo_root json_dumps raw_dir splits_dir seed ratios
    zip_path t = (Ok md, t') →
  let splits_dir_abs := _resolve_path splits_dir repo_root in
  stat t' (joinpath splits_dir_abs "metadata.json")
    = Some (File (json_dumps md))
  ∧ is_file t' (joinpath splits_dir_abs "train.txt") = true
  ∧ is_file t' (joinpath splits_dir_abs "val.txt") = true
  ∧ is_file t' (joinpath splits_dir_abs "test.txt") = true
  ∧ keeps t t'
  ∧ md_seed md = seed
  ∧ md_ratios md = effective_ratios ratios.
Proof.
  intros H splits_dir_abs. unfold write_split_manifests in H.
  fold (effective_ratios ratios) in H.
  destruct (_ <? _)%float; [done|].
  fold splits_dir_abs in H.
  unfold mbind, stx_bind in H. unfold pure at 1 in H.
  destruct (discover repo_root t _ zip_path)
    as [[[pbl dataset_root] source]|e]; [|done].
  unfold pure at 1 in H.
  destruct (_stratified_split R pbl seed _) as [s|e]; [|done].
  unfold effect at 1 in H.
  destruct (mkdir_p t splits_dir_abs) as [t1|e] eqn:Em; [|done].
  apply mkdir_p_keeps in Em.
  destruct (write_manifest repo_root splits_dir_abs "train" (train s) t1)
    as [[c1|e1] t2] eqn:E1; [|done].
  apply write_manifest_keeps in E1 as [F1 K1].
  destruct (write_manifest repo_root splits_dir_abs "val" (val s) t2)
    as [[c2|e2] t3] eqn:E2; [|done].
  apply write_manifest_keeps in E2 as [F2 K2].
  destruct (write_manifest repo_root splits_dir_abs "test" (test s) t3)
    as [[c3|e3] t4] eqn:E3; [|done].
  apply write_manifest_keeps in E3 as [F3 K3].
  unfold pure at 1 in H.
  destruct (relative_to _ repo_root) as [raw_rel|e4]; [|done].
  unfold pure at 1 in H.
  destruct (relative_to dataset_root repo_root) as [root_rel|e5]; [|done].
  unfold effect in H.
  destruct (write_text t4 _ _) as [t5|e6] eqn:E6; [|done].
  injection H as <- <-. apply write_text_keeps in E6 as [Hs K4].
  cbn [md_seed md_ratios]. split_and!; try done.
  - by apply K4, K3, K2.
  - by apply K4, K3.
  - by apply K4.
  - eauto using keeps_trans.
Qed.

(** Every way [write_split_manifests] can fail.  The ratio error, the
    errors of discovery and of the split and the errors of [mkdir] come
    before anything is written, and leave the filesystem as it was; what
    is raised later (a path outside the repository, an unknown label, a
    manifest path that cannot be written) finds the output directory
    already made. *)
Theorem write_split_manifests_errors raw_dir splits_dir seed ratios zip_path
    (t t' : fs) (e : exn) :
  write_split_manifests R repo_root json_dumps raw_dir splits_dir seed ratios
    zip_path t = (Raise e, t') →
  (t' = t
   ∧ (e = ratio_error ∨ discovery_error e ∨ split_error e
      ∨ e = FileExistsError ∨ e = NotADirectoryError))
  ∨ (late e
     ∧ ∃ t1, mkdir_p t (_resolve_path splits_dir repo_root) = Ok t1
             ∧ keeps t t1).
Proof.
  intros H. apply write_split_manifests_inv in H. cbv zeta in H.
  destruct H as [(_ & [= ->] & ->)|(_ & H)]; [left; by auto|].
  destruct H as [(e' & [= <-] & -> & H)|(t1 & Hm & [[md H]|(e' & [= <-] & H)])].
  - left. split; [done|]. tauto.
  - done.
  - right. split; [done|]. exists t1. split; [done|]. by eapply mkdir_p_keeps.
Qed.
End Writer.

Lemma write_split_manifests_Ok_witness :
  ∃ md t',
    write_split_manifests Examples.lcg "/repo" (λ _, "{}") "data/raw"
      "data/splits" 1337 None None Examples.small_repo = (Ok md, t')
    ∧ stat t' "/repo/data/splits/metadata.json" = Some (File "{}")
    ∧ is_file t' "/repo/data/splits/train.txt" = true.
Proof.
  destruct (write_split_manifests Examples.lcg "/repo" (λ _, "{}") "data/raw"
              "data/splits" 1337 None None Examples.small_repo)
    as [[md|e] t'] eqn:E; [|by vm_compute in E].
  exists md, t'. split; [done|].
  destruct (write_split_manifests_Ok _ _ _ _ _ _ _ _ _ _ _ E)
    as (H1 & H2 & _).
  split; [exact H1|exact H2].
Defined.

(** A repository whose images are still in an archive. *)
Definition zipped_repo : fs :=
  [("/repo", Dir); ("/repo/data", Dir);
   ("/repo/data/pets.zip",
    ZipFile ["pets/"; "pets/cats/1.jpg"; "pets/dogs/2.jpg"])].

Lemma write_split_manifests_errors_witness :
  ∃ t1, mkdir_p zipped_repo "/repo/data/splits" = Ok t1
        ∧ keeps zipped_repo t1.
Proof.
  destruct (write_split_manifests Examples.lcg "/repo" (λ _, "{}")
              "/srv/raw" "data/splits" 1337 None (Some "data/pets.zip")
              zipped_repo) as [r t'] eqn:E.
  pose proof E as E'. vm_compute in E'. injection E' as <- <-.
  destruct (write_split_manifests_errors _ _ _ _ _ _ _ _ _ _ _ E)
    as [[Heq _]|[_ H]].
  - discriminate Heq.
  - exact H.
Defined.

End ManifestFacts.

(** ** Rows and labels of the training matrix *)

Module AlignmentFacts.
Import Model Features FeaturesFacts.

(** A step that appends as many labels as feature vectors. *)
Definition balanced {A} (m : stx rows A) : Prop :=
  ∃ r df dl, appends m r df dl ∧ length df = length dl.

Lemma balanced_pure {A} (x : result A) : balanced (pure (λ _, x)).
Proof.
  exists x, [], []. split; [|done]. intros features labels. unfold pure.
  by rewrite !app_nil_r.
Qed.

Lemma balanced_ret {A} (a : A) : balanced (mret a : stx rows A).
Proof.
  exists (Ok a), [], []. split; [|done]. intros features labels.
  unfold mret, stx_ret. by rewrite !app_nil_r.
Qed.

Lemma balanced_bind {A B} (m : stx rows A) (k : A → stx rows B) :
  balanced m → (∀ a, balanced (k a)) → balanced (m ≫= k).
Proof.
  intros (r & df & dl & Hm & Hlen) Hk. destruct r as [a|e].
  - destruct (Hk a) as (r' & df' & dl' & Hk' & Hlen').
    exists r', (df ++ df'), (dl ++ dl'). split.
    + intros features labels. unfold mbind, stx_bind.
      rewrite Hm, Hk'. by rewrite !app_assoc.
    + rewrite !length_app. lia.
  - exists (Raise e), df, dl. split; [|done]. intros features labels.
    unfold mbind, stx_bind. by rewrite Hm.
Qed.

(** Appending a feature vector and then the index of a known label keeps
    the two lists in step. *)
Lemma balanced_row {A} (v : list Q) (label : string) (index : Z)
    (k : unit → stx rows A) :
  Py.dict_get Data.CLASS_TO_INDEX label = Ok index →
  (∀ u, balanced (k u)) →
  balanced (append_features v ≫= λ _, append_label label ≫= k).
Proof.
  intros Hl Hk. destruct (Hk ()) as (r & df & dl & Hk' & Hlen).
  exists r, (v :: df), (index :: dl). split; [|simpl; lia].
  intros features labels.
  unfold mbind, stx_bind, append_features, append_label, effect.
  rewrite Hl. cbn [mbind result_bind]. rewrite Hk'.
  by rewrite <-!app_assoc.
Qed.

Lemma balanced_row_end (v : list Q) (label : string) (index : Z) :
  Py.dict_get Data.CLASS_TO_INDEX label = Ok index →
  balanced (append_features v ≫= λ _, append_label label).
Proof.
  intros Hl. exists (Ok ()), [v], [index]. split; [|done].
  intros features labels.
  unfold mbind, stx_bind, append_features, append_label, effect.
  by rewrite Hl.
Qed.

Lemma balanced_produced {A} (m : stx rows A) :
  balanced m → length (produced m) = length (produced_labels m).
Proof.
  intros (r & df & dl & Hm & Hlen). unfold produced, produced_labels.
  by rewrite (Hm [] []).
Qed.

Definition known (label : string) : Prop :=
  is_ok (Py.dict_get Data.CLASS_TO_INDEX label) = true.

Section Builders.
Context (N : Py.Binning).
Context (W : PIL.World).
Context (_augment_image : PIL.Image W → Z → result (PIL.Image W)).

Lemma balanced_augmentation image fc label seed idx aug_idx :
  known label →
  balanced (augmentation N W _augment_image image fc label seed idx aug_idx).
Proof.
  unfold known. intros Hl.
  destruct (Py.dict_get Data.CLASS_TO_INDEX label) as [index|] eqn:E; [|done].
  unfold augmentation.
  do 3 (apply balanced_bind; [apply balanced_pure|intros ?]).
  by eapply balanced_row_end.
Qed.

Lemma balanced_train_sample fc augment n seed idx path label :
  known label →
  balanced (train_sample N W _augment_image fc augment n seed idx (path, label)).
Proof.
  intros Hl. pose proof Hl as Hl'. unfold known in Hl'.
  destruct (Py.dict_get Data.CLASS_TO_INDEX label) as [index|] eqn:E; [|done].
  unfold train_sample.
  do 4 (apply balanced_bind; [apply balanced_pure|intros ?]).
  eapply balanced_row; [done|]. intros [].
  destruct augment; [|apply balanced_ret].
  generalize (seq 0 (Z.to_nat n)). intros l.
  assert (∀ m : stx rows unit,
            balanced m →
            balanced (foldl (λ (m : stx rows unit) aug_idx,
                               _ ← m;
                               augmentation N W _augment_image a0 fc label
                                 seed idx aug_idx) m l)) as H.
  { induction l as [|i l IH]; intros m Hm; [done|].
    cbn [foldl]. apply IH. apply balanced_bind; [done|]. intros _.
    by apply balanced_augmentation. }
  apply H, balanced_ret.
Qed.

(** Without augmentation a sample adds one row when it is processed and
    none when its processing raises. *)
Lemma single_train_sample fc n seed idx path label :
  known label →
  length (produced (train_sample N W _augment_image fc false n seed idx
                      (path, label)))
  = if is_ok (outcome (train_sample N W _augment_image fc false n seed idx
                         (path, label)))
    then 1 else 0.
Proof.
  unfold known. intros Hl. unfold produced, outcome, train_sample.
  unfold mbind, stx_bind, pure.
  destruct (PIL.open W path) as [image|e]; [|done].
  destruct (PIL.decoded _) as [rgb|e]; [|done].
  destruct (Data.preprocess_image W rgb _) as [array|e]; [|done].
  destruct (featurize_image N array fc) as [v|e]; [|done].
  unfold append_features, append_label, effect.
  destruct (Py.dict_get Data.CLASS_TO_INDEX label) as [index|]; [|done].
  reflexivity.
Qed.

Lemma length_bind_pointwise {A B C} (f : A → list B) (g : A → list C)
    (l : list A) :
  Forall (λ x, length (f x) = length (g x)) l →
  length (l ≫= f) = length (l ≫= g).
Proof.
  induction 1 as [|x l Hx _ IH]; [done|].
  rewrite !bind_cons, !length_app. lia.
Qed.

(** When every label is one of the two classes, the feature rows and the
    labels [_build_features] returns are in step, one label per row; and
    without augmentation every sample is either one row or one skip. *)
Theorem build_features_aligned (items : list (PathLib.Path * string))
    (fc : FeatureConfig) (augment : bool) (n seed : Z)
    (X : list (list Q)) (y : list Z) (skipped : nat) :
  Forall (λ item, known item.2) items →
  _build_features N W _augment_image items fc augment n seed
    = Ok (X, y, skipped) →
  length X = length y
  ∧ (augment = false → length X + skipped = length items).
Proof.
  intros Hknown. rewrite build_features_eq.
  assert (Forall (λ entry : nat * (PathLib.Path * string), known entry.2.2)
                 (enumerate items)) as Hk.
  { unfold enumerate. apply Forall_forall. intros [idx item] Hin.
    apply list_elem_of_lookup_1 in Hin as [i Hi].
    rewrite list_lookup_imap in Hi.
    destruct (items !! i) as [item'|] eqn:Ei; [|done]. injection Hi as <- <-.
    rewrite Forall_forall in Hknown. apply Hknown.
    by eapply list_elem_of_lookup_2. }
  assert (length (enumerate items) = length items) as <-
    by (unfold enumerate; by rewrite length_imap).
  revert Hk. generalize (enumerate items). intros entries Hk.
  destruct (entries ≫= _) as [|v features] eqn:E; [done|].
  intros [= <- <- <-]. rewrite <-E. clear E v features. split.
  - apply length_bind_pointwise. eapply Forall_impl; [exact Hk|].
    intros [idx [path label]] Hl. apply balanced_produced.
    by apply balanced_train_sample.
  - intros ->. induction Hk as [|[idx [path label]] entries Hl _ IH]; [done|].
    rewrite bind_cons, length_app, filter_cons. cbn [fst snd].
    rewrite (single_train_sample fc n seed idx path label Hl).
    destruct (decide (fails N W _augment_image fc false n seed
                        (idx, (path, label)) = true)) as [Hf|Hf];
      unfold fails in Hf; cbn [fst snd] in Hf;
      destruct (is_ok (outcome _)); cbn [negb length] in *;
      try done; lia.
Qed.
End Builders.

Lemma build_features_aligned_witness :
  ∃ X y skipped,
    _build_features Examples.exact_edges
      (Examples.uniform_world Examples.small_repo) (λ image _, Ok image)
      [("/repo/data/raw/cats/a.jpg", "cat"); ("/repo/data/raw/dogs/d.jpg", "dog")]
      {| bins := 8 |} true 1 42
    = Ok (X, y, skipped)
    ∧ length X = length y.
Proof.
  assert (is_ok (_build_features Examples.exact_edges
                   (Examples.uniform_world Examples.small_repo)
                   (λ image _, Ok image)
                   [("/repo/data/raw/cats/a.jpg", "cat");
                    ("/repo/data/raw/dogs/d.jpg", "dog")]
                   {| bins := 8 |} true 1 42) = true) as Hok
    by (lazy; reflexivity).
  destruct (_build_features _ _ _ _ _ _ _ _) as [[[X y] skipped]|e] eqn:E;
    [|discriminate].
  exists X, y, skipped. split; [done|].
  refine (proj1 (build_features_aligned _ _ _ _ _ _ _ _ _ _ _ _ E)).
  repeat constructor.
Defined.

End AlignmentFacts.
